(** * navigator/SourceWidget.cc: line layout, coordinate mapping, word
      boundaries and colour overlay of the source viewer

    The C++ code is embedded shallowly.  [int] values are mathematical
    integers ([Z]); signed overflow is undefined behaviour in C++, so the
    model describes the executions in which no [int] overflows.  Division is
    C++ division (truncation toward zero, [Z.quot]).  A QString / QStringRef
    is the list of its UTF-16 code units.  Operations whose C++ behaviour is
    undefined (an index outside a container, a division by zero) are faults
    of an explicit error monad, and the [while] loops run on fuel that the
    callers set from the line length. *)

From Stdlib Require Import ZArith Lia Bool Ascii String.
From stdpp Require Import base tactics option list gmap strings.

Local Open Scope Z_scope.

(** ** Faults and the result monad *)

Inductive fault : Type :=
| IndexOutOfRange   (* QString::at, QStringRef::at, std::vector::operator[] *)
| DivisionByZero
| FuelExhausted.

Inductive result (A : Type) : Type :=
| Ok (a : A)
| Fault (f : fault).
Arguments Ok {A} a.
Arguments Fault {A} f.

#[global] Instance result_ret : MRet result := fun A a => Ok a.
#[global] Instance result_bind : MBind result := fun A B k m =>
  match m with
  | Ok a => k a
  | Fault f => Fault f
  end.

Definition isOk {A} (r : result A) : bool :=
  match r with Ok _ => true | Fault _ => false end.

(** ** Qt strings and characters *)

(** A UTF-16 code unit, [QChar::unicode()]. *)
Abbreviation QChar := Z (only parsing).
Abbreviation QString := (list Z) (only parsing).

Definition size (s : QString) : Z := Z.of_nat (length s).

(** [QString::at(i)] / [QStringRef::at(i)]: defined for [0 <= i < size()]. *)
Definition QString_at (s : QString) (i : Z) : result QChar :=
  if i <? 0 then Fault IndexOutOfRange
  else match s !! Z.to_nat i with
       | Some c => Ok c
       | None => Fault IndexOutOfRange
       end.

(** [QChar::isHighSurrogate]: [(ucs & 0xfc00) == 0xd800]. *)
Definition isHighSurrogate (ch : QChar) : bool :=
  Z.land ch 0xfc00 =? 0xd800.

(** The code units of an ASCII string literal. *)
Definition qstr (s : string) : QString :=
  map (fun a => Z.of_N (N_of_ascii a)) (list_ascii_of_string s).

(** [isalnum] of the C locale, on the values the caller lets through. *)
Definition isalnum (u : Z) : bool :=
  ((48 <=? u) && (u <=? 57)) || ((65 <=? u) && (u <=? 90))
  || ((97 <=? u) && (u <=? 122)).

Definition isIdentifierChar (ch : QChar) : bool :=
  let u := ch in
  (u <=? 127) && (isalnum u || (u =? 95)).

(** ** The File collaborator (File.h) *)

(** Modelled from the spec: the [File] class is declared in File.h, which is
    not part of the translated source.  The spec lists what the viewer
    consumes: the line count, a line's start offset, its length, a view of
    its text, and the whole content. *)
Record File : Type := mkFile {
  content : QString;
  lineCount : Z;
  lineStart : Z -> Z;
  lineLength : Z -> Z;
  lineContent : Z -> QString
}.

(** Modelled from the spec: a line's length is the number of code units of
    its text view. *)
Definition File_wf (f : File) : Prop :=
  0 <= lineCount f
  /\ forall l, 0 <= l < lineCount f -> lineLength f l = size (lineContent f l).

(** A concrete file: the given lines, each followed by a newline. *)
Fixpoint lineStarts (pos : Z) (ls : list QString) : list Z :=
  match ls with
  | [] => []
  | l :: ls' => pos :: lineStarts (pos + size l + 1) ls'
  end.

Definition fileOfLines (ls : list QString) : File :=
  {| content := concat (map (fun l => l ++ [10]) ls);
     lineCount := Z.of_nat (length ls);
     lineStart := fun l => nth (Z.to_nat l) (lineStarts 0 ls) 0;
     lineLength := fun l => size (nth (Z.to_nat l) ls []);
     lineContent := fun l => nth (Z.to_nat l) ls [] |}.

(** Modelled from the spec: [FileLocation] (File.h) is a 0-based
    (line, column) pair with a null value for "no location". *)
Record FileLocation : Type := mkLoc { line : Z; column : Z }.

(** Modelled from the spec: the null value, [FileLocation()], and the test
    for it. *)
Definition FileLocation_null : FileLocation := mkLoc (-1) (-1).

Definition isNull (loc : FileLocation) : bool := line loc =? -1.

(** Modelled from the spec: [operator==] on locations compares both
    members. *)
Definition loc_eqb (a b : FileLocation) : bool :=
  (line a =? line b) && (column a =? column b).

(** Modelled from the spec: [FileLocation::doesPointAtChar] holds when the
    location "points at an actual character": a line of the file and a
    column inside that line. *)
Definition doesPointAtChar (loc : FileLocation) (f : File) : bool :=
  (0 <=? line loc) && (line loc <? lineCount f)
  && (0 <=? column loc) && (column loc <? lineLength f (line loc)).

(** Modelled from the spec: [FileRange] (File.h) is the half-open range
    [start, end), empty when both ends are equal. *)
Record FileRange : Type := mkRange { start : FileLocation; end_ : FileLocation }.

(** Modelled from the spec: [FileRange()], the range between two null
    locations. *)
Definition FileRange_null : FileRange :=
  mkRange FileLocation_null FileLocation_null.

(** Modelled from the spec: a range is empty when [start == end]. *)
Definition isEmpty (r : FileRange) : bool := loc_eqb (start r) (end_ r).

(** Modelled from the spec: [operator==] on ranges compares both ends. *)
Definition range_eqb (a b : FileRange) : bool :=
  loc_eqb (start a) (start b) && loc_eqb (end_ a) (end_ b).

(** ** Word boundaries: findWordAtLocation *)

(** [while (x1 - 1 >= 0 && isIdentifierChar(content.at(x1 - 1))) x1--;] *)
Fixpoint wordLeft (fuel : nat) (text : QString) (x1 : Z) : result Z :=
  match fuel with
  | O => Fault FuelExhausted
  | S fuel' =>
      if x1 - 1 >=? 0 then
        ch ← QString_at text (x1 - 1);
        if isIdentifierChar ch then wordLeft fuel' text (x1 - 1) else Ok x1
      else Ok x1
  end.

(** [while (x2 + 1 < content.size() && isIdentifierChar(content.at(x2 + 1))) x2++;] *)
Fixpoint wordRight (fuel : nat) (text : QString) (x2 : Z) : result Z :=
  match fuel with
  | O => Fault FuelExhausted
  | S fuel' =>
      if x2 + 1 <? size text then
        ch ← QString_at text (x2 + 1);
        if isIdentifierChar ch then wordRight fuel' text (x2 + 1) else Ok x2
      else Ok x2
  end.

Definition findWordAtLocation (m_file : option File) (pt : FileLocation)
  : result FileRange :=
  match m_file with
  | None => Ok FileRange_null
  | Some f =>
      if negb (doesPointAtChar pt f) then Ok FileRange_null
      else
        let text := lineContent f (line pt) in
        ch ← QString_at text (column pt);
        if negb (isIdentifierChar ch) then
          Ok (mkRange pt (mkLoc (line pt) (column pt + 1)))
        else
          x1 ← wordLeft (S (length text)) text (column pt);
          x2 ← wordRight (S (length text)) text (column pt);
          Ok (mkRange (mkLoc (line pt) x1) (mkLoc (line pt) (x2 + 1)))
  end.

(** Whether column [i] of [text] holds a word character; false outside the
    text. *)
Definition isWordAt (text : QString) (i : Z) : bool :=
  match QString_at text i with
  | Ok ch => isIdentifierChar ch
  | Fault _ => false
  end.

(** ** Fonts, margins and points *)

(** The glyph metrics of a [QFont]: what [QFontMetrics] and the
    [TextWidthCalculator] of Misc.h (not part of the translated source)
    report for it.  [textWidth] is [TextWidthCalculator::calculate],
    [lineSpacing] is [effectiveLineSpacing(fm)]. *)
Record QFont : Type := mkFont {
  spaceWidth : Z;
  ascent : Z;
  lineSpacing : Z;
  textWidth : QString -> Z
}.

Record QMargins : Type := mkMargins {
  m_left : Z; m_top : Z; m_right : Z; m_bottom : Z
}.

Record QPoint : Type := mkPoint { px : Z; py : Z }.

(** The margins [SourceWidget] gives its view, [QMargins(4, 4, 4, 4)], and
    a monospace font with integer metrics (7 pixels a code unit, 13 a
    line) for the examples. *)
Definition viewMargins : QMargins := mkMargins 4 4 4 4.
Definition monoFont : QFont := mkFont 7 10 13 (fun s => 7 * size s).

Definition kTabStopSize : Z := 8.

(** ** measureLineLength *)

(** The body of the [for] loop, from index [i], [n] iterations. *)
Fixpoint measureLoop (n : nat) (data : QString) (i : Z) (tabStopSize : Z)
  (pos : Z) : result Z :=
  match n with
  | O => Ok pos
  | S n' =>
      ch ← QString_at data i;
      if ch =? 9 then
        if tabStopSize =? 0 then Fault DivisionByZero
        else measureLoop n' data (i + 1) tabStopSize
               ((pos + tabStopSize) ÷ tabStopSize * tabStopSize)
      else measureLoop n' data (i + 1) tabStopSize (pos + 1)
  end.

Definition measureLineLength (data : QString) (start_ size_ tabStopSize : Z)
  : result Z :=
  measureLoop (Z.to_nat size_) data start_ tabStopSize 0.

(** ** LineLayout *)

Record LineLayout : Type := mkLineLayout {
  m_twc : QString -> Z;
  m_lineContent : QString;
  m_lineTop : Z;
  m_lineHeight : Z;
  m_lineBaselineY : Z;
  m_lineLeftMargin : Z;
  m_lineStartIndex : Z;
  m_tabStopPx : Z;
  m_charIndex : Z;
  m_charIsSurrogatePair : bool;
  m_charLeft : Z;
  m_charWidth : Z;
  m_charText : QString
}.

(** The constructor; [line] is 0-based. *)
Definition LineLayout_new (font : QFont) (margins : QMargins) (file : File)
  (line : Z) : LineLayout :=
  let lineHeight := lineSpacing font in
  let lineTop := m_top margins + line * lineHeight in
  {| m_twc := textWidth font;
     m_lineContent := lineContent file line;
     m_lineTop := lineTop;
     m_lineHeight := lineHeight;
     m_lineBaselineY := lineTop + ascent font;
     m_lineLeftMargin := m_left margins;
     m_lineStartIndex := lineStart file line;
     m_tabStopPx := spaceWidth font * kTabStopSize;
     m_charIndex := -1;
     m_charIsSurrogatePair := false;
     m_charLeft := 0;
     m_charWidth := 0;
     m_charText := [] |}.

(** The assignment of the five per-character members. *)
Definition setChar (lay : LineLayout) (charIndex : Z) (pair : bool)
  (charLeft charWidth : Z) (charText : QString) : LineLayout :=
  {| m_twc := m_twc lay;
     m_lineContent := m_lineContent lay;
     m_lineTop := m_lineTop lay;
     m_lineHeight := m_lineHeight lay;
     m_lineBaselineY := m_lineBaselineY lay;
     m_lineLeftMargin := m_lineLeftMargin lay;
     m_lineStartIndex := m_lineStartIndex lay;
     m_tabStopPx := m_tabStopPx lay;
     m_charIndex := charIndex;
     m_charIsSurrogatePair := pair;
     m_charLeft := charLeft;
     m_charWidth := charWidth;
     m_charText := charText |}.

Definition nextCharIndex (lay : LineLayout) : Z :=
  m_charIndex lay + 1 + (if m_charIsSurrogatePair lay then 1 else 0).

Definition hasMoreChars (lay : LineLayout) : bool :=
  nextCharIndex lay <? size (m_lineContent lay).

Definition advanceChar (lay : LineLayout) : result LineLayout :=
  (* Skip over the previous character. *)
  let charIndex := nextCharIndex lay in
  let charLeft := m_charLeft lay + m_charWidth lay in
  (* Analyze the next character. *)
  ch ← QString_at (m_lineContent lay) charIndex;
  if negb (isHighSurrogate ch) then
    if ch =? 9 then
      if m_tabStopPx lay =? 0 then Fault DivisionByZero
      else
        Ok (setChar lay charIndex false charLeft
              ((charLeft + m_tabStopPx lay) ÷ m_tabStopPx lay * m_tabStopPx lay
               - charLeft)
              [])
    else
      c0 ← QString_at (m_lineContent lay) charIndex;
      Ok (setChar lay charIndex false charLeft (m_twc lay [c0]) [c0])
  else
    c0 ← QString_at (m_lineContent lay) charIndex;
    c1 ← QString_at (m_lineContent lay) (charIndex + 1);
    Ok (setChar lay charIndex true charLeft (m_twc lay [c0; c1]) [c0; c1]).

Definition charColumn (lay : LineLayout) : Z := m_charIndex lay.
Definition charFileIndex (lay : LineLayout) : Z :=
  m_lineStartIndex lay + m_charIndex lay.
Definition charLeft (lay : LineLayout) : Z := m_lineLeftMargin lay + m_charLeft lay.
Definition charWidth (lay : LineLayout) : Z := m_charWidth lay.
Definition charText (lay : LineLayout) : QString := m_charText lay.

(** The whole walk [while (lay.hasMoreChars()) lay.advanceChar();]: the
    cursor at each character of the line, in order. *)
Fixpoint layoutChars (fuel : nat) (lay : LineLayout)
  : result (list LineLayout) :=
  match fuel with
  | O => Fault FuelExhausted
  | S fuel' =>
      if hasMoreChars lay then
        lay' ← advanceChar lay;
        rest ← layoutChars fuel' lay';
        Ok (lay' :: rest)
      else Ok []
  end.

(** Whether the last code unit of a line is a high surrogate. *)
Definition endsWithHighSurrogate (text : QString) : bool :=
  match last text with
  | Some ch => isHighSurrogate ch
  | None => false
  end.

(** What the walk needs in order to stay defined and to move rightwards:
    [m_charIndex] inside the line, non-negative offsets and widths, a
    positive tab stop, and no high surrogate as the line's last unit. *)
Definition cursorInv (lay : LineLayout) : Prop :=
  -1 <= m_charIndex lay < size (m_lineContent lay)
  /\ 0 <= m_charLeft lay /\ 0 <= m_charWidth lay
  /\ (forall s, 0 <= m_twc lay s)
  /\ 0 < m_tabStopPx lay
  /\ endsWithHighSurrogate (m_lineContent lay) = false.

(** The part of the invariant that concerns pixels only. *)
Definition metricInv (lay : LineLayout) : Prop :=
  0 <= m_charLeft lay /\ 0 <= m_charWidth lay
  /\ (forall s, 0 <= m_twc lay s)
  /\ 0 < m_tabStopPx lay.

(** The code units the current character takes, and the code units a run of
    characters takes. *)
Definition charUnits (lay : LineLayout) : Z :=
  if m_charIsSurrogatePair lay then 2 else 1.

Definition unitsOf (chars : list LineLayout) : Z :=
  foldr (fun st acc => charUnits st + acc) 0 chars.

(** The metrics a font is expected to report: no negative text width, a
    space of positive width and a positive line spacing. *)
Definition QFont_ok (font : QFont) : Prop :=
  (forall s, 0 <= textWidth font s)
  /\ 0 < spaceWidth font
  /\ 0 < lineSpacing font.

(** ** The range of [int] *)

(** The least and the greatest value of a C++ [int] of 32 bits, and the
    values an [int] holds.  An [int] operation whose mathematical result is
    in the range does not overflow. *)
Definition INT_MIN : Z := - 2 ^ 31.
Definition INT_MAX : Z := 2 ^ 31 - 1.

Definition int_range (z : Z) : Prop := INT_MIN <= z <= INT_MAX.

(** ** SourceWidgetView: hitTest and locationToPoint *)

Definition lineTop (font : QFont) (margins : QMargins) (line : Z) : Z :=
  lineSpacing font * line + m_top margins.

(** The [while] loop of [hitTest]. *)
Fixpoint hitTestLoop (fuel : nat) (file : File) (line : Z) (pixel : QPoint)
  (lay : LineLayout) : result FileLocation :=
  match fuel with
  | O => Fault FuelExhausted
  | S fuel' =>
      if hasMoreChars lay then
        lay' ← advanceChar lay;
        if px pixel <? charLeft lay' + charWidth lay' then
          Ok (mkLoc line (charColumn lay'))
        else hitTestLoop fuel' file line pixel lay'
      else Ok (mkLoc line (lineLength file line))
  end.

(** [hitTest].  [pixel.y() - m_margins.top()] is the difference in [Z]: it
    is the value the program computes where the subtraction does not
    overflow, that is where the difference is in [int_range]. *)
Definition hitTest (font : QFont) (margins : QMargins) (m_file : option File)
  (pixel : QPoint) : result FileLocation :=
  match m_file with
  | None => Ok FileLocation_null
  | Some file =>
      if lineSpacing font =? 0 then Fault DivisionByZero
      else
        let line := (py pixel - m_top margins) ÷ lineSpacing font in
        if line <? 0 then Ok (mkLoc 0 0)
        else if line >=? lineCount file then Ok (mkLoc (lineCount file) 0)
        else
          let lay := LineLayout_new font margins file line in
          hitTestLoop (S (length (m_lineContent lay))) file line pixel lay
  end.

(** The [while] loop of [locationToPoint] and the [return] after it. *)
Fixpoint locationToPointLoop (fuel : nat) (top : Z) (loc : FileLocation)
  (lay : LineLayout) : result QPoint :=
  match fuel with
  | O => Fault FuelExhausted
  | S fuel' =>
      if hasMoreChars lay then
        lay' ← advanceChar lay;
        if charColumn lay' =? column loc then
          Ok (mkPoint (charLeft lay') top)
        else locationToPointLoop fuel' top loc lay'
      else Ok (mkPoint (charLeft lay + charWidth lay) top)
  end.

Definition locationToPoint (font : QFont) (margins : QMargins)
  (m_file : option File) (loc : FileLocation) : result QPoint :=
  match m_file with
  | None => Ok (mkPoint (m_left margins) (m_top margins))
  | Some file =>
      if isNull loc then Ok (mkPoint (m_left margins) (m_top margins))
      else if line loc >=? lineCount file then
        Ok (mkPoint (m_left margins) (lineTop font margins (lineCount file)))
      else
        let lay := LineLayout_new font margins file (line loc) in
        locationToPointLoop (S (length (m_lineContent lay)))
          (lineTop font margins (line loc)) loc lay
  end.

(** The test of [hitTest] on a character, and the test "the pixel span of
    the character contains [x]". *)
Definition rightOf (x : Z) (st : LineLayout) : bool :=
  x <? charLeft st + charWidth st.

Definition spanContains (x : Z) (st : LineLayout) : bool :=
  (charLeft st <=? x) && (x <? charLeft st + charWidth st).

Definition findWordAtPoint (font : QFont) (margins : QMargins)
  (m_file : option File) (pt : QPoint) : result FileRange :=
  match m_file with
  | Some file =>
      loc ← hitTest font margins m_file pt;
      if doesPointAtChar loc file then findWordAtLocation m_file loc
      else Ok FileRange_null
  | None => Ok FileRange_null
  end.

(** ** Colours *)

(** [Qt::GlobalColor]. *)
Inductive GlobalColor : Type :=
| color0 | color1 | black | white | darkGray | gray | lightGray
| red | green | blue | cyan | magenta | yellow
| darkRed | darkGreen | darkBlue | darkCyan | darkMagenta | darkYellow
| transparent.

#[global] Instance GlobalColor_eq_dec : EqDecision GlobalColor.
Proof. solve_decision. Defined.

(** [CXXSyntaxHighlighter::Kind] (CXXSyntaxHighlighter.h): the kinds the
    [switch] names, and the one it leaves to [default]. *)
Inductive Kind : Type :=
| KindDefault | KindComment | KindQuoted | KindNumber | KindDirective
| KindKeyword.

Definition colorForSyntaxKind (kind : Kind) : GlobalColor :=
  match kind with
  | KindComment | KindQuoted => darkGreen
  | KindNumber | KindDirective => darkBlue
  | KindKeyword => darkYellow
  | _ => black
  end.

(** ** The index: Project and Ref *)

(** A semantic reference (Ref.h): 1-based line and column span, and the
    symbol it refers to. *)
Record Ref : Type := mkRef {
  ref_symbolID : N;
  ref_line : Z;
  ref_column : Z;
  ref_endColumn : Z
}.

(** The queries of [Project] (Project.h) that the viewer calls, and the
    constant [indexdb::kInvalidID]. *)
Record Project : Type := mkProject {
  kInvalidID : N;
  getSymbolTypeID : string -> N;
  querySymbolType : N -> N;
  queryFileRefs : File -> list Ref;
  querySymbolsAtLocation : option File -> Z -> Z -> list string;
  findSingleDefinitionOfSymbol : string -> Ref
}.

(** *** ColorForRef *)

Definition addMapping (project : Project) (symbolType : string)
  (color : GlobalColor) (m_map : gmap N GlobalColor) : gmap N GlobalColor :=
  let symbolTypeID := getSymbolTypeID project symbolType in
  if decide (symbolTypeID <> kInvalidID project)
  then <[symbolTypeID := color]> m_map
  else m_map.

Definition ColorForRef_new (project : Project) : gmap N GlobalColor :=
  let m := addMapping project "GlobalVariable" darkCyan ∅ in
  let m := addMapping project "Field" darkRed m in
  let m := addMapping project "Namespace" darkMagenta m in
  let m := addMapping project "Struct" darkMagenta m in
  let m := addMapping project "Class" darkMagenta m in
  let m := addMapping project "Union" darkMagenta m in
  let m := addMapping project "Enum" darkMagenta m in
  addMapping project "Typedef" darkMagenta m.

Definition ColorForRef_color (project : Project) (m_map : gmap N GlobalColor)
  (ref : Ref) : GlobalColor :=
  match m_map !! querySymbolType project (ref_symbolID ref) with
  | None => transparent
  | Some c => c
  end.

(** ** setFile: the colour overlay and the longest line *)

(** [v[i] = x] on a [std::vector]: defined for [0 <= i < v.size()]. *)
Definition vector_set {A} (v : list A) (i : Z) (x : A) : result (list A) :=
  if (i <? 0) || (Z.of_nat (length v) <=? i) then Fault IndexOutOfRange
  else Ok (<[Z.to_nat i := x]> v).

(** [for (size_t i = 0; i < syntaxColoringKind.size(); ++i)], from index
    [i] over the kinds that remain. *)
Fixpoint colorLexed (kinds : list Kind) (i : Z) (coloring : list GlobalColor)
  : result (list GlobalColor) :=
  match kinds with
  | [] => Ok coloring
  | k :: kinds' =>
      coloring' ← vector_set coloring i (colorForSyntaxKind k);
      colorLexed kinds' (i + 1) coloring'
  end.

(** [for (int i = ...; i < ref.endColumn() - 1; ++i)], [n] iterations from
    [i]. *)
Fixpoint colorSpan (n : nat) (offset i : Z) (color : GlobalColor)
  (coloring : list GlobalColor) : result (list GlobalColor) :=
  match n with
  | O => Ok coloring
  | S n' =>
      coloring' ← vector_set coloring (offset + i) color;
      colorSpan n' offset (i + 1) color coloring'
  end.

(** The callback handed to [queryFileRefs]. *)
Definition colorRef (project : Project) (colorForRef : gmap N GlobalColor)
  (file : File) (coloring : list GlobalColor) (ref : Ref)
  : result (list GlobalColor) :=
  let offset := lineStart file (ref_line ref - 1) in
  let color := ColorForRef_color project colorForRef ref in
  if decide (color <> transparent) then
    colorSpan (Z.to_nat ((ref_endColumn ref - 1) - (ref_column ref - 1)))
      offset (ref_column ref - 1) color coloring
  else Ok coloring.

Fixpoint colorRefs (project : Project) (colorForRef : gmap N GlobalColor)
  (file : File) (refs : list Ref) (coloring : list GlobalColor)
  : result (list GlobalColor) :=
  match refs with
  | [] => Ok coloring
  | ref :: refs' =>
      coloring' ← colorRef project colorForRef file coloring ref;
      colorRefs project colorForRef file refs' coloring'
  end.

(** The longest line: [n] iterations of the last loop of [setFile], from
    line [i]. *)
Fixpoint measureLines (n : nat) (file : File) (i : Z) (maxLength : Z)
  : result Z :=
  match n with
  | O => Ok maxLength
  | S n' =>
      len ← measureLineLength (content file) (lineStart file i)
              (lineLength file i) kTabStopSize;
      measureLines n' file (i + 1) (Z.max maxLength len)
  end.

Record SourceWidgetView : Type := mkView {
  font : QFont;
  m_margins : QMargins;
  m_project : Project;
  m_file : option File;
  m_selection : FileRange;
  m_syntaxColoring : list GlobalColor;
  m_maxLineLength : Z
}.

Definition setSelection (v : SourceWidgetView) (r : FileRange)
  : SourceWidgetView :=
  {| font := font v; m_margins := m_margins v; m_project := m_project v;
     m_file := m_file v; m_selection := r;
     m_syntaxColoring := m_syntaxColoring v;
     m_maxLineLength := m_maxLineLength v |}.

(** [setFile]; [highlight] is [CXXSyntaxHighlighter::highlight]. *)
Definition setFile (highlight : QString -> list Kind) (v : SourceWidgetView)
  (file : option File) : result SourceWidgetView :=
  match file with
  | None =>
      Ok {| font := font v; m_margins := m_margins v;
            m_project := m_project v; m_file := None;
            m_selection := FileRange_null;
            m_syntaxColoring := m_syntaxColoring v;
            m_maxLineLength := 0 |}
  | Some f =>
      let text := content f in
      let syntaxColoringKind := highlight text in
      (* Color characters according to the lexed character kind. *)
      let resized := resize (length text) color0 (m_syntaxColoring v) in
      lexed ← colorLexed syntaxColoringKind 0 resized;
      (* Color characters according to the index's refs. *)
      let colorForRef := ColorForRef_new (m_project v) in
      colored ← colorRefs (m_project v) colorForRef f
                  (queryFileRefs (m_project v) f) lexed;
      (* Measure the longest line. *)
      maxLength ← measureLines (Z.to_nat (lineCount f)) f 0 0;
      Ok {| font := font v; m_margins := m_margins v;
            m_project := m_project v; m_file := Some f;
            m_selection := FileRange_null;
            m_syntaxColoring := colored;
            m_maxLineLength := maxLength |}
  end.

(** *** The overlay, stated per character *)

(** Whether the span of [ref] contains the content offset [o]. *)
Definition refCovers (file : File) (ref : Ref) (o : Z) : bool :=
  let offset := lineStart file (ref_line ref - 1) in
  (offset + (ref_column ref - 1) <=? o) && (o <? offset + (ref_endColumn ref - 1)).

(** Whether the symbol type of [ref] has a colour in the table. *)
Definition refColored (project : Project) (colorForRef : gmap N GlobalColor)
  (ref : Ref) : bool :=
  bool_decide (ColorForRef_color project colorForRef ref <> transparent).

(** One reference applied to the colour [c] of offset [o]. *)
Definition overlayStep (project : Project) (colorForRef : gmap N GlobalColor)
  (file : File) (o : Z) (c : GlobalColor) (ref : Ref) : GlobalColor :=
  if refColored project colorForRef ref && refCovers file ref o
  then ColorForRef_color project colorForRef ref
  else c.

(** The colour of offset [o]: the lexical colour, then every reference in
    the order of the enumeration. *)
Definition overlayColor (project : Project) (colorForRef : gmap N GlobalColor)
  (file : File) (refs : list Ref) (o : Z) (lexical : GlobalColor)
  : GlobalColor :=
  foldl (overlayStep project colorForRef file o) lexical refs.

(** The span of [ref] lies inside a vector of [n] entries. *)
Definition refInRange (file : File) (n : Z) (ref : Ref) : Prop :=
  let offset := lineStart file (ref_line ref - 1) in
  0 <= offset + (ref_column ref - 1)
  /\ offset + (ref_endColumn ref - 1) <= n.

(** The line table of a file lies inside its content. *)
Definition File_lines_in_content (f : File) : Prop :=
  forall l, 0 <= l < lineCount f ->
    0 <= lineStart f l /\ 0 <= lineLength f l
    /\ lineStart f l + lineLength f l <= size (content f).

(** A project for the examples: the symbol types "Class" and "Field" are
    known to the index, two symbols have them, and "x" is ambiguous. *)
Definition sampleProject : Project :=
  {| kInvalidID := 0xFFFFFFFF%N;
     getSymbolTypeID := fun s =>
       (if String.eqb s "Class" then 5
        else if String.eqb s "Field" then 6
        else 0xFFFFFFFF)%N;
     querySymbolType := fun sym =>
       match sym with 1 => 5 | 2 => 6 | _ => 9 end%N;
     queryFileRefs := fun _ => [mkRef 1 1 1 4; mkRef 3 1 5 6];
     querySymbolsAtLocation := fun _ l c =>
       match l, c with
       | 1, 1 => ["foo"%string]
       | 1, 5 => ["x"%string; "ns::x"%string]
       | _, _ => []
       end;
     findSingleDefinitionOfSymbol := fun _ => mkRef 1 7 1 4 |}.

(** A file, a lexer result and a view for the examples: the keyword "int"
    is also the span of the first reference of the sample project. *)
Definition sampleFile : File := fileOfLines [qstr "int x;"].

Definition sampleHighlight (text : list Z) : list Kind :=
  replicate 3 KindKeyword ++ replicate (length text - 3) KindDefault.

Definition sampleView : SourceWidgetView :=
  {| font := monoFont; m_margins := viewMargins; m_project := sampleProject;
     m_file := None; m_selection := FileRange_null;
     m_syntaxColoring := []; m_maxLineLength := 0 |}.

(** ** Mouse and context-menu events *)

(** What an entry of a [QMenu] is connected to. *)
Inductive MenuTarget : Type :=
| NoTarget
| SignalGoBack | SignalGoForward | SignalCopyFilePath | SignalRevealInSideBar
| SlotActionCrossReferences (symbol : string).

Inductive MenuItem : Type :=
| MenuAction (text : string) (enabled bold : bool) (target : MenuTarget)
| MenuSeparator.

(** The effects of an event handler on the rest of the application. *)
Inductive UiAction : Type :=
| Update
| NavigateToRef (ref : Ref)
| MenuExec (items : list MenuItem).

Definition mouseReleaseEvent (v : SourceWidgetView) (pos : QPoint)
  : result (SourceWidgetView * list UiAction) :=
  if negb (isEmpty (m_selection v)) then
    word ← findWordAtPoint (font v) (m_margins v) (m_file v) pos;
    let identifierClicked :=
      if range_eqb (m_selection v) word then m_selection v
      else FileRange_null in
    let v' := setSelection v FileRange_null in
    if negb (isEmpty identifierClicked) then
      let symbols := querySymbolsAtLocation (m_project v) (m_file v)
                       (line (start identifierClicked) + 1)
                       (column (start identifierClicked) + 1) in
      match symbols with
      | [symbol] =>
          let ref := findSingleDefinitionOfSymbol (m_project v) symbol in
          Ok (v', [Update; NavigateToRef ref])
      | _ => Ok (v', [Update])
      end
    else Ok (v', [Update])
  else Ok (v, []).

(** The entries added for one symbol in the [for] loop. *)
Definition symbolMenuItems (symbol : string) : list MenuItem :=
  [MenuAction symbol false true NoTarget; MenuSeparator;
   MenuAction "Cross-references..." true false (SlotActionCrossReferences symbol);
   MenuSeparator].

(** [backEnabled] and [forwardEnabled] are what the slot connected to
    [areBackAndForwardEnabled] stores through its reference arguments. *)
Definition contextMenuEvent (v : SourceWidgetView) (pos : QPoint)
  (backEnabled forwardEnabled : bool)
  : result (SourceWidgetView * list UiAction) :=
  v1 ← (if negb (isEmpty (m_selection v)) then
          word ← findWordAtPoint (font v) (m_margins v) (m_file v) pos;
          if negb (range_eqb (m_selection v) word)
          then Ok (setSelection v FileRange_null)
          else Ok v
        else Ok v);
  if isEmpty (m_selection v1) then
    Ok (v1, [MenuExec [MenuAction "Back" backEnabled false SignalGoBack;
                       MenuAction "Forward" forwardEnabled false SignalGoForward;
                       MenuAction "Copy File Path" true false SignalCopyFilePath;
                       MenuAction "Reveal in Sidebar" true false
                         SignalRevealInSideBar];
              Update])
  else
    let symbols := querySymbolsAtLocation (m_project v1) (m_file v1)
                     (line (start (m_selection v1)) + 1)
                     (column (start (m_selection v1)) + 1) in
    let items :=
      match symbols with
      | [] => [MenuAction "No symbols found" false false NoTarget]
      | _ => concat (map symbolMenuItems symbols)
      end in
    Ok (v1, [MenuExec items; Update]).

(** [mousePressEvent]. *)
Definition mousePressEvent (v : SourceWidgetView) (pos : QPoint)
  : result (SourceWidgetView * list UiAction) :=
  word ← findWordAtPoint (font v) (m_margins v) (m_file v) pos;
  Ok (setSelection v word, [Update]).

(** The sample view with the sample file loaded and nothing selected. *)
Definition sampleLoaded : SourceWidgetView :=
  {| font := monoFont; m_margins := viewMargins; m_project := sampleProject;
     m_file := Some sampleFile; m_selection := FileRange_null;
     m_syntaxColoring := []; m_maxLineLength := 0 |}.

(** The symbols the index reports for the start of the selection. *)
Definition symbolsAtSelection (v : SourceWidgetView) : list string :=
  querySymbolsAtLocation (m_project v) (m_file v)
    (line (start (m_selection v)) + 1)
    (column (start (m_selection v)) + 1).

(** ** Sizes, mouse moves and programmatic selection *)

Record QSize : Type := mkSize { s_width : Z; s_height : Z }.

(** [QSize::operator+]. *)
Definition QSize_add (a b : QSize) : QSize :=
  mkSize (s_width a + s_width b) (s_height a + s_height b).

Definition marginsToSize (margins : QMargins) : QSize :=
  mkSize (m_left margins + m_right margins) (m_top margins + m_bottom margins).

(** [SourceWidgetView::sizeHint]. *)
Definition sizeHint (v : SourceWidgetView) : QSize :=
  match m_file v with
  | None => marginsToSize (m_margins v)
  | Some file =>
      QSize_add
        (mkSize (m_maxLineLength v * spaceWidth (font v))
                (lineCount file * lineSpacing (font v)))
        (marginsToSize (m_margins v))
  end.

(** [mouseMoveEvent]. *)
Definition mouseMoveEvent (v : SourceWidgetView) (pos : QPoint)
  : result (SourceWidgetView * list UiAction) :=
  word ← findWordAtPoint (font v) (m_margins v) (m_file v) pos;
  if negb (range_eqb (m_selection v) word)
  then Ok (setSelection v FileRange_null, [Update])
  else Ok (v, []).

(** [SourceWidget::selectIdentifier]; [line] and [column] are 1-based.  The
    result is the view with its new selection and the point handed to
    [ensureVisible]. *)
Definition selectIdentifier (v : SourceWidgetView) (line1 column1 : Z)
  : result (SourceWidgetView * QPoint) :=
  r ← findWordAtLocation (m_file v) (mkLoc (line1 - 1) (column1 - 1));
  let w := setSelection v r in
  wordTopLeft ← locationToPoint (font w) (m_margins w) (m_file w) (start r);
  Ok (w, wordTopLeft).

(** The mappings of the constructor of [ColorForRef], in the order of the
    calls of [addMapping]. *)
Definition colorForRefTable : list (string * GlobalColor) :=
  [("GlobalVariable"%string, darkCyan); ("Field"%string, darkRed);
   ("Namespace"%string, darkMagenta); ("Struct"%string, darkMagenta);
   ("Class"%string, darkMagenta); ("Union"%string, darkMagenta);
   ("Enum"%string, darkMagenta); ("Typedef"%string, darkMagenta)].

(** Whether a table entry is the one for the symbol type [id]. *)
Definition mapsType (project : Project) (id : N)
  (entry : string * GlobalColor) : bool :=
  bool_decide (getSymbolTypeID project (fst entry) = id)
  && bool_decide (getSymbolTypeID project (fst entry) <> kInvalidID project).

(** A line's text view is the slice of the content at the line's start. *)
Definition File_lines_slice (f : File) : Prop :=
  forall l, 0 <= l < lineCount f ->
    lineContent f l
    = take (Z.to_nat (lineLength f l)) (drop (Z.to_nat (lineStart f l)) (content f)).

(** A font in which every single code unit is as wide as a space. *)
Definition QFont_monospace (font : QFont) : Prop :=
  forall ch, textWidth font [ch] = spaceWidth font.

(** A selection the view can paint: nothing, or a non-empty range on one
    line. *)
Definition selectionOnOneLine (r : FileRange) : Prop :=
  r = FileRange_null
  \/ (isEmpty r = false /\ line (start r) = line (end_ r)
      /\ column (start r) < column (end_ r)).

(** The characters of a line of a file, for the examples: the walk on the
    fuel the callers give, and no character where the walk is undefined. *)
Definition lineChars (font : QFont) (margins : QMargins) (file : File)
  (l : Z) : list LineLayout :=
  match layoutChars (S (length (lineContent file l)))
          (LineLayout_new font margins file l) with
  | Ok chars => chars
  | Fault _ => []
  end.

(** The view a handler returns, for the examples. *)
Definition viewOf (r : result SourceWidgetView) (d : SourceWidgetView)
  : SourceWidgetView :=
  match r with
  | Ok v => v
  | Fault _ => d
  end.

(** The view and the actions an event handler returns, for the examples. *)
Definition eventView {A} (r : result (SourceWidgetView * A))
  (d : SourceWidgetView) : SourceWidgetView :=
  match r with
  | Ok (v, _) => v
  | Fault _ => d
  end.

Definition eventActions (r : result (SourceWidgetView * list UiAction))
  : list UiAction :=
  match r with
  | Ok (_, acts) => acts
  | Fault _ => []
  end.

(** A font in which every text that is not empty has a positive width, and
    the space and the line spacing are positive. *)
Definition QFont_positive (font : QFont) : Prop :=
  (forall s, 0 <= textWidth font s)
  /\ (forall s, s <> [] -> 0 < textWidth font s)
  /\ 0 < spaceWidth font
  /\ 0 < lineSpacing font.

(** ** Painting *)

(** A [QRect] as Qt stores it: the coordinates of its first and of its last
    column and row of pixels.  [left()] and [x()] are [x1], [top()] and
    [y()] are [y1], [right()] is [x2] and [bottom()] is [y2]. *)
Record QRect : Type := mkRect { x1 : Z; y1 : Z; x2 : Z; y2 : Z }.

Definition rect_left (r : QRect) : Z := x1 r.
Definition rect_right (r : QRect) : Z := x2 r.
Definition rect_y (r : QRect) : Z := y1 r.
Definition rect_bottom (r : QRect) : Z := y2 r.

(** The [QColor] values the view paints with, each as the number that
    [operator==] compares: the colour [QColor(Qt::GlobalColor)] makes of a
    global colour, and the two colours it takes from the palette. *)
Record QtColors : Type := mkColors {
  fromGlobal : GlobalColor -> Z;
  paletteHighlight : Z;
  paletteHighlightedText : Z
}.

(** What the view asks of the [QPainter]. *)
Inductive PaintOp : Type :=
| SetPen (color : Z)
| DrawText (x y : Z) (text : list Z)
| FillRect (x y w h : Z) (color : Z).

(** Modelled from the spec: locations are ordered by line, then by
    column ([operator<] and [operator>=] of File.h). *)
Definition loc_ltb (a b : FileLocation) : bool :=
  (line a <? line b) || ((line a =? line b) && (column a <? column b)).

Definition loc_geb (a b : FileLocation) : bool := negb (loc_ltb a b).

(** [v[i]] read from a [std::vector]: defined for [0 <= i < v.size()]. *)
Definition vector_get {A} (v : list A) (i : Z) : result A :=
  if i <? 0 then Fault IndexOutOfRange
  else match v !! Z.to_nat i with
       | Some x => Ok x
       | None => Fault IndexOutOfRange
       end.

(** The [while] loop of [paintLine]; [currentColor] is the local variable
    of that name. *)
Fixpoint paintLineLoop (fuel : nat) (colors : QtColors)
  (v : SourceWidgetView) (line : Z) (rect : QRect) (lay : LineLayout)
  (currentColor : Z) : result (list PaintOp) :=
  match fuel with
  | O => Fault FuelExhausted
  | S fuel' =>
      if hasMoreChars lay then
        lay' ← advanceChar lay;
        if charLeft lay' >? rect_right rect then Ok []
        else if charLeft lay' + charWidth lay' <=? rect_left rect then
          paintLineLoop fuel' colors v line rect lay' currentColor
        else
          match charText lay' with
          | [] => paintLineLoop fuel' colors v line rect lay' currentColor
          | _ :: _ =>
              let loc := mkLoc line (charColumn lay') in
              global ← vector_get (m_syntaxColoring v) (charFileIndex lay');
              let color :=
                (* Override the color for selected text. *)
                if loc_geb loc (start (m_selection v))
                   && loc_ltb loc (end_ (m_selection v))
                then paletteHighlightedText colors
                else fromGlobal colors global in
              (* Set the painter pen when the color changes. *)
              let setPen :=
                if negb (color =? currentColor) then [SetPen color] else [] in
              rest ← paintLineLoop fuel' colors v line rect lay' color;
              Ok (setPen
                  ++ DrawText (charLeft lay') (m_lineBaselineY lay')
                       (charText lay')
                     :: rest)
          end
      else Ok []
  end.

(** [paintLine]; [line] is 0-based, [file] is [*m_file]. *)
Definition paintLine (colors : QtColors) (v : SourceWidgetView) (file : File)
  (line : Z) (rect : QRect) : result (list PaintOp) :=
  let lay := LineLayout_new (font v) (m_margins v) file line in
  let currentColor := fromGlobal colors black in
  ops ← paintLineLoop (S (length (m_lineContent lay))) colors v line rect lay
          currentColor;
  Ok (SetPen currentColor :: ops).

(** [for (int line = line1; line <= line2; ++line) paintLine(...)], [n]
    iterations from [line]. *)
Fixpoint paintLines (n : nat) (colors : QtColors) (v : SourceWidgetView)
  (file : File) (line : Z) (rect : QRect) : result (list PaintOp) :=
  match n with
  | O => Ok []
  | S n' =>
      ops ← paintLine colors v file line rect;
      rest ← paintLines n' colors v file (line + 1) rect;
      Ok (ops ++ rest)
  end.

(** The first and the last line [paintEvent] paints for a clip rectangle. *)
Definition paintedLines (font : QFont) (file : File) (rect : QRect) : Z * Z :=
  (Z.max (rect_y rect ÷ lineSpacing font - 2) 0,
   Z.min (rect_bottom rect ÷ lineSpacing font + 2) (lineCount file - 1)).

(** How [paintEvent] ends: it painted, or its [assert] on the selection
    failed. *)
Inductive PaintOutcome : Type :=
| Painted (ops : list PaintOp)
| AssertionFailed.

Definition paintEvent (colors : QtColors) (v : SourceWidgetView)
  (rect : QRect) : result PaintOutcome :=
  match m_file v with
  | None => Ok (Painted [])
  | Some file =>
      let spacing := lineSpacing (font v) in
      (* Fill in a rectangle for the selected identifier. *)
      fill ← (if negb (isEmpty (m_selection v)) then
                if line (start (m_selection v)) =? line (end_ (m_selection v))
                then
                  pt1 ← locationToPoint (font v) (m_margins v) (m_file v)
                          (start (m_selection v));
                  pt2 ← locationToPoint (font v) (m_margins v) (m_file v)
                          (end_ (m_selection v));
                  Ok (Some [FillRect (px pt1) (py pt1) (px pt2 - px pt1)
                              spacing (paletteHighlight colors)])
                else Ok None
              else Ok (Some []));
      match fill with
      | None => Ok AssertionFailed
      | Some fillOps =>
          (* Paint lines in the clip region. *)
          if spacing =? 0 then Fault DivisionByZero
          else
            let '(line1, line2) := paintedLines (font v) file rect in
            if line1 >? line2 then Ok (Painted fillOps)
            else
              lines ← paintLines (Z.to_nat (line2 - line1 + 1)) colors v file
                        line1 rect;
              Ok (Painted (fillOps ++ lines))
      end
  end.

(** *** What a list of paint operations shows *)

(** The texts a list of operations draws, each with the pen it is drawn
    with, starting from the pen [pen]. *)
Fixpoint drawn (pen : Z) (ops : list PaintOp) : list (Z * Z * Z * list Z) :=
  match ops with
  | [] => []
  | SetPen color :: ops' => drawn color ops'
  | DrawText x y text :: ops' => (pen, x, y, text) :: drawn pen ops'
  | FillRect _ _ _ _ _ :: ops' => drawn pen ops'
  end.

(** The colour [paintLine] picks for a character. *)
Definition charColor (colors : QtColors) (v : SourceWidgetView) (l : Z)
  (a : LineLayout) : Z :=
  let loc := mkLoc l (charColumn a) in
  if loc_geb loc (start (m_selection v)) && loc_ltb loc (end_ (m_selection v))
  then paletteHighlightedText colors
  else fromGlobal colors
         (default black (m_syntaxColoring v !! Z.to_nat (charFileIndex a))).

(** The characters of a line that have a text and overlap the columns of
    pixels of the clip rectangle. *)
Definition charVisible (rect : QRect) (a : LineLayout) : bool :=
  (charLeft a <=? rect_right rect)
  && (rect_left rect <? charLeft a + charWidth a)
  && match charText a with [] => false | _ => true end.

(** Colours and a view for the examples of painting: the sample file
    loaded, coloured by [setFile], and its identifier "x" selected. *)
Definition sampleColors : QtColors :=
  {| fromGlobal := fun c =>
       match c with
       | black => 0x000000
       | darkMagenta => 0x800080
       | darkYellow => 0x808000
       | _ => 0x010101
       end;
     paletteHighlight := 0x3399FF;
     paletteHighlightedText := 0xFFFFFF |}.

Definition samplePainted : SourceWidgetView :=
  setSelection
    (viewOf (setFile sampleHighlight sampleView (Some sampleFile)) sampleLoaded)
    (mkRange (mkLoc 0 4) (mkLoc 0 5)).

(** How a paint event ended, for the examples. *)
Definition outcomeOf (r : result PaintOutcome) : PaintOutcome :=
  match r with
  | Ok outcome => outcome
  | Fault _ => AssertionFailed
  end.

(** ** SourceWidgetLineArea *)

(** [QString::number(n)]: the decimal digits of [n], after a minus sign
    when [n] is negative.  [numberLoop] produces the digits from the last
    one; [n] has at most [Z.log2 n + 1] of them. *)
Fixpoint numberLoop (fuel : nat) (n : Z) (acc : QString) : QString :=
  match fuel with
  | O => acc
  | S fuel' =>
      let acc' := (48 + n mod 10) :: acc in
      if n <? 10 then acc' else numberLoop fuel' (n / 10) acc'
  end.

Definition QString_number (n : Z) : QString :=
  if n <? 0 then 45 :: numberLoop (S (Z.to_nat (Z.log2 (- n)))) (- n) []
  else numberLoop (S (Z.to_nat (Z.log2 n))) n [].

(** The line area: what it reads of its font metrics ([la_font] for the
    ascent and the effective line spacing, [la_digitWidth] for
    [fm.width('9')], [la_fontHeight] for [fm.height()]), its members
    [m_margins] and [m_lineCount], and its [width()]. *)
Record SourceWidgetLineArea : Type := mkLineArea {
  la_font : QFont;
  la_digitWidth : Z;
  la_fontHeight : Z;
  la_margins : QMargins;
  la_lineCount : Z;
  la_width : Z
}.

(** [SourceWidgetLineArea::sizeHint]. *)
Definition LineArea_sizeHint (la : SourceWidgetLineArea) : QSize :=
  QSize_add
    (mkSize (la_digitWidth la * size (QString_number (la_lineCount la)))
            (la_fontHeight la * Z.max 1 (la_lineCount la)))
    (marginsToSize (la_margins la)).

Definition rect_top (r : QRect) : Z := y1 r.

(** The text of a line number as [SourceWidgetLineArea::paintEvent] draws
    it; [line] is 0-based. *)
Definition LineArea_drawLine (la : SourceWidgetLineArea) (line : Z) : PaintOp :=
  let ch := lineSpacing (la_font la) in
  let cw := la_digitWidth la in
  let ca := ascent (la_font la) in
  let thisWidth := la_width la in
  let text := QString_number (line + 1) in
  DrawText (thisWidth - (size text * cw) - m_right (la_margins la))
           (ch * line + ca + m_top (la_margins la))
           text.

(** [for (int line = line1; line <= line2; ++line)], [n] iterations from
    [line]. *)
Fixpoint LineArea_drawLines (n : nat) (la : SourceWidgetLineArea) (line : Z)
  : list PaintOp :=
  match n with
  | O => []
  | S n' => LineArea_drawLine la line :: LineArea_drawLines n' la (line + 1)
  end.

(** [SourceWidgetLineArea::paintEvent]. *)
Definition LineArea_paintEvent (colors : QtColors) (la : SourceWidgetLineArea)
  (rect : QRect) : result (list PaintOp) :=
  let ch := lineSpacing (la_font la) in
  if ch =? 0 then Fault DivisionByZero
  else
    let line1 := Z.max 0 (rect_top rect ÷ ch - 2) in
    let line2 := Z.min (la_lineCount la - 1) (rect_bottom rect ÷ ch + 2) in
    Ok (SetPen (fromGlobal colors darkGray)
        :: LineArea_drawLines (Z.to_nat (line2 - line1 + 1)) la line1).

(** A line area for the examples: twelve lines, laid out at the width of
    its size hint. *)
Definition sampleLineArea : SourceWidgetLineArea :=
  {| la_font := monoFont;
     la_digitWidth := 7;
     la_fontHeight := 13;
     la_margins := viewMargins;
     la_lineCount := 12;
     la_width := 22 |}.

(** * Properties *)

(** ** Strings *)

Lemma size_nonneg (s : QString) : 0 <= size s.
Proof. unfold size. lia. Qed.

Lemma QString_at_Ok (s : QString) (i : Z) :
  0 <= i < size s -> exists c, QString_at s i = Ok c.
Proof.
  intros [Hlo Hhi]. unfold QString_at, size in *.
  destruct (Z.ltb_spec i 0) as [?|_]; [lia|].
  destruct (lookup_lt_is_Some_2 s (Z.to_nat i)) as [c Hc]; [lia|].
  exists c. rewrite Hc. reflexivity.
Qed.

Lemma QString_at_range (s : QString) (i : Z) (c : QChar) :
  QString_at s i = Ok c -> 0 <= i < size s.
Proof.
  unfold QString_at, size.
  destruct (Z.ltb_spec i 0) as [?|Hi]; [discriminate|].
  destruct (s !! Z.to_nat i) as [c'|] eqn:Hc; [|discriminate].
  intros _. apply lookup_lt_Some in Hc. lia.
Qed.

Lemma QString_at_Fault (s : QString) (i : Z) :
  size s <= i -> QString_at s i = Fault IndexOutOfRange.
Proof.
  intros Hi. unfold QString_at, size in *.
  destruct (Z.ltb_spec i 0) as [?|_]; [reflexivity|].
  rewrite lookup_ge_None_2; [reflexivity | lia].
Qed.

Lemma fileOfLines_wf (ls : list QString) : File_wf (fileOfLines ls).
Proof. split; [cbn; lia | intros l _; reflexivity]. Qed.

(** ** Word boundaries *)

Lemma isIdentifierChar_ascii (u : QChar) :
  isIdentifierChar u = true <->
  (48 <= u <= 57 \/ 65 <= u <= 90 \/ 97 <= u <= 122 \/ u = 95).
Proof.
  unfold isIdentifierChar, isalnum.
  rewrite andb_true_iff, !orb_true_iff, !andb_true_iff.
  rewrite !Z.leb_le, Z.eqb_eq. lia.
Qed.

Lemma wordLeft_spec (fuel : nat) (text : QString) :
  forall x, 0 <= x < size text -> (Z.to_nat x < fuel)%nat ->
  exists x1, wordLeft fuel text x = Ok x1 /\ 0 <= x1 <= x
    /\ (forall i, x1 <= i < x -> isWordAt text i = true)
    /\ isWordAt text (x1 - 1) = false.
Proof.
  induction fuel as [|fuel IH]; intros x Hx Hfuel; [lia|].
  cbn [wordLeft].
  destruct (Z.geb_spec (x - 1) 0) as [Hge|Hlt].
  - destruct (QString_at_Ok text (x - 1)) as [c Hc]; [lia|].
    rewrite Hc. cbn.
    destruct (isIdentifierChar c) eqn:Hid.
    + destruct (IH (x - 1)) as (x1 & Hrun & Hb & Hall & Hstop); [lia|lia|].
      exists x1. split; [exact Hrun|]. split; [lia|]. split; [|exact Hstop].
      intros i Hi. destruct (Z.eq_dec i (x - 1)) as [->|Hne].
      * unfold isWordAt. rewrite Hc. exact Hid.
      * apply Hall. lia.
    + exists x. split; [reflexivity|]. split; [lia|]. split; [intros; lia|].
      unfold isWordAt. rewrite Hc. exact Hid.
  - exists x. split; [reflexivity|]. split; [lia|]. split; [intros; lia|].
    unfold isWordAt, QString_at.
    destruct (Z.ltb_spec (x - 1) 0); [reflexivity | lia].
Qed.

Lemma wordRight_spec (fuel : nat) (text : QString) :
  forall x, 0 <= x < size text -> (Z.to_nat (size text - x) <= fuel)%nat ->
  exists x2, wordRight fuel text x = Ok x2 /\ x <= x2 < size text
    /\ (forall i, x < i <= x2 -> isWordAt text i = true)
    /\ isWordAt text (x2 + 1) = false.
Proof.
  induction fuel as [|fuel IH]; intros x Hx Hfuel; [lia|].
  cbn [wordRight].
  destruct (Z.ltb_spec (x + 1) (size text)) as [Hlt|Hge].
  - destruct (QString_at_Ok text (x + 1)) as [c Hc]; [lia|].
    rewrite Hc. cbn.
    destruct (isIdentifierChar c) eqn:Hid.
    + destruct (IH (x + 1)) as (x2 & Hrun & Hb & Hall & Hstop); [lia|lia|].
      exists x2. split; [exact Hrun|]. split; [lia|]. split; [|exact Hstop].
      intros i Hi. destruct (Z.eq_dec i (x + 1)) as [->|Hne].
      * unfold isWordAt. rewrite Hc. exact Hid.
      * apply Hall. lia.
    + exists x. split; [reflexivity|]. split; [lia|]. split; [intros; lia|].
      unfold isWordAt. rewrite Hc. exact Hid.
  - exists x. split; [reflexivity|]. split; [lia|]. split; [intros; lia|].
    unfold isWordAt. rewrite QString_at_Fault; [reflexivity | lia].
Qed.

Lemma doesPointAtChar_true (pt : FileLocation) (f : File) :
  doesPointAtChar pt f = true <->
  0 <= line pt < lineCount f /\ 0 <= column pt < lineLength f (line pt).
Proof.
  unfold doesPointAtChar. rewrite !andb_true_iff, !Z.leb_le, !Z.ltb_lt. lia.
Qed.

(** The two ways [findWordAtLocation] answers for a location that points at
    a character. *)
Lemma findWordAtLocation_cases (f : File) (pt : FileLocation) :
  File_wf f -> doesPointAtChar pt f = true ->
  let text := lineContent f (line pt) in
  (isWordAt text (column pt) = false
   /\ findWordAtLocation (Some f) pt
      = Ok (mkRange pt (mkLoc (line pt) (column pt + 1))))
  \/ (isWordAt text (column pt) = true
      /\ exists x1 x2,
           findWordAtLocation (Some f) pt
           = Ok (mkRange (mkLoc (line pt) x1) (mkLoc (line pt) (x2 + 1)))
           /\ 0 <= x1 <= column pt /\ column pt <= x2 < size text
           /\ (forall i, x1 <= i <= x2 -> isWordAt text i = true)
           /\ isWordAt text (x1 - 1) = false
           /\ isWordAt text (x2 + 1) = false).
Proof.
  intros Hwf Hpt text.
  pose proof Hpt as Hpt'. apply doesPointAtChar_true in Hpt' as [Hline Hcol].
  rewrite (proj2 Hwf _ Hline) in Hcol. fold text in Hcol.
  unfold findWordAtLocation. rewrite Hpt. cbn [negb]. fold text.
  destruct (QString_at_Ok text (column pt) Hcol) as [c Hc].
  unfold isWordAt. rewrite Hc. cbn [mbind result_bind].
  destruct (isIdentifierChar c) eqn:Hid; cbn [negb].
  - right. split; [reflexivity|].
    destruct (wordLeft_spec (S (length text)) text (column pt) Hcol)
      as (x1 & Hl & Hb1 & Hall1 & Hstop1); [unfold size in Hcol; lia|].
    destruct (wordRight_spec (S (length text)) text (column pt) Hcol)
      as (x2 & Hr & Hb2 & Hall2 & Hstop2); [unfold size in *; lia|].
    exists x1, x2. rewrite Hl. cbn [mbind result_bind]. rewrite Hr.
    cbn [mbind result_bind].
    split; [reflexivity|]. split; [lia|]. split; [lia|].
    split; [|split; assumption].
    intros i Hi.
    destruct (Z.lt_trichotomy i (column pt)) as [Hlt|[->|Hgt]].
    + apply Hall1. lia.
    + unfold isWordAt. rewrite Hc. exact Hid.
    + apply Hall2. lia.
  - left. split; reflexivity.
Qed.

(** C5.  [findWordAtLocation] returns the empty range for a location that
    does not point at a character; the one-character range
    [location, location+1) when the character there is not an ASCII letter,
    digit or underscore; and otherwise the range [x1, x2+1) of the maximal
    run of word characters around the location.  On the line
    "int foo_bar;" column 4 gives [4, 11) and column 11 gives [11, 12). *)
Theorem findWordAtLocation_word_boundary (f : File) (pt : FileLocation)
  (Hwf : File_wf f) :
  let text := lineContent f (line pt) in
  (forall u, isIdentifierChar u = true <->
     (48 <= u <= 57 \/ 65 <= u <= 90 \/ 97 <= u <= 122 \/ u = 95))
  /\ (doesPointAtChar pt f = false ->
      findWordAtLocation (Some f) pt = Ok FileRange_null
      /\ isEmpty FileRange_null = true)
  /\ (doesPointAtChar pt f = true -> isWordAt text (column pt) = false ->
      findWordAtLocation (Some f) pt
      = Ok (mkRange pt (mkLoc (line pt) (column pt + 1))))
  /\ (doesPointAtChar pt f = true -> isWordAt text (column pt) = true ->
      exists x1 x2,
        findWordAtLocation (Some f) pt
        = Ok (mkRange (mkLoc (line pt) x1) (mkLoc (line pt) (x2 + 1)))
        /\ x1 <= column pt <= x2
        /\ (forall i, x1 <= i <= x2 -> isWordAt text i = true)
        /\ isWordAt text (x1 - 1) = false
        /\ isWordAt text (x2 + 1) = false)
  /\ findWordAtLocation (Some (fileOfLines [qstr "int foo_bar;"])) (mkLoc 0 4)
     = Ok (mkRange (mkLoc 0 4) (mkLoc 0 11))
  /\ findWordAtLocation (Some (fileOfLines [qstr "int foo_bar;"])) (mkLoc 0 11)
     = Ok (mkRange (mkLoc 0 11) (mkLoc 0 12)).
Proof.
  intros text. split; [exact isIdentifierChar_ascii|].
  split.
  { intros Hpt. unfold findWordAtLocation. rewrite Hpt. split; reflexivity. }
  split.
  { intros Hpt Hnw.
    destruct (findWordAtLocation_cases f pt Hwf Hpt) as [[_ H]|[Hw _]];
      [exact H|]. fold text in Hw. congruence. }
  split.
  { intros Hpt Hw.
    destruct (findWordAtLocation_cases f pt Hwf Hpt)
      as [[Hnw _]|(_ & x1 & x2 & Hrun & Hb1 & Hb2 & Hall & Hs1 & Hs2)].
    - fold text in Hnw. congruence.
    - exists x1, x2. split; [exact Hrun|]. split; [lia|].
      split; [exact Hall|]. split; assumption. }
  split; vm_compute; reflexivity.
Qed.

Lemma findWordAtLocation_word_boundary_witness :
  File_wf (fileOfLines [qstr "a+b1"])
  /\ findWordAtLocation (Some (fileOfLines [qstr "a+b1"])) (mkLoc 0 1)
     = Ok (mkRange (mkLoc 0 1) (mkLoc 0 2)).
Proof.
  split; [apply fileOfLines_wf|].
  apply (findWordAtLocation_word_boundary (fileOfLines [qstr "a+b1"])
           (mkLoc 0 1) (fileOfLines_wf _)); reflexivity.
Defined.

(** C10.  For a location that points at a character of the file,
    [findWordAtLocation] returns a non-empty range that lies on the
    location's line, contains the location, starts at a column >= 0 and ends
    at a column <= the line's length. *)
Theorem findWordAtLocation_range_bounds (f : File) (pt : FileLocation)
  (Hwf : File_wf f) (Hpt : doesPointAtChar pt f = true) :
  exists r, findWordAtLocation (Some f) pt = Ok r
    /\ isEmpty r = false
    /\ line (start r) = line pt /\ line (end_ r) = line pt
    /\ column (start r) <= column pt < column (end_ r)
    /\ 0 <= column (start r)
    /\ column (end_ r) <= lineLength f (line pt).
Proof.
  pose proof Hpt as Hpt'. apply doesPointAtChar_true in Hpt' as [Hline Hcol].
  assert (Hne : forall l a b, a < b ->
            isEmpty (mkRange (mkLoc l a) (mkLoc l b)) = false).
  { intros l a b Hab. unfold isEmpty, loc_eqb. cbn.
    destruct (Z.eqb_spec a b); [lia|]. apply andb_false_r. }
  destruct (findWordAtLocation_cases f pt Hwf Hpt)
    as [[_ Hrun]|(_ & x1 & x2 & Hrun & Hb1 & Hb2 & _)].
  - eexists. split; [exact Hrun|]. destruct pt as [l c]. cbn in *.
    split; [apply Hne; lia|]. lia.
  - eexists. split; [exact Hrun|]. cbn.
    rewrite (proj2 Hwf _ Hline).
    split; [apply Hne; lia|]. lia.
Qed.

Lemma findWordAtLocation_range_bounds_witness :
  exists r, findWordAtLocation (Some (fileOfLines [qstr "int foo_bar;"]))
              (mkLoc 0 6) = Ok r
    /\ isEmpty r = false
    /\ line (start r) = 0 /\ line (end_ r) = 0
    /\ column (start r) <= 6 < column (end_ r)
    /\ 0 <= column (start r)
    /\ column (end_ r) <= 12.
Proof.
  exact (findWordAtLocation_range_bounds
           (fileOfLines [qstr "int foo_bar;"]) (mkLoc 0 6)
           (fileOfLines_wf _) eq_refl).
Defined.

(** ** The line layout cursor *)

Lemma tab_width_next_stop (L T : Z) :
  0 <= L -> 0 < T ->
  let W := (L + T) ÷ T * T - L in
  0 < W <= T /\ (L + W) mod T = 0.
Proof.
  intros HL HT W. subst W.
  rewrite Z.quot_div_nonneg by lia.
  pose proof (Z.div_mod (L + T) T ltac:(lia)) as Hdm.
  pose proof (Z.mod_pos_bound (L + T) T HT) as Hmod.
  split; [nia|].
  replace (L + ((L + T) / T * T - L)) with ((L + T) / T * T) by lia.
  apply Z.mod_mul. lia.
Qed.

Lemma advanceChar_inv (lay lay' : LineLayout) :
  advanceChar lay = Ok lay' ->
  exists ch w t,
    QString_at (m_lineContent lay) (nextCharIndex lay) = Ok ch
    /\ lay' = setChar lay (nextCharIndex lay) (isHighSurrogate ch)
                (m_charLeft lay + m_charWidth lay) w t
    /\ ((ch = 9 /\ isHighSurrogate ch = false /\ m_tabStopPx lay <> 0
         /\ t = []
         /\ w = (m_charLeft lay + m_charWidth lay + m_tabStopPx lay)
                  ÷ m_tabStopPx lay * m_tabStopPx lay
                - (m_charLeft lay + m_charWidth lay))
        \/ (ch <> 9 /\ isHighSurrogate ch = false /\ t = [ch]
            /\ w = m_twc lay [ch])
        \/ (isHighSurrogate ch = true
            /\ exists c1,
                 QString_at (m_lineContent lay) (nextCharIndex lay + 1) = Ok c1
                 /\ t = [ch; c1] /\ w = m_twc lay [ch; c1])).
Proof.
  unfold advanceChar.
  destruct (QString_at (m_lineContent lay) (nextCharIndex lay)) as [ch|e] eqn:Hch;
    cbn [mbind result_bind]; [|discriminate].
  destruct (isHighSurrogate ch) eqn:Hhs; cbn [negb].
  - destruct (QString_at (m_lineContent lay) (nextCharIndex lay + 1))
      as [c1|e] eqn:Hc1; cbn [mbind result_bind]; [|discriminate].
    intros [= <-]. exists ch, (m_twc lay [ch; c1]), [ch; c1].
    split; [reflexivity|]. split; [rewrite Hhs; reflexivity|].
    right. right. split; [exact Hhs|]. exists c1. auto.
  - destruct (Z.eqb_spec ch 9) as [->|Hne].
    + destruct (Z.eqb_spec (m_tabStopPx lay) 0) as [?|HT]; [discriminate|].
      intros [= <-]. eexists 9, _, []. split; [reflexivity|].
      split; [reflexivity|]. left. auto.
    + intros [= <-]. exists ch, (m_twc lay [ch]), [ch].
      split; [reflexivity|]. split; [rewrite Hhs; reflexivity|].
      right. left. auto.
Qed.

Lemma advanceChar_frame (lay lay' : LineLayout) :
  advanceChar lay = Ok lay' ->
  m_lineContent lay' = m_lineContent lay
  /\ m_lineLeftMargin lay' = m_lineLeftMargin lay
  /\ m_lineStartIndex lay' = m_lineStartIndex lay
  /\ m_twc lay' = m_twc lay
  /\ m_tabStopPx lay' = m_tabStopPx lay
  /\ m_charIndex lay' = nextCharIndex lay
  /\ m_charLeft lay' = m_charLeft lay + m_charWidth lay.
Proof.
  intros H. apply advanceChar_inv in H as (ch & w & t & _ & -> & _).
  cbn. repeat split.
Qed.

Lemma last_not_high_surrogate (text : QString) (i : Z) (ch : Z) :
  endsWithHighSurrogate text = false ->
  QString_at text i = Ok ch -> isHighSurrogate ch = true ->
  i + 1 < size text.
Proof.
  intros Hend Hat Hhs.
  pose proof (QString_at_range _ _ _ Hat) as Hi.
  destruct (Z.eq_dec (i + 1) (size text)) as [Heq|]; [|lia].
  exfalso. unfold endsWithHighSurrogate in Hend. rewrite last_lookup in Hend.
  unfold QString_at in Hat. destruct (Z.ltb_spec i 0); [lia|].
  replace (pred (length text)) with (Z.to_nat i) in Hend
    by (unfold size in *; lia).
  destruct (text !! Z.to_nat i) as [c|]; [|discriminate].
  injection Hat as ->. congruence.
Qed.

Lemma nextCharIndex_bounds (lay : LineLayout) :
  m_charIndex lay + 1 <= nextCharIndex lay <= m_charIndex lay + 2.
Proof. unfold nextCharIndex. destruct (m_charIsSurrogatePair lay); lia. Qed.

Lemma hasMoreChars_true (lay : LineLayout) :
  hasMoreChars lay = true <-> nextCharIndex lay < size (m_lineContent lay).
Proof. unfold hasMoreChars. apply Z.ltb_lt. Qed.

(** Inside the invariant an advance is defined and keeps the invariant. *)
Lemma advanceChar_ok (lay : LineLayout) :
  cursorInv lay -> hasMoreChars lay = true ->
  exists lay', advanceChar lay = Ok lay' /\ cursorInv lay'.
Proof.
  intros (Hidx & HL & HW & Htwc & HT & Hend) Hmore.
  apply hasMoreChars_true in Hmore.
  pose proof (nextCharIndex_bounds lay) as Hn.
  destruct (QString_at_Ok (m_lineContent lay) (nextCharIndex lay)) as [ch Hch];
    [lia|].
  unfold advanceChar. rewrite Hch. cbn [mbind result_bind].
  destruct (isHighSurrogate ch) eqn:Hhs; cbn [negb].
  - pose proof (last_not_high_surrogate _ _ _ Hend Hch Hhs) as Hnext.
    destruct (QString_at_Ok (m_lineContent lay) (nextCharIndex lay + 1))
      as [c1 Hc1]; [lia|].
    rewrite Hc1. cbn [mbind result_bind]. eexists. split; [reflexivity|].
    unfold cursorInv. cbn. repeat split; try lia; auto.
  - destruct (Z.eqb_spec ch 9) as [->|Hne].
    + destruct (Z.eqb_spec (m_tabStopPx lay) 0) as [?|_]; [lia|].
      eexists. split; [reflexivity|].
      pose proof (tab_width_next_stop (m_charLeft lay + m_charWidth lay)
                    (m_tabStopPx lay) ltac:(lia) HT) as [Hw _].
      unfold cursorInv. cbn. repeat split; try lia; auto.
    + eexists. split; [reflexivity|].
      unfold cursorInv. cbn. repeat split; try lia; auto.
Qed.

Lemma LineLayout_new_inv (font : QFont) (margins : QMargins) (file : File)
  (l : Z) :
  QFont_ok font -> endsWithHighSurrogate (lineContent file l) = false ->
  cursorInv (LineLayout_new font margins file l).
Proof.
  intros (Htw & Hsp & _) Hend. unfold cursorInv. cbn.
  pose proof (size_nonneg (lineContent file l)).
  unfold kTabStopSize. repeat split; try lia; auto.
Qed.

(** ** Tab stops *)

Lemma next_stop_of_stop (T pos : Z) :
  0 < T -> 0 <= pos -> pos mod T = 0 -> (pos + T) ÷ T * T = pos + T.
Proof.
  intros HT Hpos Hmod. rewrite Z.quot_div_nonneg by lia.
  apply Z.mod_divide in Hmod; [|lia]. destruct Hmod as [c ->].
  replace (c * T + T) with ((c + 1) * T) by lia.
  rewrite Z.div_mul by lia. reflexivity.
Qed.

Lemma QString_at_replicate (n : nat) (ch i : Z) :
  0 <= i < Z.of_nat n -> QString_at (replicate n ch) i = Ok ch.
Proof.
  intros Hi. unfold QString_at.
  destruct (Z.ltb_spec i 0); [lia|].
  rewrite lookup_replicate_2 by lia. reflexivity.
Qed.

Lemma measureLoop_tabs (T : Z) (n : nat) :
  0 < T ->
  forall (k : nat) (i pos : Z),
    0 <= i -> i + Z.of_nat k <= Z.of_nat n -> 0 <= pos -> pos mod T = 0 ->
    measureLoop k (replicate n 9) i T pos = Ok (pos + Z.of_nat k * T).
Proof.
  intros HT. induction k as [|k IH]; intros i pos Hi Hk Hpos Hmod.
  - cbn. f_equal. lia.
  - cbn [measureLoop]. rewrite QString_at_replicate by lia.
    cbn [mbind result_bind]. change (9 =? 9) with true. cbv iota.
    destruct (Z.eqb_spec T 0); [lia|].
    rewrite next_stop_of_stop by assumption.
    rewrite IH; try lia.
    + f_equal. lia.
    + replace (pos + T) with (pos + 1 * T) by lia.
      rewrite Z.mod_add by lia. exact Hmod.
Qed.

(** ** A high surrogate as the last code unit of a line *)

(** Whenever the cursor stands before a high surrogate that is the last
    code unit of its line, the advance reads outside the line. *)
Lemma advanceChar_high_surrogate_last (lay : LineLayout) (ch : Z) :
  nextCharIndex lay + 1 = size (m_lineContent lay) ->
  QString_at (m_lineContent lay) (nextCharIndex lay) = Ok ch ->
  isHighSurrogate ch = true ->
  advanceChar lay = Fault IndexOutOfRange.
Proof.
  intros Hlast Hch Hhs. unfold advanceChar. rewrite Hch.
  cbn [mbind result_bind]. rewrite Hhs. cbn [negb].
  rewrite (QString_at_Fault _ (nextCharIndex lay + 1)) by lia. reflexivity.
Qed.

(** C7.  An advance takes two code units exactly when the code unit it
    lands on has the high-surrogate flag.  On a line whose only code unit
    is a high surrogate the cursor has one more character, and advancing
    onto it evaluates [m_lineContent.at(m_charIndex + 1)] with
    [m_charIndex + 1] equal to the size of the line: the read is outside
    the line, and [hitTest] and [locationToPoint] on that line take it. *)
Theorem advanceChar_lone_high_surrogate (font : QFont) (margins : QMargins) :
  let file := fileOfLines [[0xD83D]] in
  let lay := LineLayout_new font margins file 0 in
  (forall lay1 lay2, advanceChar lay1 = Ok lay2 ->
     exists ch, QString_at (m_lineContent lay1) (m_charIndex lay2) = Ok ch
       /\ m_charIsSurrogatePair lay2 = isHighSurrogate ch
       /\ nextCharIndex lay2
          = m_charIndex lay2 + (if isHighSurrogate ch then 2 else 1))
  /\ isHighSurrogate 0xD83D = true
  /\ size (m_lineContent lay) = 1
  /\ hasMoreChars lay = true
  /\ QString_at (m_lineContent lay) (nextCharIndex lay + 1)
     = Fault IndexOutOfRange
  /\ advanceChar lay = Fault IndexOutOfRange
  /\ hitTest monoFont viewMargins (Some file) (mkPoint 20 8)
     = Fault IndexOutOfRange
  /\ locationToPoint monoFont viewMargins (Some file) (mkLoc 0 0)
     = Fault IndexOutOfRange.
Proof.
  intros file lay. split.
  { intros lay1 lay2 Hadv.
    apply advanceChar_inv in Hadv as (ch & w & t & Hch & -> & _).
    exists ch. unfold nextCharIndex. cbn.
    split; [exact Hch|]. split; [reflexivity|].
    destruct (isHighSurrogate ch); lia. }
  repeat split.
Qed.

(** ** The walk over a line *)

Lemma cursorInv_metricInv (lay : LineLayout) : cursorInv lay -> metricInv lay.
Proof. intros (_ & HL & HW & Htwc & HT & _). repeat split; auto. Qed.

Lemma advanceChar_metric (lay lay' : LineLayout) :
  advanceChar lay = Ok lay' -> metricInv lay -> metricInv lay'.
Proof.
  intros Hadv (HL & HW & Htwc & HT).
  apply advanceChar_inv in Hadv as (ch & w & t & _ & -> & Hcase).
  unfold metricInv. cbn.
  assert (0 <= w).
  { destruct Hcase as [(_ & _ & _ & _ & ->)|[(_ & _ & _ & ->)|(_ & c1 & _ & _ & ->)]];
      auto.
    pose proof (tab_width_next_stop (m_charLeft lay + m_charWidth lay)
                  (m_tabStopPx lay) ltac:(lia) HT) as [Hw _]. lia. }
  repeat split; auto; lia.
Qed.

Lemma layoutChars_cons (fuel : nat) (lay : LineLayout)
  (chars : list LineLayout) :
  layoutChars fuel lay = Ok chars ->
  match chars with
  | [] => hasMoreChars lay = false
  | lay' :: rest =>
      exists fuel', fuel = S fuel' /\ hasMoreChars lay = true
        /\ advanceChar lay = Ok lay' /\ layoutChars fuel' lay' = Ok rest
  end.
Proof.
  destruct fuel as [|fuel']; [discriminate|]. cbn [layoutChars].
  destruct (hasMoreChars lay) eqn:Hmore.
  - destruct (advanceChar lay) as [lay'|e] eqn:Hadv;
      cbn [mbind result_bind]; [|discriminate].
    destruct (layoutChars fuel' lay') as [rest|e] eqn:Hrest;
      cbn [mbind result_bind]; [|discriminate].
    intros [= <-]. exists fuel'. auto.
  - intros [= <-]. reflexivity.
Qed.

(** Every character of the walk lies at or right of the right edge of the
    cursor the walk starts from. *)
Lemma layoutChars_right_of (fuel : nat) :
  forall lay chars, layoutChars fuel lay = Ok chars -> metricInv lay ->
  forall (j : nat) b, chars !! j = Some b ->
    m_charLeft lay + m_charWidth lay <= m_charLeft b
    /\ 0 <= m_charWidth b
    /\ m_lineLeftMargin b = m_lineLeftMargin lay.
Proof.
  induction fuel as [|fuel IH]; intros lay chars Hrun Hinv j b Hb;
    [discriminate|].
  apply layoutChars_cons in Hrun. destruct chars as [|lay' rest];
    [discriminate|].
  destruct Hrun as (fuel' & [= <-] & _ & Hadv & Hrest).
  pose proof (advanceChar_metric _ _ Hadv Hinv) as Hinv'.
  pose proof (advanceChar_frame _ _ Hadv) as (_ & Hm & _ & _ & _ & _ & HL).
  destruct j as [|j]; cbn in Hb.
  - injection Hb as <-. destruct Hinv' as (_ & HW' & _). lia.
  - destruct (IH _ _ Hrest Hinv' j b Hb) as (H1 & H2 & H3).
    destruct Hinv' as (_ & HW' & _). split; [lia|]. split; [lia|]. congruence.
Qed.

Lemma layoutChars_monotone (fuel : nat) :
  forall lay chars, layoutChars fuel lay = Ok chars -> metricInv lay ->
  forall (i j : nat) a b, (i < j)%nat ->
    chars !! i = Some a -> chars !! j = Some b ->
    m_charLeft a + m_charWidth a <= m_charLeft b
    /\ 0 <= m_charWidth a
    /\ m_lineLeftMargin a = m_lineLeftMargin b.
Proof.
  induction fuel as [|fuel IH]; intros lay chars Hrun Hinv i j a b Hij Ha Hb;
    [discriminate|].
  apply layoutChars_cons in Hrun. destruct chars as [|lay' rest];
    [discriminate|].
  destruct Hrun as (fuel' & [= <-] & _ & Hadv & Hrest).
  pose proof (advanceChar_metric _ _ Hadv Hinv) as Hinv'.
  destruct j as [|j]; [lia|]. cbn in Hb.
  destruct i as [|i]; cbn in Ha.
  - injection Ha as <-.
    destruct (layoutChars_right_of _ _ _ Hrest Hinv' j b Hb) as (H1 & _ & H3).
    destruct Hinv' as (_ & HW' & _). auto.
  - apply (IH _ _ Hrest Hinv' i j a b); [lia | assumption | assumption].
Qed.

(** With the invariant the walk is defined on the fuel the callers give. *)
Lemma layoutChars_ok (fuel : nat) :
  forall lay, cursorInv lay ->
  (Z.to_nat (size (m_lineContent lay) - nextCharIndex lay) < fuel)%nat ->
  exists chars, layoutChars fuel lay = Ok chars.
Proof.
  induction fuel as [|fuel IH]; intros lay Hinv Hfuel; [lia|].
  cbn [layoutChars]. destruct (hasMoreChars lay) eqn:Hmore; [|eauto].
  destruct (advanceChar_ok lay Hinv Hmore) as (lay' & Hadv & Hinv').
  rewrite Hadv. cbn [mbind result_bind].
  pose proof (advanceChar_frame _ _ Hadv) as (Hc & _ & _ & _ & _ & Hi & _).
  apply hasMoreChars_true in Hmore.
  pose proof (nextCharIndex_bounds lay'). 
  destruct (IH lay' Hinv') as [rest Hrest]; [rewrite Hc; lia|].
  rewrite Hrest. cbn [mbind result_bind]. eauto.
Qed.

Lemma LineLayout_new_metricInv (font : QFont) (margins : QMargins)
  (file : File) (l : Z) :
  QFont_ok font -> metricInv (LineLayout_new font margins file l).
Proof.
  intros (Htw & Hsp & _). unfold metricInv. cbn. unfold kTabStopSize.
  repeat split; try lia; auto.
Qed.

Lemma monoFont_ok : QFont_ok monoFont.
Proof.
  unfold QFont_ok, monoFont, size. cbn.
  split; [intros s; lia | split; lia].
Qed.

(** C8.  The left edges of the characters of a line, in the order the
    cursor produces them, never decrease, and the edge after a character of
    positive width is strictly greater than that character's edge; on a
    line that does not end in a high surrogate the walk is defined. *)
Theorem charLeft_monotone (font : QFont) (margins : QMargins) (file : File)
  (l : Z) (Hfont : QFont_ok font) :
  let lay0 := LineLayout_new font margins file l in
  (endsWithHighSurrogate (lineContent file l) = false ->
   isOk (layoutChars (S (length (lineContent file l))) lay0) = true)
  /\ forall fuel chars, layoutChars fuel lay0 = Ok chars ->
     forall (i j : nat) a b, (i < j)%nat ->
       chars !! i = Some a -> chars !! j = Some b ->
       charLeft a <= charLeft b
       /\ charLeft a + charWidth a <= charLeft b
       /\ (0 < charWidth a -> charLeft a < charLeft b).
Proof.
  intros lay0. split.
  - intros Hend.
    destruct (layoutChars_ok (S (length (lineContent file l))) lay0)
      as [chars Hrun].
    + apply LineLayout_new_inv; assumption.
    + subst lay0. unfold nextCharIndex, size, LineLayout_new.
      cbn [m_charIndex m_charIsSurrogatePair m_lineContent]. lia.
    + rewrite Hrun. reflexivity.
  - intros fuel chars Hrun i j a b Hij Ha Hb.
    destruct (layoutChars_monotone fuel lay0 chars Hrun
                (LineLayout_new_metricInv _ _ _ _ Hfont) i j a b Hij Ha Hb)
      as (H1 & H2 & H3).
    unfold charLeft, charWidth. rewrite H3. lia.
Qed.

Lemma charLeft_monotone_witness :
  isOk (layoutChars 4 (LineLayout_new monoFont viewMargins
                         (fileOfLines [[97; 9; 98]]) 0)) = true.
Proof.
  apply (charLeft_monotone monoFont viewMargins (fileOfLines [[97; 9; 98]]) 0
           monoFont_ok).
  reflexivity.
Defined.

(** Every character of the walk is the result of an advance from a cursor
    that satisfies the pixel invariant. *)
Lemma layoutChars_step (fuel : nat) :
  forall lay chars, layoutChars fuel lay = Ok chars -> metricInv lay ->
  forall (k : nat) a, chars !! k = Some a ->
    exists prev, metricInv prev /\ advanceChar prev = Ok a
      /\ m_tabStopPx prev = m_tabStopPx lay
      /\ m_lineContent prev = m_lineContent lay.
Proof.
  induction fuel as [|fuel IH]; intros lay chars Hrun Hinv k a Ha;
    [discriminate|].
  apply layoutChars_cons in Hrun. destruct chars as [|lay' rest];
    [discriminate|].
  destruct Hrun as (fuel' & [= <-] & _ & Hadv & Hrest).
  destruct k as [|k]; cbn in Ha.
  - injection Ha as <-. exists lay. auto.
  - pose proof (advanceChar_metric _ _ Hadv Hinv) as Hinv'.
    pose proof (advanceChar_frame _ _ Hadv) as (Hc & _ & _ & _ & Ht & _).
    destruct (IH _ _ Hrest Hinv' k a Ha) as (prev & H1 & H2 & H3 & H4).
    exists prev. split; [exact H1|]. split; [exact H2|].
    split; congruence.
Qed.

(** C1.  The tab stop of a line layout is 8 space widths.  Advancing onto a
    tab (code unit 9) gives an empty text and the width that leads from the
    current pixel offset to the next multiple of the tab stop.  In
    [measureLineLength] a tab moves the column to the next multiple of the
    tab-stop size, so the first [k] of [n] tabs end at column [k * T]; with
    T = 8 one tab ends at column 8 and tab, 'a', tab ends at column 16.
    The same holds for every tab the cursor meets on a line when the font
    reports no negative width and a positive space width. *)
Theorem tab_expansion (font : QFont) (margins : QMargins) (file : File)
  (l : Z) :
  m_tabStopPx (LineLayout_new font margins file l) = spaceWidth font * 8
  /\ (forall lay,
        QString_at (m_lineContent lay) (nextCharIndex lay) = Ok 9 ->
        0 <= m_charLeft lay + m_charWidth lay -> 0 < m_tabStopPx lay ->
        exists lay', advanceChar lay = Ok lay'
          /\ charText lay' = []
          /\ m_charLeft lay' = m_charLeft lay + m_charWidth lay
          /\ 0 < charWidth lay' <= m_tabStopPx lay
          /\ (m_charLeft lay' + charWidth lay') mod m_tabStopPx lay = 0)
  /\ (forall T pos, 0 < T -> 0 <= pos ->
        exists pos', measureLoop 1 [9] 0 T pos = Ok pos'
          /\ pos < pos' <= pos + T /\ pos' mod T = 0)
  /\ (forall (n k : nat) T, 0 < T -> (k <= n)%nat ->
        measureLineLength (replicate n 9) 0 (Z.of_nat k) T
        = Ok (Z.of_nat k * T))
  /\ measureLineLength [9] 0 1 kTabStopSize = Ok 8
  /\ measureLineLength [9; 97; 9] 0 3 kTabStopSize = Ok 16
  /\ (QFont_ok font ->
      forall fuel chars (k : nat) a,
        layoutChars fuel (LineLayout_new font margins file l) = Ok chars ->
        chars !! k = Some a ->
        QString_at (lineContent file l) (charColumn a) = Ok 9 ->
        charText a = []
        /\ 0 < charWidth a <= spaceWidth font * 8
        /\ (m_charLeft a + charWidth a) mod (spaceWidth font * 8) = 0)
  /\ (layoutChars 4 (LineLayout_new monoFont viewMargins
                       (fileOfLines [[9; 97; 9]]) 0))
       ≫= (fun chars =>
             Ok (map (fun st => (charLeft st, charWidth st, charText st)) chars))
     = Ok [(4, 56, []); (60, 7, [97]); (67, 49, [])].
Proof.
  split; [reflexivity|]. split.
  { intros lay Hat HL HT. unfold advanceChar. rewrite Hat.
    cbn [mbind result_bind]. change (isHighSurrogate 9) with false.
    change (9 =? 9) with true. cbv iota. cbn [negb].
    destruct (Z.eqb_spec (m_tabStopPx lay) 0); [lia|].
    eexists. split; [reflexivity|]. cbn.
    destruct (tab_width_next_stop _ _ HL HT) as [Hw Hm]. auto. }
  split.
  { intros T pos HT Hpos. cbn.
    destruct (Z.eqb_spec T 0); [lia|]. eexists. split; [reflexivity|].
    destruct (tab_width_next_stop pos T Hpos HT) as [Hw Hm].
    replace (pos + ((pos + T) ÷ T * T - pos)) with ((pos + T) ÷ T * T)
      in Hm by lia.
    split; [lia | exact Hm]. }
  split.
  { intros n k T HT Hk. unfold measureLineLength. rewrite Nat2Z.id.
    rewrite (measureLoop_tabs T n HT k 0 0); try lia.
    - f_equal.
    - apply Z.mod_0_l. lia. }
  split; [reflexivity|]. split; [reflexivity|]. split; [|reflexivity].
  intros Hfont fuel chars k a Hrun Ha Htab.
  destruct (layoutChars_step fuel _ _ Hrun
              (LineLayout_new_metricInv _ _ _ _ Hfont) k a Ha)
    as (prev & (HL & HW & _ & HT) & Hadv & Hstop & Hcont).
  cbn [LineLayout_new m_tabStopPx m_lineContent] in Hstop, Hcont.
  unfold kTabStopSize in Hstop.
  apply advanceChar_inv in Hadv as (ch & w & t & Hch & -> & Hcase).
  unfold charColumn, charText, charWidth in *.
  cbn [setChar m_charIndex m_charText m_charWidth m_charLeft] in *.
  rewrite Hcont, Htab in Hch. injection Hch as <-.
  destruct Hcase as [(_ & _ & _ & -> & ->)|[(Hne & _)|(Hhs & _)]];
    [|contradiction|discriminate].
  split; [reflexivity|]. rewrite <- Hstop.
  apply tab_width_next_stop; lia.
Qed.

Lemma tab_expansion_witness :
  let lay := LineLayout_new monoFont viewMargins (fileOfLines [[9]]) 0 in
  exists lay', advanceChar lay = Ok lay'
    /\ charText lay' = []
    /\ m_charLeft lay' = m_charLeft lay + m_charWidth lay
    /\ 0 < charWidth lay' <= m_tabStopPx lay
    /\ (m_charLeft lay' + charWidth lay') mod m_tabStopPx lay = 0.
Proof.
  intros lay.
  destruct (tab_expansion monoFont viewMargins (fileOfLines [[9]]) 0)
    as (_ & H & _).
  apply (H lay); subst lay; [reflexivity | cbn; lia |].
  cbn. unfold kTabStopSize. lia.
Defined.

(** ** Columns and file offsets *)

Lemma unitsOf_bounds (chars : list LineLayout) :
  Z.of_nat (length chars) <= unitsOf chars <= 2 * Z.of_nat (length chars).
Proof.
  induction chars as [|st chars IH]; cbn [unitsOf foldr length].
  - lia.
  - fold (unitsOf chars). unfold charUnits.
    destruct (m_charIsSurrogatePair st); lia.
Qed.

Lemma nextCharIndex_units (lay : LineLayout) :
  nextCharIndex lay = m_charIndex lay + charUnits lay.
Proof.
  unfold nextCharIndex, charUnits. destruct (m_charIsSurrogatePair lay); lia.
Qed.

(** The [k]-th character of the walk sits at the code-unit index that the
    characters before it have used up. *)
Lemma layoutChars_columns (fuel : nat) :
  forall lay chars, layoutChars fuel lay = Ok chars ->
  forall (k : nat) a, chars !! k = Some a ->
    m_charIndex a = nextCharIndex lay + unitsOf (take k chars)
    /\ m_lineStartIndex a = m_lineStartIndex lay
    /\ m_lineContent a = m_lineContent lay
    /\ exists ch, QString_at (m_lineContent lay) (m_charIndex a) = Ok ch
                  /\ m_charIsSurrogatePair a = isHighSurrogate ch.
Proof.
  induction fuel as [|fuel IH]; intros lay chars Hrun k a Ha; [discriminate|].
  apply layoutChars_cons in Hrun. destruct chars as [|lay' rest];
    [discriminate|].
  destruct Hrun as (fuel' & [= <-] & _ & Hadv & Hrest).
  pose proof (advanceChar_frame _ _ Hadv) as (Hc & _ & Hs & _ & _ & Hi & _).
  destruct k as [|k]; cbn in Ha.
  - injection Ha as <-. cbn [take unitsOf foldr].
    split; [lia|]. split; [exact Hs|]. split; [exact Hc|].
    apply advanceChar_inv in Hadv as (ch & w & t & Hch & -> & _).
    exists ch. cbn. auto.
  - destruct (IH _ _ Hrest k a Ha) as (H1 & H2 & H3 & ch & H4 & H5).
    cbn [take unitsOf foldr]. fold (unitsOf (take k rest)).
    rewrite nextCharIndex_units in H1.
    split; [lia|]. split; [congruence|]. split; [congruence|].
    exists ch. rewrite <- Hc. auto.
Qed.

Lemma no_high_surrogate_at (text : list Z) (i ch : Z) :
  existsb isHighSurrogate text = false ->
  QString_at text i = Ok ch -> isHighSurrogate ch = false.
Proof.
  intros Hnone Hat. destruct (isHighSurrogate ch) eqn:Hhs; [|reflexivity].
  assert (existsb isHighSurrogate text = true); [|congruence].
  apply existsb_exists. exists ch. split; [|exact Hhs].
  unfold QString_at in Hat. destruct (i <? 0); [discriminate|].
  destruct (text !! Z.to_nat i) as [c|] eqn:Hc; [|discriminate].
  injection Hat as ->. apply list_elem_of_In.
  apply list_elem_of_lookup. eauto.
Qed.

Lemma unitsOf_single_units (chars : list LineLayout) :
  Forall (fun st => m_charIsSurrogatePair st = false) chars ->
  unitsOf chars = Z.of_nat (length chars).
Proof.
  induction 1 as [|st chars Hst _ IH]; cbn [unitsOf foldr length]; [lia|].
  fold (unitsOf chars). unfold charUnits. rewrite Hst. lia.
Qed.

(** C2 (as the code has it).  The column of a character is the code-unit
    index of its first unit in the line: the number of code units of the
    characters before it, a surrogate pair counting two.  Column and file
    offset move together, by 2 after a surrogate pair and by 1 otherwise,
    and the file offset is the line start plus the column on every line.
    On a line without high surrogates the column is the character's
    ordinal. *)
Theorem charColumn_code_unit_index (font : QFont) (margins : QMargins)
  (file : File) (l : Z) (fuel : nat) (chars : list LineLayout) (k : nat)
  (a : LineLayout)
  (Hrun : layoutChars fuel (LineLayout_new font margins file l) = Ok chars)
  (Ha : chars !! k = Some a) :
  charColumn a = unitsOf (take k chars)
  /\ Z.of_nat k <= charColumn a <= 2 * Z.of_nat k
  /\ charFileIndex a = lineStart file l + charColumn a
  /\ (exists ch, QString_at (lineContent file l) (charColumn a) = Ok ch
                 /\ charUnits a = if isHighSurrogate ch then 2 else 1)
  /\ (forall b, chars !! S k = Some b ->
        charColumn b = charColumn a + charUnits a
        /\ charFileIndex b = charFileIndex a + charUnits a)
  /\ (existsb isHighSurrogate (lineContent file l) = false ->
      charColumn a = Z.of_nat k).
Proof.
  pose proof (layoutChars_columns _ _ _ Hrun) as Hcols.
  assert (Hnext : nextCharIndex (LineLayout_new font margins file l) = 0)
    by reflexivity.
  rewrite Hnext in Hcols.
  destruct (Hcols k a Ha) as (Hidx & Hstart & Hcont & ch & Hch & Hpair).
  cbn [LineLayout_new m_lineStartIndex m_lineContent] in Hstart, Hcont, Hch.
  assert (Hlen : length (take k chars) = k).
  { apply lookup_lt_Some in Ha. rewrite length_take. lia. }
  pose proof (unitsOf_bounds (take k chars)) as Hb. rewrite Hlen in Hb.
  unfold charColumn, charFileIndex.
  split; [lia|]. split; [lia|]. split; [rewrite Hstart; reflexivity|].
  split.
  { exists ch. split; [exact Hch|]. unfold charUnits. rewrite Hpair.
    reflexivity. }
  split.
  { intros b Hb'. destruct (Hcols (S k) b Hb') as (Hidx' & Hstart' & _).
    cbn [LineLayout_new m_lineStartIndex m_lineContent] in Hstart'.
    rewrite (take_S_r chars k a Ha) in Hidx'.
    assert (unitsOf (take k chars ++ [a]) = unitsOf (take k chars) + charUnits a)
      as Happ.
    { unfold unitsOf. rewrite foldr_app. cbn [foldr].
      generalize (take k chars). intros xs.
      induction xs as [|x xs IH]; cbn [foldr]; lia. }
    rewrite Happ in Hidx'. rewrite Hstart, Hstart'. lia. }
  intros Hnone.
  rewrite Hidx. rewrite unitsOf_single_units; [lia|].
  apply Forall_forall. intros st Hst.
  apply list_elem_of_lookup in Hst as [i Hi]. apply lookup_take_Some in Hi as [Hi _].
  destruct (Hcols i st Hi) as (_ & _ & _ & c & Hc & Hp).
  cbn [LineLayout_new m_lineContent] in Hc.
  rewrite Hp. exact (no_high_surrogate_at _ _ _ Hnone Hc).
Qed.

Lemma charColumn_code_unit_index_witness :
  exists chars a,
    layoutChars 4 (LineLayout_new monoFont viewMargins
                     (fileOfLines [[0xD83D; 0xDE00; 97]]) 0) = Ok chars
    /\ chars !! 1%nat = Some a
    /\ charColumn a = unitsOf (take 1 chars)
    /\ charFileIndex a = 0 + charColumn a.
Proof.
  eexists _, _. split; [reflexivity|]. split; [reflexivity|].
  split;
    apply (charColumn_code_unit_index monoFont viewMargins
             (fileOfLines [[0xD83D; 0xDE00; 97]]) 0 4 _ 1 _ eq_refl eq_refl).
Defined.

(** C2 as the specification words it fails: on the line U+D83D U+DE00 'a' the
    second character is 'a', its ordinal is 1, and the cursor reports
    column 2 and file offset line start + 2. *)
Lemma charColumn_not_char_ordinal :
  exists chars a,
    layoutChars 4 (LineLayout_new monoFont viewMargins
                     (fileOfLines [[0xD83D; 0xDE00; 97]]) 0) = Ok chars
    /\ length chars = 2%nat
    /\ chars !! 1%nat = Some a
    /\ charText a = [97]
    /\ charColumn a = 2
    /\ charColumn a <> 1
    /\ charFileIndex a = 2.
Proof.
  eexists _, _. split; [reflexivity|]. split; [reflexivity|].
  split; [reflexivity|]. split; [reflexivity|]. split; [reflexivity|].
  split; [discriminate | reflexivity].
Qed.

(** ** Hit testing *)

Lemma hitTestLoop_find (file : File) (l : Z) (pixel : QPoint) (fuel : nat) :
  forall lay chars, layoutChars fuel lay = Ok chars ->
  hitTestLoop fuel file l pixel lay
  = Ok (mkLoc l match find (rightOf (px pixel)) chars with
                | Some st => charColumn st
                | None => lineLength file l
                end).
Proof.
  induction fuel as [|fuel IH]; intros lay chars Hrun; [discriminate|].
  apply layoutChars_cons in Hrun. cbn [hitTestLoop].
  destruct chars as [|lay' rest].
  - rewrite Hrun. reflexivity.
  - destruct Hrun as (fuel' & [= <-] & Hmore & Hadv & Hrest).
    rewrite Hmore, Hadv. cbn [mbind result_bind find]. unfold rightOf at 1.
    destruct (px pixel <? charLeft lay' + charWidth lay'); [reflexivity|].
    apply IH. exact Hrest.
Qed.

Lemma find_rightOf_spanContains (x : Z) (fuel : nat) :
  forall lay chars, layoutChars fuel lay = Ok chars -> metricInv lay ->
  m_lineLeftMargin lay + (m_charLeft lay + m_charWidth lay) <= x ->
  find (rightOf x) chars = find (spanContains x) chars.
Proof.
  induction fuel as [|fuel IH]; intros lay chars Hrun Hinv Hx; [discriminate|].
  apply layoutChars_cons in Hrun. destruct chars as [|lay' rest];
    [reflexivity|].
  destruct Hrun as (fuel' & [= <-] & _ & Hadv & Hrest).
  pose proof (advanceChar_metric _ _ Hadv Hinv) as Hinv'.
  pose proof (advanceChar_frame _ _ Hadv) as (_ & Hm & _ & _ & _ & _ & HL).
  cbn [find]. unfold spanContains at 1, rightOf at 1, charLeft, charWidth.
  destruct (Z.leb_spec (m_lineLeftMargin lay' + m_charLeft lay') x); [|lia].
  cbn [andb].
  destruct (Z.ltb_spec x (m_lineLeftMargin lay' + m_charLeft lay'
                          + m_charWidth lay')); [reflexivity|].
  apply (IH lay'); [assumption | assumption | lia].
Qed.

Lemma quot_line_above (y top s : Z) :
  0 < s -> y - top <= - s -> (y - top) ÷ s < 0.
Proof.
  intros Hs Hy. replace (y - top) with (- (top - y)) by lia.
  rewrite Z.quot_opp_l by lia. rewrite Z.quot_div_nonneg by lia.
  assert (1 <= (top - y) / s); [|lia].
  apply Z.div_le_lower_bound; lia.
Qed.

Lemma quot_line_inside (y top s n : Z) :
  0 < s -> top <= y < top + n * s ->
  (y - top) ÷ s = (y - top) / s /\ 0 <= (y - top) / s < n.
Proof.
  intros Hs Hy. split; [apply Z.quot_div_nonneg; lia|]. split.
  - apply Z.div_pos; lia.
  - apply Z.div_lt_upper_bound; lia.
Qed.

Lemma quot_line_below (y top s n : Z) :
  0 < s -> 0 <= n -> top + n * s <= y -> n <= (y - top) ÷ s.
Proof.
  intros Hs Hn Hy. rewrite Z.quot_div_nonneg by lia.
  apply Z.div_le_lower_bound; lia.
Qed.

Lemma hitTest_on_line (font : QFont) (margins : QMargins) (file : File)
  (pixel : QPoint) (l : Z) :
  0 < lineSpacing font ->
  (py pixel - m_top margins) ÷ lineSpacing font = l ->
  0 <= l < lineCount file ->
  hitTest font margins (Some file) pixel
  = hitTestLoop (S (length (lineContent file l))) file l pixel
      (LineLayout_new font margins file l).
Proof.
  intros Hs Hl Hrange. unfold hitTest.
  destruct (Z.eqb_spec (lineSpacing font) 0); [lia|].
  rewrite Hl. destruct (Z.ltb_spec l 0); [lia|].
  destruct (Z.geb_spec l (lineCount file)); [lia|]. reflexivity.
Qed.

(** C4 (as the code has it).  For a pixel whose y minus the top margin is
    an [int] (the subtraction of [hitTest] does not overflow), [hitTest]
    returns (0, 0) for a pixel one line height or more above the top of the
    first line, and (lineCount, 0) for a pixel at or below the bottom of
    the last line (on a 5-line file, (5, 0)).  For a pixel whose y lies
    inside line [l], a line that does not end in a high surrogate, the
    walk over the line is defined and [hitTest] returns the first character
    of that line whose right edge is right of the pixel's x, or
    (l, lineLength l) when there is none; when x is not left of the line's
    left margin that character is the first one whose span contains x. *)
Theorem hitTest_clamping (font : QFont) (margins : QMargins) (file : File)
  (pixel : QPoint) (Hfont : QFont_ok font) (Hwf : File_wf file)
  (Hint : int_range (py pixel - m_top margins)) :
  (py pixel - m_top margins <= - lineSpacing font ->
   hitTest font margins (Some file) pixel = Ok (mkLoc 0 0))
  /\ (m_top margins + lineCount file * lineSpacing font <= py pixel ->
      hitTest font margins (Some file) pixel = Ok (mkLoc (lineCount file) 0))
  /\ (m_top margins <= py pixel
        < m_top margins + lineCount file * lineSpacing font ->
      let l := (py pixel - m_top margins) / lineSpacing font in
      0 <= l < lineCount file
      /\ (endsWithHighSurrogate (lineContent file l) = false ->
          exists chars,
            layoutChars (S (length (lineContent file l)))
              (LineLayout_new font margins file l) = Ok chars
            /\ hitTest font margins (Some file) pixel
               = Ok (mkLoc l match find (rightOf (px pixel)) chars with
                             | Some st => charColumn st
                             | None => lineLength file l
                             end)
            /\ (m_left margins <= px pixel ->
                find (rightOf (px pixel)) chars
                = find (spanContains (px pixel)) chars)))
  /\ (let file5 := fileOfLines [qstr "a"; qstr "b"; qstr "c"; qstr "d"; qstr "e"] in
      hitTest monoFont viewMargins (Some file5) (mkPoint 10 1000) = Ok (mkLoc 5 0)
      /\ hitTest monoFont viewMargins (Some file5) (mkPoint 10 (-100))
         = Ok (mkLoc 0 0)).
Proof.
  destruct Hfont as (Htw & Hsp & Hs). destruct Hwf as [Hcount Hlen].
  split.
  { intros Hy. unfold hitTest.
    destruct (Z.eqb_spec (lineSpacing font) 0); [lia|].
    pose proof (quot_line_above _ _ _ Hs Hy) as Hneg.
    destruct (Z.ltb_spec ((py pixel - m_top margins) ÷ lineSpacing font) 0);
      [reflexivity | lia]. }
  split.
  { intros Hy. unfold hitTest.
    destruct (Z.eqb_spec (lineSpacing font) 0); [lia|].
    pose proof (quot_line_below _ _ _ _ Hs Hcount Hy) as Hge.
    destruct (Z.ltb_spec ((py pixel - m_top margins) ÷ lineSpacing font) 0);
      [lia|].
    destruct (Z.geb_spec ((py pixel - m_top margins) ÷ lineSpacing font)
                (lineCount file)); [reflexivity | lia]. }
  split.
  { intros Hy l.
    destruct (quot_line_inside _ _ _ _ Hs Hy) as [Hq Hl]. fold l in Hq, Hl.
    split; [exact Hl|].
    intros Hend.
    destruct (layoutChars_ok (S (length (lineContent file l)))
                (LineLayout_new font margins file l)) as [chars Hrun].
    - apply LineLayout_new_inv; [repeat split; assumption | exact Hend].
    - unfold nextCharIndex, size, LineLayout_new.
      cbn [m_charIndex m_charIsSurrogatePair m_lineContent]. lia.
    - exists chars. split; [exact Hrun|]. split.
      + rewrite (hitTest_on_line font margins file pixel l Hs Hq Hl).
        apply hitTestLoop_find. exact Hrun.
      + intros Hx.
        apply (find_rightOf_spanContains _ _ _ _ Hrun).
        * apply LineLayout_new_metricInv. repeat split; assumption.
        * cbn. lia. }
  split; reflexivity.
Qed.

Lemma hitTest_clamping_witness :
  hitTest monoFont viewMargins (Some (fileOfLines [qstr "ab"; qstr "cd"]))
    (mkPoint 12 30) = Ok (mkLoc 2 0)
  /\ exists chars,
       layoutChars 3
         (LineLayout_new monoFont viewMargins
            (fileOfLines [qstr "ab"; qstr "cd"]) 1) = Ok chars
       /\ hitTest monoFont viewMargins
            (Some (fileOfLines [qstr "ab"; qstr "cd"])) (mkPoint 12 20)
          = Ok (mkLoc 1 match find (rightOf 12) chars with
                        | Some st => charColumn st
                        | None => 2
                        end).
Proof.
  split.
  - apply (hitTest_clamping monoFont viewMargins
             (fileOfLines [qstr "ab"; qstr "cd"]) (mkPoint 12 30)
             monoFont_ok (fileOfLines_wf _)).
    + vm_compute. split; discriminate.
    + vm_compute. discriminate.
  - destruct (hitTest_clamping monoFont viewMargins
                (fileOfLines [qstr "ab"; qstr "cd"]) (mkPoint 12 20)
                monoFont_ok (fileOfLines_wf _))
      as (_ & _ & Hin & _); [vm_compute; split; discriminate|].
    destruct Hin as (_ & Hline); [vm_compute; split; [discriminate | reflexivity]|].
    destruct (Hline eq_refl) as (chars & Hwalk & Hhit & _).
    exists chars. split; [exact Hwalk | exact Hhit].
Defined.

(** C4 as the specification words it fails.  On the one-line file "ab" with 7-pixel
    characters and 4-pixel margins, the pixel (0, 4) lies in line 0 and left
    of every character, no span contains its x, and [hitTest] returns
    column 0, not the column one past the last character; the pixel
    (12, 3) lies one pixel above the first line and [hitTest] returns
    (0, 1), not (0, 0). *)
Lemma hitTest_not_span_or_end :
  let file := fileOfLines [qstr "ab"] in
  let lay0 := LineLayout_new monoFont viewMargins file 0 in
  exists chars,
    layoutChars 3 lay0 = Ok chars
    /\ map (fun st => (charColumn st, charLeft st, charWidth st)) chars
       = [(0, 4, 7); (1, 11, 7)]
    /\ find (spanContains 0) chars = None
    /\ hitTest monoFont viewMargins (Some file) (mkPoint 0 4) = Ok (mkLoc 0 0)
    /\ mkLoc 0 0 <> mkLoc 0 (lineLength file 0)
    /\ 3 < lineTop monoFont viewMargins 0
    /\ hitTest monoFont viewMargins (Some file) (mkPoint 12 3) = Ok (mkLoc 0 1)
    /\ mkLoc 0 1 <> mkLoc 0 0.
Proof.
  eexists. split; [reflexivity|]. split; [reflexivity|].
  split; [reflexivity|]. split; [reflexivity|]. split; [discriminate|].
  split; [reflexivity|]. split; [reflexivity | discriminate].
Qed.

(** ** Location to pixel and back *)

(** The right edge of the current character, in pixels of the widget. *)
Lemma locationToPointLoop_lower (top : Z) (loc : FileLocation) (fuel : nat) :
  forall lay p, locationToPointLoop fuel top loc lay = Ok p ->
  metricInv lay ->
  m_lineLeftMargin lay + (m_charLeft lay + m_charWidth lay) <= px p
  /\ py p = top.
Proof.
  induction fuel as [|fuel IH]; intros lay p Hrun Hinv; [discriminate|].
  cbn [locationToPointLoop] in Hrun.
  destruct (hasMoreChars lay).
  - destruct (advanceChar lay) as [lay'|e] eqn:Hadv;
      cbn [mbind result_bind] in Hrun; [|discriminate].
    pose proof (advanceChar_metric _ _ Hadv Hinv) as Hinv'.
    pose proof (advanceChar_frame _ _ Hadv) as (_ & Hm & _ & _ & _ & _ & HL).
    destruct (charColumn lay' =? column loc).
    + injection Hrun as <-. unfold charLeft. cbn. lia.
    + destruct (IH _ _ Hrun Hinv') as [H1 H2].
      destruct Hinv' as (_ & HW' & _). lia.
  - injection Hrun as <-. unfold charLeft, charWidth. cbn. lia.
Qed.

(** The location of the next character, or of the end of the line when
    there is none, maps to the right edge of the current character. *)
Lemma locationToPointLoop_next (top : Z) (loc : FileLocation) (fuel : nat)
  (lay : LineLayout) :
  cursorInv lay -> column loc = nextCharIndex lay ->
  locationToPointLoop (S fuel) top loc lay
  = Ok (mkPoint (m_lineLeftMargin lay + (m_charLeft lay + m_charWidth lay)) top).
Proof.
  intros Hinv Hcol. cbn [locationToPointLoop].
  destruct (hasMoreChars lay) eqn:Hmore.
  - destruct (advanceChar_ok lay Hinv Hmore) as (lay' & Hadv & _).
    rewrite Hadv. cbn [mbind result_bind].
    pose proof (advanceChar_frame _ _ Hadv) as (_ & Hm & _ & _ & _ & Hi & HL).
    unfold charColumn. rewrite Hi, Hcol, Z.eqb_refl.
    unfold charLeft. rewrite Hm, HL. reflexivity.
  - unfold charLeft, charWidth. f_equal. f_equal. lia.
Qed.

Lemma locationToPointLoop_ok (top : Z) (loc : FileLocation) (fuel : nat) :
  forall lay, cursorInv lay ->
  (Z.to_nat (size (m_lineContent lay) - nextCharIndex lay) < fuel)%nat ->
  exists x, locationToPointLoop fuel top loc lay = Ok (mkPoint x top).
Proof.
  induction fuel as [|fuel IH]; intros lay Hinv Hfuel; [lia|].
  cbn [locationToPointLoop]. destruct (hasMoreChars lay) eqn:Hmore; [|eauto].
  destruct (advanceChar_ok lay Hinv Hmore) as (lay' & Hadv & Hinv').
  rewrite Hadv. cbn [mbind result_bind].
  destruct (charColumn lay' =? column loc); [eauto|].
  pose proof (advanceChar_frame _ _ Hadv) as (Hc & _ & _ & _ & _ & Hi & _).
  apply hasMoreChars_true in Hmore.
  pose proof (nextCharIndex_bounds lay').
  apply IH; [exact Hinv' | rewrite Hc; lia].
Qed.

(** From any cursor: a pixel that [locationToPointLoop] can return is sent
    by [hitTestLoop] to a column that [locationToPointLoop] sends back to
    the same pixel. *)
Lemma round_trip_loop (file : File) (l top y : Z) (fuel : nat) :
  forall lay, cursorInv lay ->
  (Z.to_nat (size (m_lineContent lay) - nextCharIndex lay) < fuel)%nat ->
  lineLength file l = size (m_lineContent lay) ->
  forall x,
    (exists loc, locationToPointLoop fuel top loc lay = Ok (mkPoint x top)) ->
    m_lineLeftMargin lay + (m_charLeft lay + m_charWidth lay) <= x ->
    exists c,
      hitTestLoop fuel file l (mkPoint x y) lay = Ok (mkLoc l c)
      /\ m_charIndex lay < c
      /\ forall loc', column loc' = c ->
           locationToPointLoop fuel top loc' lay = Ok (mkPoint x top).
Proof.
  induction fuel as [|fuel IH]; intros lay Hinv Hfuel Hlen x [loc Hloc] Hx;
    [lia|].
  cbn [locationToPointLoop hitTestLoop] in *.
  destruct (hasMoreChars lay) eqn:Hmore.
  - destruct (advanceChar_ok lay Hinv Hmore) as (lay' & Hadv & Hinv').
    rewrite Hadv in *. cbn [mbind result_bind px] in *.
    pose proof (advanceChar_frame _ _ Hadv)
      as (Hc & Hm & _ & _ & _ & Hi & HL).
    pose proof (cursorInv_metricInv _ Hinv') as Hmet'.
    pose proof (nextCharIndex_bounds lay) as Hnext.
    pose proof (nextCharIndex_bounds lay') as Hnext'.
    apply hasMoreChars_true in Hmore.
    assert (Hfuel' : (Z.to_nat (size (m_lineContent lay') - nextCharIndex lay')
                      < fuel)%nat) by (rewrite Hc; lia).
    destruct (Z.ltb_spec x (charLeft lay' + charWidth lay')) as [Hhit|Hmiss].
    + (* the pixel is in front of the right edge of this character *)
      exists (charColumn lay'). split; [reflexivity|].
      split; [unfold charColumn; lia|].
      intros loc' Hcol'. rewrite Hcol', Z.eqb_refl.
      destruct (Z.eqb_spec (charColumn lay') (column loc)) as [_|_].
      * exact Hloc.
      * destruct (locationToPointLoop_lower _ _ _ _ _ Hloc Hmet') as [Hlow _].
        cbn [px] in Hlow. unfold charLeft, charWidth in Hhit. lia.
    + (* the walk goes on *)
      assert (Hreach : exists loc'',
                 locationToPointLoop fuel top loc'' lay' = Ok (mkPoint x top)).
      { destruct (Z.eqb_spec (charColumn lay') (column loc)) as [_|_];
          [|eauto].
        injection Hloc as Hxeq.
        destruct fuel as [|fuel']; [lia|].
        exists (mkLoc l (nextCharIndex lay')).
        rewrite (locationToPointLoop_next top (mkLoc l (nextCharIndex lay'))
                   fuel' lay' Hinv' eq_refl).
        f_equal. f_equal.
        destruct Hmet' as (_ & HW' & _).
        unfold charLeft, charWidth in *. lia. }
      destruct (IH lay' Hinv' Hfuel' ltac:(congruence) x Hreach)
        as (c & Hhit' & Hc' & Hback).
      { unfold charLeft, charWidth in Hmiss. lia. }
      exists c. split; [exact Hhit'|]. split; [lia|].
      intros loc' Hcol'.
      destruct (Z.eqb_spec (charColumn lay') (column loc')) as [Heq|_].
      * unfold charColumn in Heq. lia.
      * apply Hback. exact Hcol'.
  - injection Hloc as Hxeq.
    exists (lineLength file l). split; [reflexivity|].
    split; [destruct Hinv as (Hidx & _); lia|].
    intros loc' _. rewrite Hxeq. reflexivity.
Qed.

Lemma locationToPoint_on_line (font : QFont) (margins : QMargins)
  (file : File) (loc : FileLocation) :
  0 <= line loc < lineCount file ->
  locationToPoint font margins (Some file) loc
  = locationToPointLoop (S (length (lineContent file (line loc))))
      (lineTop font margins (line loc)) loc
      (LineLayout_new font margins file (line loc)).
Proof.
  intros Hl. unfold locationToPoint, isNull.
  destruct (Z.eqb_spec (line loc) (-1)); [lia|].
  destruct (Z.geb_spec (line loc) (lineCount file)); [lia|]. reflexivity.
Qed.

(** The round trip on one line of the file, for any column. *)
Lemma round_trip_on_line (font : QFont) (margins : QMargins) (file : File)
  (loc : FileLocation) :
  QFont_ok font -> File_wf file -> 0 <= line loc < lineCount file ->
  endsWithHighSurrogate (lineContent file (line loc)) = false ->
  exists p loc',
    locationToPoint font margins (Some file) loc = Ok p
    /\ hitTest font margins (Some file) p = Ok loc'
    /\ line loc' = line loc
    /\ locationToPoint font margins (Some file) loc' = Ok p.
Proof.
  intros Hfont [_ Hlen] Hl Hend.
  set (l := line loc) in *.
  set (lay0 := LineLayout_new font margins file l).
  set (top := lineTop font margins l).
  set (fuel := S (length (lineContent file l))).
  assert (Hinv : cursorInv lay0) by (apply LineLayout_new_inv; assumption).
  assert (Hfuel : (Z.to_nat (size (m_lineContent lay0) - nextCharIndex lay0)
                   < fuel)%nat).
  { subst lay0 fuel. unfold nextCharIndex, size, LineLayout_new.
    cbn [m_charIndex m_charIsSurrogatePair m_lineContent]. lia. }
  destruct (locationToPointLoop_ok top loc fuel lay0 Hinv Hfuel) as [x Hto].
  destruct (locationToPointLoop_lower _ _ _ _ _ Hto (cursorInv_metricInv _ Hinv))
    as [Hlow _]. cbn [px] in Hlow.
  destruct (round_trip_loop file l top top fuel lay0 Hinv Hfuel (Hlen l Hl) x
              (ex_intro _ loc Hto) Hlow) as (c & Hhit & _ & Hback).
  destruct Hfont as (_ & _ & Hs).
  exists (mkPoint x top), (mkLoc l c).
  split; [rewrite locationToPoint_on_line by exact Hl; exact Hto|].
  split.
  { rewrite (hitTest_on_line font margins file (mkPoint x top) l Hs);
      [exact Hhit | | exact Hl].
    cbn [py]. subst top. unfold lineTop.
    replace (lineSpacing font * l + m_top margins - m_top margins)
      with (l * lineSpacing font) by lia.
    apply Z.quot_mul. lia. }
  split; [reflexivity|].
  rewrite locationToPoint_on_line by exact Hl.
  apply Hback. reflexivity.
Qed.

(** C3 (the code at the failing input).  On the file whose only line is
    the lone high surrogate U+D83D the location (0, 0) points at a
    character, and [locationToPoint] of it, the first conversion of the
    round trip, is undefined: the walk advances onto the surrogate and
    reads [m_lineContent.at(1)] on a line of size 1.  No pixel comes back,
    so there is nothing to hit-test and to convert again. *)
Theorem round_trip_lone_high_surrogate (font : QFont) (margins : QMargins) :
  let file := fileOfLines [[0xD83D]] in
  File_wf file
  /\ doesPointAtChar (mkLoc 0 0) file = true
  /\ locationToPoint font margins (Some file) (mkLoc 0 0)
     = Fault IndexOutOfRange
  /\ forall p, locationToPoint font margins (Some file) (mkLoc 0 0) <> Ok p.
Proof.
  intros file. split; [apply fileOfLines_wf|].
  split; [reflexivity|]. split; [reflexivity|].
  intros p. discriminate.
Qed.

(** X21.  The round trip on the lines whose last code unit is not a high
    surrogate.
    For every location that points at a character of a line that does not
    end in a high surrogate, converting it to a pixel, hit-testing the
    pixel and converting the location found gives the same pixel again,
    and all three calls are defined.  The font reports no negative width
    and a positive space width and line spacing. *)
Theorem locationToPoint_hitTest_round_trip (font : QFont) (margins : QMargins)
  (file : File) (loc : FileLocation)
  (Hfont : QFont_ok font) (Hwf : File_wf file)
  (Hloc : doesPointAtChar loc file = true)
  (Hline : endsWithHighSurrogate (lineContent file (line loc)) = false) :
  exists p loc',
    locationToPoint font margins (Some file) loc = Ok p
    /\ hitTest font margins (Some file) p = Ok loc'
    /\ locationToPoint font margins (Some file) loc' = Ok p.
Proof.
  apply doesPointAtChar_true in Hloc as [Hl _].
  destruct (round_trip_on_line font margins file loc Hfont Hwf Hl Hline)
    as (p & loc' & H1 & H2 & _ & H3).
  exists p, loc'. auto.
Qed.

Lemma locationToPoint_hitTest_round_trip_witness :
  exists p loc',
    locationToPoint monoFont viewMargins
      (Some (fileOfLines [qstr "int foo_bar;"; [9; 120]])) (mkLoc 1 1) = Ok p
    /\ hitTest monoFont viewMargins
         (Some (fileOfLines [qstr "int foo_bar;"; [9; 120]])) p = Ok loc'
    /\ locationToPoint monoFont viewMargins
         (Some (fileOfLines [qstr "int foo_bar;"; [9; 120]])) loc' = Ok p.
Proof.
  apply (locationToPoint_hitTest_round_trip monoFont viewMargins
           (fileOfLines [qstr "int foo_bar;"; [9; 120]]) (mkLoc 1 1)
           monoFont_ok (fileOfLines_wf _)).
  - reflexivity.
  - reflexivity.
Defined.

(** ** The colour overlay *)

Lemma vector_set_ok {A} (v : list A) (i : Z) (x : A) :
  0 <= i < Z.of_nat (length v) ->
  vector_set v i x = Ok (<[Z.to_nat i := x]> v).
Proof.
  intros Hi. unfold vector_set.
  destruct (Z.ltb_spec i 0); [lia|].
  destruct (Z.leb_spec (Z.of_nat (length v)) i); [lia|]. reflexivity.
Qed.

Lemma colorLexed_app (kinds : list Kind) :
  forall (pre rest : list GlobalColor),
    (length kinds <= length rest)%nat ->
    colorLexed kinds (Z.of_nat (length pre)) (pre ++ rest)
    = Ok (pre ++ map colorForSyntaxKind kinds ++ drop (length kinds) rest).
Proof.
  induction kinds as [|k kinds IH]; intros pre rest Hlen.
  - cbn. rewrite drop_0. reflexivity.
  - destruct rest as [|r rest]; [cbn in Hlen; lia|].
    cbn [colorLexed]. rewrite vector_set_ok
      by (rewrite length_app; cbn [length]; lia).
    cbn [mbind result_bind]. rewrite Nat2Z.id.
    rewrite insert_app_r_alt by lia. rewrite Nat.sub_diag.
    cbn [insert list_insert].
    replace (Z.of_nat (length pre) + 1)
      with (Z.of_nat (length (pre ++ [colorForSyntaxKind k])))
      by (rewrite length_app; cbn [length]; lia).
    replace (pre ++ colorForSyntaxKind k :: rest)
      with ((pre ++ [colorForSyntaxKind k]) ++ rest)
      by (rewrite <- app_assoc; reflexivity).
    rewrite IH by (cbn in Hlen; lia).
    rewrite <- app_assoc. reflexivity.
Qed.

Lemma colorSpan_spec (color : GlobalColor) (offset : Z) (n : nat) :
  forall (i : Z) (coloring : list GlobalColor),
    ((0 < n)%nat ->
     0 <= offset + i
     /\ offset + i + Z.of_nat n <= Z.of_nat (length coloring)) ->
    exists coloring',
      colorSpan n offset i color coloring = Ok coloring'
      /\ length coloring' = length coloring
      /\ forall j : nat,
           coloring' !! j
           = if (offset + i <=? Z.of_nat j) && (Z.of_nat j <? offset + i + Z.of_nat n)
             then (fun _ => color) <$> coloring !! j
             else coloring !! j.
Proof.
  induction n as [|n IH]; intros i coloring Hrange.
  - exists coloring. split; [reflexivity|]. split; [reflexivity|].
    intros j. destruct (Z.leb_spec (offset + i) (Z.of_nat j));
      destruct (Z.ltb_spec (Z.of_nat j) (offset + i + Z.of_nat 0));
      cbn [andb]; try reflexivity; lia.
  - destruct (Hrange ltac:(lia)) as [Hlo Hhi].
    cbn [colorSpan]. rewrite vector_set_ok by lia. cbn [mbind result_bind].
    destruct (IH (i + 1) (<[Z.to_nat (offset + i) := color]> coloring))
      as (coloring' & Hrun & Hlen & Hget).
    { intros Hn. rewrite length_insert. lia. }
    exists coloring'. split; [exact Hrun|].
    split; [rewrite Hlen; apply length_insert|].
    intros j. rewrite Hget.
    destruct (Nat.eq_dec j (Z.to_nat (offset + i))) as [->|Hne].
    + rewrite list_lookup_insert_eq by lia.
      destruct (coloring !! Z.to_nat (offset + i)) as [c|] eqn:Hc.
      * destruct (Z.leb_spec (offset + (i + 1)) (Z.of_nat (Z.to_nat (offset + i))));
          destruct (Z.ltb_spec (Z.of_nat (Z.to_nat (offset + i)))
                      (offset + (i + 1) + Z.of_nat n));
          destruct (Z.leb_spec (offset + i) (Z.of_nat (Z.to_nat (offset + i))));
          destruct (Z.ltb_spec (Z.of_nat (Z.to_nat (offset + i)))
                      (offset + i + Z.of_nat (S n)));
          cbn [andb fmap option_fmap option_map]; try reflexivity; lia.
      * apply lookup_ge_None in Hc. lia.
    + rewrite list_lookup_insert_ne by lia.
      destruct (Z.leb_spec (offset + (i + 1)) (Z.of_nat j));
        destruct (Z.ltb_spec (Z.of_nat j) (offset + (i + 1) + Z.of_nat n));
        destruct (Z.leb_spec (offset + i) (Z.of_nat j));
        destruct (Z.ltb_spec (Z.of_nat j) (offset + i + Z.of_nat (S n)));
        cbn [andb]; try reflexivity; lia.
Qed.

Section Overlay.
Variable project : Project.
Variable colorForRef : gmap N GlobalColor.
Variable file : File.

Lemma colorRef_spec (coloring : list GlobalColor) (ref : Ref) :
  (refColored project colorForRef ref = true ->
   refInRange file (Z.of_nat (length coloring)) ref) ->
  exists coloring',
    colorRef project colorForRef file coloring ref = Ok coloring'
    /\ length coloring' = length coloring
    /\ forall j : nat,
         coloring' !! j
         = (fun c => overlayStep project colorForRef file (Z.of_nat j) c ref)
             <$> coloring !! j.
Proof.
  intros Hrange. unfold colorRef, overlayStep, refColored in *.
  destruct (decide (ColorForRef_color project colorForRef ref <> transparent))
    as [Hcol|Hcol].
  - rewrite bool_decide_eq_true_2 in * by exact Hcol.
    destruct (Hrange eq_refl) as [Hlo Hhi].
    destruct (colorSpan_spec (ColorForRef_color project colorForRef ref)
                (lineStart file (ref_line ref - 1))
                (Z.to_nat (ref_endColumn ref - 1 - (ref_column ref - 1)))
                (ref_column ref - 1) coloring)
      as (coloring' & Hrun & Hlen & Hget); [lia|].
    exists coloring'. split; [exact Hrun|]. split; [exact Hlen|].
    intros j. rewrite Hget. unfold refCovers. cbn [andb].
    destruct (Z.leb_spec (lineStart file (ref_line ref - 1) + (ref_column ref - 1))
                (Z.of_nat j)); cbn [andb];
      [|destruct (coloring !! j); reflexivity].
    destruct (Z.ltb_spec (Z.of_nat j)
                (lineStart file (ref_line ref - 1) + (ref_column ref - 1)
                 + Z.of_nat (Z.to_nat (ref_endColumn ref - 1 - (ref_column ref - 1)))));
      destruct (Z.ltb_spec (Z.of_nat j)
                  (lineStart file (ref_line ref - 1) + (ref_endColumn ref - 1)));
      try lia; destruct (coloring !! j); reflexivity.
  - rewrite bool_decide_eq_false_2 by exact Hcol. cbn [andb].
    exists coloring. split; [reflexivity|]. split; [reflexivity|].
    intros j. destruct (coloring !! j); reflexivity.
Qed.

Lemma colorRefs_spec (refs : list Ref) :
  forall coloring : list GlobalColor,
    Forall (fun ref => refColored project colorForRef ref = true ->
                       refInRange file (Z.of_nat (length coloring)) ref) refs ->
    exists coloring',
      colorRefs project colorForRef file refs coloring = Ok coloring'
      /\ length coloring' = length coloring
      /\ forall j : nat,
           coloring' !! j
           = overlayColor project colorForRef file refs (Z.of_nat j)
               <$> coloring !! j.
Proof.
  induction refs as [|ref refs IH]; intros coloring Hall.
  - exists coloring. split; [reflexivity|]. split; [reflexivity|].
    intros j. destruct (coloring !! j); reflexivity.
  - apply Forall_cons in Hall as [Href Hall].
    destruct (colorRef_spec coloring ref Href) as (c1 & Hrun1 & Hlen1 & Hget1).
    cbn [colorRefs]. rewrite Hrun1. cbn [mbind result_bind].
    destruct (IH c1) as (c2 & Hrun2 & Hlen2 & Hget2);
      [rewrite Hlen1; exact Hall|].
    exists c2. split; [exact Hrun2|]. split; [congruence|].
    intros j. rewrite Hget2, Hget1.
    destruct (coloring !! j); reflexivity.
Qed.

(** Either no coloured reference covers the offset and the colour stays,
    or the colour is that of a coloured reference that covers it. *)
Lemma overlayColor_cases (o : Z) (refs : list Ref) :
  forall c : GlobalColor,
    (Forall (fun ref => refColored project colorForRef ref
                        && refCovers file ref o = false) refs
     /\ overlayColor project colorForRef file refs o c = c)
    \/ (exists ref, ref ∈ refs
          /\ refColored project colorForRef ref = true
          /\ refCovers file ref o = true
          /\ overlayColor project colorForRef file refs o c
             = ColorForRef_color project colorForRef ref).
Proof.
  induction refs as [|ref refs IH]; intros c.
  - left. split; [constructor | reflexivity].
  - unfold overlayColor. cbn [foldl].
    fold (overlayColor project colorForRef file refs o
            (overlayStep project colorForRef file o c ref)).
    destruct (IH (overlayStep project colorForRef file o c ref))
      as [[Hnone Heq]|(r & Hin & Hc & Hcov & Heq)].
    + unfold overlayStep in Heq |- *.
      destruct (refColored project colorForRef ref && refCovers file ref o)
        eqn:Hq.
      * right. exists ref. apply andb_true_iff in Hq as [Hq1 Hq2].
        split; [apply list_elem_of_here|]. auto.
      * left. split; [constructor; assumption | exact Heq].
    + right. exists r. split; [apply list_elem_of_further; exact Hin|]. auto.
Qed.
End Overlay.

Lemma addMapping_lookup (project : Project) (symbolType : string)
  (color c : GlobalColor) (m : gmap N GlobalColor) (id : N) :
  addMapping project symbolType color m !! id = Some c ->
  c = color \/ m !! id = Some c.
Proof.
  unfold addMapping. case_decide; [|auto].
  rewrite lookup_insert. case_decide; [|auto].
  intros [= <-]. auto.
Qed.

Lemma ColorForRef_color_values (project : Project) (ref : Ref) :
  refColored project (ColorForRef_new project) ref = true ->
  ColorForRef_color project (ColorForRef_new project) ref
    ∈ [darkCyan; darkRed; darkMagenta].
Proof.
  unfold refColored, ColorForRef_color. intros Hcol.
  apply bool_decide_eq_true in Hcol.
  destruct (ColorForRef_new project !! querySymbolType project (ref_symbolID ref))
    as [c|] eqn:Hc; [|congruence].
  unfold ColorForRef_new in Hc.
  repeat (apply addMapping_lookup in Hc as [->|Hc];
          [repeat constructor|]).
  rewrite lookup_empty in Hc. discriminate.
Qed.

Lemma measureLoop_ok (data : list Z) (T : Z) (n : nat) :
  T <> 0 ->
  forall i pos, 0 <= i -> i + Z.of_nat n <= size data ->
  exists r, measureLoop n data i T pos = Ok r.
Proof.
  intros HT. induction n as [|n IH]; intros i pos Hi Hn; [cbn; eauto|].
  cbn [measureLoop].
  destruct (QString_at_Ok data i) as [ch Hch]; [lia|].
  rewrite Hch. cbn [mbind result_bind].
  destruct (ch =? 9).
  - destruct (Z.eqb_spec T 0); [contradiction|]. apply IH; lia.
  - apply IH; lia.
Qed.

Lemma measureLines_ok (file : File) (n : nat) :
  File_lines_in_content file ->
  forall i maxLength, 0 <= i -> i + Z.of_nat n <= lineCount file ->
  exists r, measureLines n file i maxLength = Ok r.
Proof.
  intros Hfile. induction n as [|n IH]; intros i maxLength Hi Hn;
    [cbn; eauto|].
  cbn [measureLines]. unfold measureLineLength.
  destruct (Hfile i ltac:(lia)) as (Hs & Hl & Hend).
  destruct (measureLoop_ok (content file) kTabStopSize
              (Z.to_nat (lineLength file i)) ltac:(discriminate)
              (lineStart file i) 0 Hs ltac:(lia)) as [len Hlen].
  rewrite Hlen. cbn [mbind result_bind]. apply IH; lia.
Qed.

(** C6.  After [setFile] the colour vector has one entry per code unit of
    the content.  The entry of an offset is its lexical colour (the fixed
    table applied to the kind) overwritten by every reference, in the order
    of enumeration, whose symbol type has a colour and whose span covers
    the offset: without such a reference the lexical colour stays, and with
    one the entry is the colour of such a reference, one of darkCyan,
    darkRed and darkMagenta, so a keyword (darkYellow) that a coloured
    reference covers does not keep its lexical colour. *)
Theorem setFile_color_overlay (highlight : list Z -> list Kind)
  (v : SourceWidgetView) (f : File)
  (Hkinds : length (highlight (content f)) = length (content f))
  (Hrefs : Forall (fun ref =>
              refColored (m_project v) (ColorForRef_new (m_project v)) ref = true ->
              refInRange f (size (content f)) ref)
             (queryFileRefs (m_project v) f))
  (Hlines : File_lines_in_content f) :
  let project := m_project v in
  let table := ColorForRef_new project in
  let refs := queryFileRefs project f in
  exists v',
    setFile highlight v (Some f) = Ok v'
    /\ length (m_syntaxColoring v') = length (content f)
    /\ (forall (o : nat) k, highlight (content f) !! o = Some k ->
          m_syntaxColoring v' !! o
          = Some (overlayColor project table f refs (Z.of_nat o)
                    (colorForSyntaxKind k))
          /\ ((forall ref, ref ∈ refs -> refColored project table ref = true ->
                 refCovers f ref (Z.of_nat o) = false) ->
              m_syntaxColoring v' !! o = Some (colorForSyntaxKind k))
          /\ ((exists ref, ref ∈ refs /\ refColored project table ref = true
                 /\ refCovers f ref (Z.of_nat o) = true) ->
              exists ref, ref ∈ refs /\ refColored project table ref = true
                /\ refCovers f ref (Z.of_nat o) = true
                /\ m_syntaxColoring v' !! o
                   = Some (ColorForRef_color project table ref)
                /\ ColorForRef_color project table ref
                     ∈ [darkCyan; darkRed; darkMagenta]
                /\ ColorForRef_color project table ref
                   <> colorForSyntaxKind KindKeyword))
    /\ map colorForSyntaxKind
         [KindComment; KindQuoted; KindNumber; KindDirective; KindKeyword;
          KindDefault]
       = [darkGreen; darkGreen; darkBlue; darkBlue; darkYellow; black].
Proof.
  intros project table refs.
  unfold setFile. fold project table refs.
  set (resized := resize (length (content f)) color0 (m_syntaxColoring v)).
  assert (Hres : length resized = length (content f))
    by apply length_resize.
  pose proof (colorLexed_app (highlight (content f)) [] resized ltac:(lia))
    as Hlex.
  cbn [length app] in Hlex. change (Z.of_nat 0) with 0 in Hlex.
  rewrite Hlex. cbn [mbind result_bind].
  rewrite (drop_ge resized) by lia. rewrite app_nil_r.
  set (lexed := map colorForSyntaxKind (highlight (content f))).
  assert (Hlexed : length lexed = length (content f))
    by (subst lexed; rewrite length_map; exact Hkinds).
  destruct (colorRefs_spec project table f refs lexed)
    as (colored & Hrun & Hlen & Hget).
  { rewrite Hlexed. exact Hrefs. }
  rewrite Hrun. cbn [mbind result_bind].
  assert (exists maxLength,
            measureLines (Z.to_nat (lineCount f)) f 0 0 = Ok maxLength)
    as [maxLength Hmax].
  { destruct (Z.le_gt_cases 0 (lineCount f)) as [Hc|Hc].
    - apply measureLines_ok; [exact Hlines | lia | lia].
    - replace (Z.to_nat (lineCount f)) with 0%nat by lia. cbn. eauto. }
  rewrite Hmax. cbn [mbind result_bind].
  eexists. split; [reflexivity|]. cbn [m_syntaxColoring].
  split; [congruence|]. split; [|reflexivity].
  intros o k Hk.
  assert (Hentry : colored !! o
                   = Some (overlayColor project table f refs (Z.of_nat o)
                             (colorForSyntaxKind k))).
  { rewrite Hget. subst lexed. rewrite list_lookup_fmap, Hk. reflexivity. }
  split; [exact Hentry|].
  destruct (overlayColor_cases project table f (Z.of_nat o) refs
              (colorForSyntaxKind k))
    as [[Hnone Heq]|(r & Hin & Hc & Hcov & Heq)].
  - split.
    + intros _. rewrite Hentry, Heq. reflexivity.
    + intros (r & Hin & Hc & Hcov). exfalso.
      rewrite Forall_forall in Hnone. specialize (Hnone r Hin).
      rewrite Hc, Hcov in Hnone. discriminate.
  - split.
    + intros Hno. rewrite (Hno r Hin Hc) in Hcov. discriminate.
    + intros _. exists r.
      pose proof (ColorForRef_color_values project r Hc) as Hval.
      fold table in Hval.
      split; [exact Hin|]. split; [exact Hc|]. split; [exact Hcov|].
      split; [rewrite Hentry, Heq; reflexivity|]. split; [exact Hval|].
      intros Heqk. rewrite Heqk in Hval. cbn in Hval.
      repeat (apply elem_of_cons in Hval as [Hval|Hval]; [discriminate|]).
      apply elem_of_nil in Hval. exact Hval.
Qed.

Example setFile_sample_colors :
  m_syntaxColoring <$>
    (match setFile sampleHighlight sampleView (Some sampleFile) with
     | Ok v' => Some v'
     | Fault _ => None
     end)
  = Some [darkMagenta; darkMagenta; darkMagenta; black; black; black; black].
Proof. vm_compute. reflexivity. Qed.

Lemma setFile_color_overlay_witness :
  exists v',
    setFile sampleHighlight sampleView (Some sampleFile) = Ok v'
    /\ length (m_syntaxColoring v') = length (content sampleFile).
Proof.
  assert (Hrefs : Forall (fun ref =>
            refColored sampleProject (ColorForRef_new sampleProject) ref = true ->
            refInRange sampleFile (size (content sampleFile)) ref)
           (queryFileRefs sampleProject sampleFile)).
  { apply Forall_cons_2; [intros _; vm_compute; split; discriminate|].
    apply Forall_cons_2; [intros _; vm_compute; split; discriminate|].
    apply Forall_nil_2. }
  assert (Hlines : File_lines_in_content sampleFile).
  { intros l Hl. assert (l = 0) as -> by (change (0 <= l < 1) in Hl; lia).
    vm_compute. repeat split; discriminate. }
  destruct (setFile_color_overlay sampleHighlight sampleView sampleFile
              eq_refl Hrefs Hlines) as (v' & Hrun & Hlen & _).
  exists v'. split; assumption.
Defined.

(** ** Clicks and context menus *)

Lemma isEmpty_null : isEmpty FileRange_null = true.
Proof. reflexivity. Qed.

(** C9 (as the code has it).  Releasing the mouse never opens a menu.  It
    navigates only when the pointer is still on the selected identifier and
    the index reports exactly one symbol for it, and then to the single
    definition of that symbol; with no symbol or with several symbols on the
    identifier it only repaints.  The context-menu event never navigates;
    on a selected identifier it opens a menu that lists every symbol the
    index reports, or "No symbols found". *)
Theorem mouseReleaseEvent_navigation (v : SourceWidgetView) (pos : QPoint)
  (v' : SourceWidgetView) (actions : list UiAction)
  (Hrun : mouseReleaseEvent v pos = Ok (v', actions)) :
  (forall items, MenuExec items ∉ actions)
  /\ (forall ref, NavigateToRef ref ∈ actions ->
        exists symbol,
          symbolsAtSelection v = [symbol]
          /\ ref = findSingleDefinitionOfSymbol (m_project v) symbol
          /\ isEmpty (m_selection v) = false)
  /\ (isEmpty (m_selection v) = false ->
      (exists word,
         findWordAtPoint (font v) (m_margins v) (m_file v) pos = Ok word
         /\ range_eqb (m_selection v) word = true) ->
      match symbolsAtSelection v with
      | [symbol] =>
          actions = [Update; NavigateToRef
                               (findSingleDefinitionOfSymbol (m_project v) symbol)]
      | _ => actions = [Update]
      end)
  /\ (forall backEnabled forwardEnabled v2 actions2,
        contextMenuEvent v pos backEnabled forwardEnabled = Ok (v2, actions2) ->
        (forall ref, NavigateToRef ref ∉ actions2)
        /\ (isEmpty (m_selection v2) = false ->
            actions2
            = [MenuExec match symbolsAtSelection v2 with
                        | [] => [MenuAction "No symbols found" false false NoTarget]
                        | _ => concat (map symbolMenuItems (symbolsAtSelection v2))
                        end;
               Update])).
Proof.
  unfold symbolsAtSelection.
  assert (Hcases :
    (isEmpty (m_selection v) = true /\ actions = [])
    \/ (isEmpty (m_selection v) = false
        /\ exists word,
             findWordAtPoint (font v) (m_margins v) (m_file v) pos = Ok word
             /\ ((range_eqb (m_selection v) word = false /\ actions = [Update])
                 \/ (range_eqb (m_selection v) word = true
                     /\ match querySymbolsAtLocation (m_project v) (m_file v)
                                (line (start (m_selection v)) + 1)
                                (column (start (m_selection v)) + 1) with
                        | [symbol] =>
                            actions
                            = [Update;
                               NavigateToRef
                                 (findSingleDefinitionOfSymbol (m_project v) symbol)]
                        | _ => actions = [Update]
                        end)))).
  { unfold mouseReleaseEvent in Hrun.
    destruct (isEmpty (m_selection v)) eqn:Hsel; cbn [negb] in Hrun.
    - left. injection Hrun as _ <-. auto.
    - right. split; [reflexivity|].
      destruct (findWordAtPoint (font v) (m_margins v) (m_file v) pos)
        as [word|e]; cbn [mbind result_bind] in Hrun; [|discriminate].
      exists word. split; [reflexivity|].
      destruct (range_eqb (m_selection v) word).
      + right. split; [reflexivity|]. rewrite Hsel in Hrun. cbn [negb] in Hrun.
        destruct (querySymbolsAtLocation (m_project v) (m_file v)
                    (line (start (m_selection v)) + 1)
                    (column (start (m_selection v)) + 1)) as [|s1 [|s2 rest]];
          injection Hrun as _ <-; reflexivity.
      + left. split; [reflexivity|]. rewrite isEmpty_null in Hrun.
        cbn [negb] in Hrun. injection Hrun as _ <-. reflexivity. }
  split.
  { intros items Hin.
    destruct Hcases as [[_ ->]|(_ & word & _ & [[_ ->]|[_ Hact]])].
    - apply elem_of_nil in Hin. exact Hin.
    - apply elem_of_cons in Hin as [Hin|Hin]; [discriminate|].
      apply elem_of_nil in Hin. exact Hin.
    - destruct (querySymbolsAtLocation _ _ _ _) as [|s1 [|s2 rest]]; subst actions;
        repeat (apply elem_of_cons in Hin as [Hin|Hin]; [discriminate|]);
        apply elem_of_nil in Hin; exact Hin. }
  split.
  { intros ref Hin.
    destruct Hcases as [[_ ->]|(Hsel & word & _ & [[_ ->]|[_ Hact]])].
    - apply elem_of_nil in Hin. contradiction.
    - apply elem_of_cons in Hin as [Hin|Hin]; [discriminate|].
      apply elem_of_nil in Hin. contradiction.
    - destruct (querySymbolsAtLocation _ _ _ _) as [|s1 [|s2 rest]]; subst actions.
      + apply elem_of_cons in Hin as [Hin|Hin]; [discriminate|].
        apply elem_of_nil in Hin. contradiction.
      + apply elem_of_cons in Hin as [Hin|Hin]; [discriminate|].
        apply elem_of_cons in Hin as [Hin|Hin];
          [|apply elem_of_nil in Hin; contradiction].
        injection Hin as ->. exists s1. auto.
      + apply elem_of_cons in Hin as [Hin|Hin]; [discriminate|].
        apply elem_of_nil in Hin. contradiction. }
  split.
  { intros Hsel (word & Hword & Heq).
    destruct Hcases as [[Hsel' _]|(_ & word' & Hword' & [[Hne _]|[_ Hact]])].
    - congruence.
    - rewrite Hword in Hword'. injection Hword' as <-. congruence.
    - exact Hact. }
  intros backEnabled forwardEnabled v2 actions2 Hctx.
  unfold contextMenuEvent in Hctx.
  destruct (if negb (isEmpty (m_selection v))
            then
              findWordAtPoint (font v) (m_margins v) (m_file v) pos ≫=
              (fun word =>
                 if negb (range_eqb (m_selection v) word)
                 then Ok (setSelection v FileRange_null)
                 else Ok v)
            else Ok v) as [v1|e]; cbn [mbind result_bind] in Hctx;
    [|discriminate].
  destruct (isEmpty (m_selection v1)) eqn:Hsel1; injection Hctx as <- <-.
  - split; [|congruence].
    intros ref Hin.
    repeat (apply elem_of_cons in Hin as [Hin|Hin]; [discriminate|]).
    apply elem_of_nil in Hin. exact Hin.
  - split; [|reflexivity].
    intros ref Hin.
    repeat (apply elem_of_cons in Hin as [Hin|Hin]; [discriminate|]).
    apply elem_of_nil in Hin. exact Hin.
Qed.

Lemma mouseReleaseEvent_navigation_witness :
  exists symbol,
    symbolsAtSelection
      (setSelection sampleLoaded (mkRange (mkLoc 0 0) (mkLoc 0 3))) = [symbol]
    /\ findSingleDefinitionOfSymbol sampleProject "foo"
       = findSingleDefinitionOfSymbol sampleProject symbol
    /\ isEmpty (mkRange (mkLoc 0 0) (mkLoc 0 3)) = false.
Proof.
  assert (Hrun :
    mouseReleaseEvent
      (setSelection sampleLoaded (mkRange (mkLoc 0 0) (mkLoc 0 3))) (mkPoint 6 8)
    = Ok (setSelection sampleLoaded FileRange_null,
          [Update; NavigateToRef (findSingleDefinitionOfSymbol sampleProject "foo")]))
    by (vm_compute; reflexivity).
  destruct (mouseReleaseEvent_navigation _ _ _ _ Hrun) as (_ & Hnav & _).
  apply Hnav. apply list_elem_of_further, list_elem_of_here.
Defined.

(** C9 as the specification words it fails.  In the sample project the identifier
    "x" of the line "int x;" maps to two symbols.  Pressing the mouse on it
    selects it, and releasing the mouse there repaints and does nothing
    else: no menu is opened. *)
Lemma mouseReleaseEvent_no_menu_for_ambiguous_symbol :
  let v1 := setSelection sampleLoaded (mkRange (mkLoc 0 4) (mkLoc 0 5)) in
  let v2 := setSelection sampleLoaded FileRange_null in
  mousePressEvent sampleLoaded (mkPoint 33 8) = Ok (v1, [Update])
  /\ symbolsAtSelection v1 = ["x"%string; "ns::x"%string]
  /\ mouseReleaseEvent v1 (mkPoint 33 8) = Ok (v2, [Update])
  /\ forall items, MenuExec items ∉ [Update].
Proof.
  split; [vm_compute; reflexivity|]. split; [vm_compute; reflexivity|].
  split; [vm_compute; reflexivity|].
  intros items Hin. apply elem_of_cons in Hin as [Hin|Hin]; [discriminate|].
  apply elem_of_nil in Hin. exact Hin.
Qed.

(** * Further properties of the code *)

(** ** measureLineLength *)

Lemma measureLoop_bounds (T : Z) (n : nat) :
  1 <= T ->
  forall data i pos r, 0 <= pos ->
    measureLoop n data i T pos = Ok r ->
    pos + Z.of_nat n <= r <= pos + Z.of_nat n * T.
Proof.
  intros HT. induction n as [|n IH]; intros data i pos r Hpos Hrun.
  - cbn in Hrun. injection Hrun as <-. lia.
  - cbn [measureLoop] in Hrun.
    destruct (QString_at data i) as [ch|e]; cbn [mbind result_bind] in Hrun;
      [|discriminate].
    destruct (ch =? 9).
    + destruct (T =? 0); [discriminate|].
      destruct (tab_width_next_stop pos T Hpos ltac:(lia)) as [Hw _].
      apply IH in Hrun; [|lia]. nia.
    + apply IH in Hrun; [|lia]. nia.
Qed.

Lemma measureLoop_no_tabs (T : Z) (n : nat) :
  forall data i pos r,
    (forall j, i <= j < i + Z.of_nat n -> QString_at data j <> Ok 9) ->
    measureLoop n data i T pos = Ok r -> r = pos + Z.of_nat n.
Proof.
  induction n as [|n IH]; intros data i pos r Hnotab Hrun.
  - cbn in Hrun. injection Hrun as <-. lia.
  - cbn [measureLoop] in Hrun.
    destruct (QString_at data i) as [ch|e] eqn:Hch;
      cbn [mbind result_bind] in Hrun; [|discriminate].
    destruct (Z.eqb_spec ch 9) as [->|_].
    + exfalso. apply (Hnotab i); [lia | exact Hch].
    + apply IH in Hrun; [lia|]. intros j Hj. apply Hnotab. lia.
Qed.

(** X1.  On a segment that lies inside the text and for a tab-stop size of
    at least 1, [measureLineLength] is defined, its result lies between the
    number of code units of the segment and that number times the tab-stop
    size, and it is the number of code units when the segment has no
    tab. *)
Theorem measureLineLength_bounds (data : list Z) (start_ size_ T : Z)
  (HT : 1 <= T) (Hstart : 0 <= start_) (Hsize : 0 <= size_)
  (Hend : start_ + size_ <= size data) :
  exists r, measureLineLength data start_ size_ T = Ok r
    /\ size_ <= r <= size_ * T
    /\ ((forall j, start_ <= j < start_ + size_ -> QString_at data j <> Ok 9) ->
        r = size_).
Proof.
  unfold measureLineLength.
  destruct (measureLoop_ok data T (Z.to_nat size_) ltac:(lia) start_ 0 Hstart
              ltac:(lia)) as [r Hrun].
  exists r. split; [exact Hrun|]. split.
  - pose proof (measureLoop_bounds T _ HT data start_ 0 r ltac:(lia) Hrun).
    lia.
  - intros Hnotab.
    assert (r = 0 + Z.of_nat (Z.to_nat size_)); [|lia].
    apply (measureLoop_no_tabs T _ data start_ 0 r); [|exact Hrun].
    intros j Hj. apply Hnotab. lia.
Qed.

Lemma measureLineLength_bounds_witness :
  exists r, measureLineLength (qstr "ab" ++ [9] ++ qstr "c") 1 3 8 = Ok r
    /\ 3 <= r <= 3 * 8
    /\ ((forall j, 1 <= j < 1 + 3 ->
           QString_at (qstr "ab" ++ [9] ++ qstr "c") j <> Ok 9) -> r = 3).
Proof.
  apply (measureLineLength_bounds (qstr "ab" ++ [9] ++ qstr "c") 1 3 8);
    [lia | lia | lia | vm_compute; discriminate].
Defined.

(** ** The walk covers the line *)

Lemma advanceChar_next_le (lay lay' : LineLayout) :
  advanceChar lay = Ok lay' ->
  nextCharIndex lay' <= size (m_lineContent lay').
Proof.
  intros Hadv. apply advanceChar_inv in Hadv as (ch & w & t & Hch & -> & Hcase).
  unfold nextCharIndex. cbn.
  pose proof (QString_at_range _ _ _ Hch) as Hi.
  destruct Hcase as [(_ & -> & _)|[(_ & -> & _)|(-> & c1 & Hc1 & _)]];
    try (unfold nextCharIndex in Hi; lia).
  pose proof (QString_at_range _ _ _ Hc1) as Hi1.
  unfold nextCharIndex in Hi1. lia.
Qed.

Lemma layoutChars_units (fuel : nat) :
  forall lay chars, layoutChars fuel lay = Ok chars ->
  nextCharIndex lay <= size (m_lineContent lay) ->
  nextCharIndex lay + unitsOf chars = size (m_lineContent lay).
Proof.
  induction fuel as [|fuel IH]; intros lay chars Hrun Hle; [discriminate|].
  apply layoutChars_cons in Hrun. destruct chars as [|lay' rest].
  - unfold hasMoreChars in Hrun. apply Z.ltb_ge in Hrun. cbn. lia.
  - destruct Hrun as (fuel' & [= <-] & _ & Hadv & Hrest).
    pose proof (advanceChar_next_le _ _ Hadv) as Hle'.
    pose proof (advanceChar_frame _ _ Hadv) as (Hc & _ & _ & _ & _ & Hi & _).
    pose proof (IH _ _ Hrest Hle') as Hsum.
    rewrite nextCharIndex_units in Hsum.
    cbn [unitsOf foldr]. fold (unitsOf rest). rewrite <- Hc. lia.
Qed.

Lemma layoutChars_advanced (fuel : nat) :
  forall lay chars, layoutChars fuel lay = Ok chars ->
  forall (k : nat) a, chars !! k = Some a ->
    exists prev, advanceChar prev = Ok a
      /\ m_lineContent prev = m_lineContent lay.
Proof.
  induction fuel as [|fuel IH]; intros lay chars Hrun k a Ha; [discriminate|].
  apply layoutChars_cons in Hrun. destruct chars as [|lay' rest];
    [discriminate|].
  destruct Hrun as (fuel' & [= <-] & _ & Hadv & Hrest).
  destruct k as [|k]; cbn in Ha.
  - injection Ha as <-. exists lay. auto.
  - pose proof (advanceChar_frame _ _ Hadv) as (Hc & _).
    destruct (IH _ _ Hrest k a Ha) as (prev & H1 & H2).
    exists prev. split; [exact H1 | congruence].
Qed.

(** X2.  The characters the cursor produces on a line use up the line
    exactly: their code units add up to the size of the line, there are at
    most as many characters as code units, and each character's text is
    empty for a tab, the code unit at its column for any other unit that is
    not a high surrogate, and the two code units from its column for a high
    surrogate. *)
Theorem layoutChars_covers_line (font : QFont) (margins : QMargins)
  (file : File) (l : Z) (fuel : nat) (chars : list LineLayout)
  (Hrun : layoutChars fuel (LineLayout_new font margins file l) = Ok chars) :
  let text := lineContent file l in
  unitsOf chars = size text
  /\ (length chars <= length text)%nat
  /\ forall (k : nat) a, chars !! k = Some a ->
       exists ch, QString_at text (charColumn a) = Ok ch
         /\ ((ch = 9 /\ charText a = [] /\ charUnits a = 1)
             \/ (ch <> 9 /\ isHighSurrogate ch = false
                 /\ charText a = [ch] /\ charUnits a = 1)
             \/ (isHighSurrogate ch = true
                 /\ exists c1, QString_at text (charColumn a + 1) = Ok c1
                      /\ charText a = [ch; c1] /\ charUnits a = 2)).
Proof.
  intros text.
  assert (Hunits : unitsOf chars = size text).
  { pose proof (layoutChars_units _ _ _ Hrun) as H.
    cbn [LineLayout_new m_lineContent] in H.
    change (nextCharIndex (LineLayout_new font margins file l)) with 0 in H.
    specialize (H (size_nonneg _)). subst text. lia. }
  split; [exact Hunits|]. split.
  { pose proof (unitsOf_bounds chars) as Hb. unfold size in Hunits. lia. }
  intros k a Ha.
  destruct (layoutChars_advanced _ _ _ Hrun k a Ha) as (prev & Hadv & Hcont).
  cbn [LineLayout_new m_lineContent] in Hcont. fold text in Hcont.
  apply advanceChar_inv in Hadv as (ch & w & t & Hch & -> & Hcase).
  rewrite Hcont in Hch. exists ch.
  unfold charColumn, charText, charUnits. cbn.
  split; [exact Hch|].
  destruct Hcase as [(-> & Hhs & _ & -> & _)|[(Hne & Hhs & -> & _)|(Hhs & c1 & Hc1 & -> & _)]].
  - left. auto.
  - right. left. rewrite Hhs. auto.
  - right. right. rewrite Hhs. split; [reflexivity|]. exists c1.
    rewrite Hcont in Hc1. auto.
Qed.

Lemma layoutChars_covers_line_witness :
  exists chars,
    layoutChars 5 (LineLayout_new monoFont viewMargins
                     (fileOfLines [[0xD83D; 0xDE00; 9; 97]]) 0) = Ok chars
    /\ unitsOf chars = 4
    /\ (length chars <= 4)%nat.
Proof.
  eexists. split; [reflexivity|].
  split;
    apply (layoutChars_covers_line monoFont viewMargins
             (fileOfLines [[0xD83D; 0xDE00; 9; 97]]) 0 5 _ eq_refl).
Defined.

(** ** Where hitTest can land *)

Lemma hitTestLoop_bounds (file : File) (l : Z) (pixel : QPoint) (fuel : nat) :
  forall lay loc, hitTestLoop fuel file l pixel lay = Ok loc ->
  -1 <= m_charIndex lay ->
  line loc = l
  /\ (0 <= column loc < size (m_lineContent lay)
      \/ column loc = lineLength file l).
Proof.
  induction fuel as [|fuel IH]; intros lay loc Hrun Hidx; [discriminate|].
  cbn [hitTestLoop] in Hrun.
  destruct (hasMoreChars lay) eqn:Hmore.
  - destruct (advanceChar lay) as [lay'|e] eqn:Hadv;
      cbn [mbind result_bind] in Hrun; [|discriminate].
    pose proof (advanceChar_frame _ _ Hadv) as (Hc & _ & _ & _ & _ & Hi & _).
    apply hasMoreChars_true in Hmore.
    pose proof (nextCharIndex_bounds lay) as Hn.
    destruct (px pixel <? charLeft lay' + charWidth lay').
    + injection Hrun as <-. unfold charColumn. cbn. split; [reflexivity|].
      left. lia.
    + destruct (IH _ _ Hrun ltac:(lia)) as [H1 H2]. rewrite Hc in H2. auto.
  - injection Hrun as <-. cbn. auto.
Qed.

(** X3.  A location that [hitTest] returns for a loaded file is inside the
    file or just behind it: its line is between 0 and the line count, its
    column is 0 on the line behind the last one, and on a line of the file
    its column is between 0 and the length of that line. *)
Theorem hitTest_in_bounds (font : QFont) (margins : QMargins) (file : File)
  (pixel : QPoint) (loc : FileLocation)
  (Hwf : File_wf file)
  (Hrun : hitTest font margins (Some file) pixel = Ok loc) :
  0 <= line loc <= lineCount file
  /\ (line loc = lineCount file -> column loc = 0)
  /\ (line loc < lineCount file ->
      0 <= column loc <= lineLength file (line loc))
  /\ (doesPointAtChar loc file = true
      \/ column loc = 0
      \/ column loc = lineLength file (line loc)).
Proof.
  destruct Hwf as [Hcount Hlen]. unfold hitTest in Hrun.
  destruct (lineSpacing font =? 0); [discriminate|].
  set (l := (py pixel - m_top margins) ÷ lineSpacing font) in *.
  destruct (Z.ltb_spec l 0) as [Hneg|Hpos].
  { injection Hrun as <-. cbn.
    split; [lia|]. split; [reflexivity|]. split; [|auto].
    intros H0. rewrite (Hlen 0) by lia. pose proof (size_nonneg (lineContent file 0)).
    lia. }
  destruct (Z.geb_spec l (lineCount file)) as [Hge|Hlt].
  { injection Hrun as <-. cbn. split; [lia|]. split; [reflexivity|].
    split; [lia | auto]. }
  apply hitTestLoop_bounds in Hrun as [Hl Hcol]; [|cbn; lia].
  cbn [LineLayout_new m_lineContent] in Hcol. rewrite Hl.
  rewrite <- (Hlen l) in Hcol by lia.
  pose proof (size_nonneg (lineContent file l)) as Hsz.
  rewrite <- (Hlen l) in Hsz by lia.
  split; [lia|]. split; [lia|]. split; [destruct Hcol; lia|].
  destruct Hcol as [Hcol|Hcol]; [left | auto].
  apply doesPointAtChar_true. rewrite Hl. lia.
Qed.

Lemma hitTest_in_bounds_witness :
  0 <= line (mkLoc 0 1) <= lineCount sampleFile
  /\ (line (mkLoc 0 1) = lineCount sampleFile -> column (mkLoc 0 1) = 0)
  /\ (line (mkLoc 0 1) < lineCount sampleFile ->
      0 <= column (mkLoc 0 1) <= lineLength sampleFile (line (mkLoc 0 1)))
  /\ (doesPointAtChar (mkLoc 0 1) sampleFile = true
      \/ column (mkLoc 0 1) = 0
      \/ column (mkLoc 0 1) = lineLength sampleFile (line (mkLoc 0 1))).
Proof.
  apply (hitTest_in_bounds monoFont viewMargins sampleFile (mkPoint 12 8)
           (mkLoc 0 1) (fileOfLines_wf _)).
  vm_compute. reflexivity.
Defined.

Lemma unitsOf_app (xs ys : list LineLayout) :
  unitsOf (xs ++ ys) = unitsOf xs + unitsOf ys.
Proof.
  unfold unitsOf. induction xs as [|x xs IH]; cbn [app foldr]; lia.
Qed.

Lemma unitsOf_take_mono (chars : list LineLayout) :
  forall j k : nat, (j <= k)%nat ->
    unitsOf (take j chars) <= unitsOf (take k chars).
Proof.
  induction chars as [|x chars IH]; intros j k Hjk.
  - rewrite !take_nil. lia.
  - destruct j as [|j].
    + cbn [take]. pose proof (unitsOf_bounds (take k (x :: chars))).
      cbn [unitsOf foldr] in *. lia.
    + destruct k as [|k]; [lia|]. cbn [take unitsOf foldr].
      fold (unitsOf (take j chars)). fold (unitsOf (take k chars)).
      specialize (IH j k ltac:(lia)). lia.
Qed.

Lemma walk_column (font : QFont) (margins : QMargins) (file : File) (l : Z)
  (fuel : nat) (chars : list LineLayout) (k : nat) (a : LineLayout) :
  layoutChars fuel (LineLayout_new font margins file l) = Ok chars ->
  chars !! k = Some a ->
  charColumn a = unitsOf (take k chars)
  /\ charColumn a + charUnits a = unitsOf (take (S k) chars)
  /\ charColumn a + charUnits a <= size (lineContent file l).
Proof.
  intros Hrun Ha.
  destruct (layoutChars_columns _ _ _ Hrun k a Ha) as (Hidx & _).
  change (nextCharIndex (LineLayout_new font margins file l)) with 0 in Hidx.
  pose proof (layoutChars_units _ _ _ Hrun) as Hall.
  change (nextCharIndex (LineLayout_new font margins file l)) with 0 in Hall.
  cbn [LineLayout_new m_lineContent] in Hall.
  specialize (Hall (size_nonneg _)).
  assert (Hnext : unitsOf (take (S k) chars) = unitsOf (take k chars) + charUnits a).
  { rewrite (take_S_r chars k a Ha), unitsOf_app. cbn [unitsOf foldr]. lia. }
  unfold charColumn. split; [lia|]. split; [lia|].
  pose proof (unitsOf_take_mono chars (S k) (length chars)
                ltac:(apply lookup_lt_Some in Ha; lia)) as Hmono.
  rewrite firstn_all in Hmono. lia.
Qed.

Lemma walk_columns_increasing (font : QFont) (margins : QMargins)
  (file : File) (l : Z) (fuel : nat) (chars : list LineLayout)
  (j k : nat) (b a : LineLayout) :
  layoutChars fuel (LineLayout_new font margins file l) = Ok chars ->
  (j < k)%nat -> chars !! j = Some b -> chars !! k = Some a ->
  charColumn b + charUnits b <= charColumn a.
Proof.
  intros Hrun Hjk Hb Ha.
  destruct (walk_column _ _ _ _ _ _ _ _ Hrun Hb) as (_ & Hb' & _).
  destruct (walk_column _ _ _ _ _ _ _ _ Hrun Ha) as (Ha' & _).
  pose proof (unitsOf_take_mono chars (S j) k ltac:(lia)). lia.
Qed.

Lemma charUnits_pos (a : LineLayout) : 1 <= charUnits a <= 2.
Proof. unfold charUnits. destruct (m_charIsSurrogatePair a); lia. Qed.

Lemma find_first_at {A} (P : A -> bool) (xs : list A) :
  forall (k : nat) a, xs !! k = Some a -> P a = true ->
    (forall (j : nat) b, (j < k)%nat -> xs !! j = Some b -> P b = false) ->
    find P xs = Some a.
Proof.
  induction xs as [|x xs IH]; intros k a Ha HP Hbefore; [discriminate|].
  destruct k as [|k]; cbn in Ha.
  - injection Ha as ->. cbn. rewrite HP. reflexivity.
  - cbn [find]. rewrite (Hbefore 0%nat x ltac:(lia) eq_refl).
    apply (IH k a Ha HP). intros j b Hj Hb.
    apply (Hbefore (S j) b); [lia | exact Hb].
Qed.

Lemma find_none_lookup {A} (P : A -> bool) (xs : list A) :
  (forall (j : nat) b, xs !! j = Some b -> P b = false) -> find P xs = None.
Proof.
  induction xs as [|x xs IH]; intros Hall; [reflexivity|].
  cbn [find]. rewrite (Hall 0%nat x eq_refl).
  apply IH. intros j b Hb. apply (Hall (S j) b Hb).
Qed.

Lemma find_some_lookup {A} (P : A -> bool) (xs : list A) (a : A) :
  find P xs = Some a -> exists k : nat, xs !! k = Some a /\ P a = true.
Proof.
  induction xs as [|x xs IH]; [discriminate|]. cbn [find].
  destruct (P x) eqn:HP.
  - intros [= ->]. exists 0%nat. auto.
  - intros H. destruct (IH H) as (k & Hk & HPa). exists (S k). auto.
Qed.

Lemma quot_line_of_band (y top s l : Z) :
  0 < s -> 0 <= l -> s * l + top <= y < s * l + top + s ->
  (y - top) ÷ s = l.
Proof.
  intros Hs Hl Hy. rewrite Z.quot_div_nonneg by nia.
  symmetry. apply (Z.div_unique_pos _ _ _ (y - top - s * l)); lia.
Qed.

Lemma hitTest_char_box (font : QFont) (margins : QMargins)
  (file : File) (l : Z) (chars : list LineLayout) (k : nat) (a : LineLayout)
  (pixel : QPoint)
  (Hfont : QFont_ok font) (Hl : 0 <= l < lineCount file)
  (Hwalk : layoutChars (S (length (lineContent file l)))
             (LineLayout_new font margins file l) = Ok chars)
  (Ha : chars !! k = Some a)
  (Hx : charLeft a <= px pixel < charLeft a + charWidth a)
  (Hy : lineTop font margins l <= py pixel
          < lineTop font margins l + lineSpacing font) :
  hitTest font margins (Some file) pixel = Ok (mkLoc l (charColumn a)).
Proof.
  pose proof Hfont as (_ & _ & Hs).
  unfold lineTop in Hy.
  rewrite (hitTest_on_line font margins file pixel l Hs);
    [| apply quot_line_of_band; lia | exact Hl].
  rewrite (hitTestLoop_find _ _ _ _ _ _ Hwalk).
  rewrite (find_first_at (rightOf (px pixel)) chars k a Ha).
  - reflexivity.
  - unfold rightOf. apply Z.ltb_lt. lia.
  - intros j b Hj Hb. unfold rightOf. apply Z.ltb_ge.
    destruct (layoutChars_monotone _ _ _ Hwalk
                (LineLayout_new_metricInv _ _ _ _ Hfont) j k b a Hj Hb Ha)
      as (H1 & _ & H3).
    unfold charLeft, charWidth in *. lia.
Qed.

(** X4.  Hit-testing agrees with the layout: every pixel inside the box of
    a character (from its left edge to its right edge, within the band of
    its line) is mapped to the location of that character. *)
Theorem hitTest_inside_char_box (font : QFont) (margins : QMargins)
  (file : File) (l : Z) (chars : list LineLayout) (k : nat) (a : LineLayout)
  (pixel : QPoint)
  (Hfont : QFont_ok font) (Hl : 0 <= l < lineCount file)
  (Hwalk : layoutChars (S (length (lineContent file l)))
             (LineLayout_new font margins file l) = Ok chars)
  (Ha : chars !! k = Some a)
  (Hx : charLeft a <= px pixel < charLeft a + charWidth a)
  (Hy : lineTop font margins l <= py pixel
          < lineTop font margins l + lineSpacing font) :
  hitTest font margins (Some file) pixel = Ok (mkLoc l (charColumn a)).
Proof.
  exact (hitTest_char_box font margins file l chars k a pixel Hfont Hl Hwalk
           Ha Hx Hy).
Qed.

Lemma hitTest_inside_char_box_witness :
  hitTest monoFont viewMargins (Some sampleFile) (mkPoint 37 16)
  = Ok (mkLoc 0 (charColumn
                   (nth 4 (lineChars monoFont viewMargins sampleFile 0)
                      (LineLayout_new monoFont viewMargins sampleFile 0)))).
Proof.
  apply (hitTest_inside_char_box monoFont viewMargins sampleFile 0
           (lineChars monoFont viewMargins sampleFile 0) 4 _
           (mkPoint 37 16) monoFont_ok).
  - vm_compute. split; [discriminate | reflexivity].
  - vm_compute. reflexivity.
  - vm_compute. reflexivity.
  - vm_compute. split; [discriminate | reflexivity].
  - vm_compute. split; [discriminate | reflexivity].
Defined.

(** ** Columns and pixels *)

Lemma default_last_cons {A} (d x : A) (xs : list A) :
  default d (last (x :: xs)) = default x (last xs).
Proof. destruct xs as [|y ys]; [reflexivity|]. rewrite last_cons_cons.
  destruct (last (y :: ys)) eqn:H; [reflexivity|].
  apply last_None in H. discriminate.
Qed.

Lemma locationToPointLoop_find (top : Z) (loc : FileLocation) (fuel : nat) :
  forall lay chars, layoutChars fuel lay = Ok chars ->
  locationToPointLoop fuel top loc lay
  = Ok match find (fun st => charColumn st =? column loc) chars with
       | Some st => mkPoint (charLeft st) top
       | None =>
           mkPoint (charLeft (default lay (last chars))
                    + charWidth (default lay (last chars))) top
       end.
Proof.
  induction fuel as [|fuel IH]; intros lay chars Hrun; [discriminate|].
  apply layoutChars_cons in Hrun. cbn [locationToPointLoop].
  destruct chars as [|lay' rest].
  - rewrite Hrun. reflexivity.
  - destruct Hrun as (fuel' & [= <-] & Hmore & Hadv & Hrest).
    rewrite Hmore, Hadv. cbn [mbind result_bind find].
    destruct (charColumn lay' =? column loc); [reflexivity|].
    rewrite (IH _ _ Hrest), default_last_cons. reflexivity.
Qed.

(** The columns at which no character of the walk starts. *)
Lemma walk_no_char_at (font : QFont) (margins : QMargins) (file : File)
  (l : Z) (fuel : nat) (chars : list LineLayout) (c : Z) :
  layoutChars fuel (LineLayout_new font margins file l) = Ok chars ->
  (c < 0 \/ size (lineContent file l) <= c
   \/ exists (k : nat) a, chars !! k = Some a
        /\ m_charIsSurrogatePair a = true /\ c = charColumn a + 1) ->
  forall (j : nat) b, chars !! j = Some b -> charColumn b <> c.
Proof.
  intros Hrun Hc j b Hb.
  destruct (walk_column _ _ _ _ _ _ _ _ Hrun Hb) as (Hb0 & _ & Hb1).
  pose proof (unitsOf_bounds (take j chars)) as Hbnd.
  pose proof (charUnits_pos b) as Hub.
  destruct Hc as [Hneg|[Hbig|(k & a & Ha & Hpair & ->)]]; [lia | lia |].
  assert (Hua : charUnits a = 2) by (unfold charUnits; rewrite Hpair; reflexivity).
  destruct (Nat.lt_trichotomy j k) as [Hjk|[->|Hkj]].
  - pose proof (walk_columns_increasing _ _ _ _ _ _ _ _ _ _ Hrun Hjk Hb Ha). lia.
  - rewrite Ha in Hb. injection Hb as ->. lia.
  - pose proof (walk_columns_increasing _ _ _ _ _ _ _ _ _ _ Hrun Hkj Ha Hb). lia.
Qed.

Lemma locationToPoint_char_start (font : QFont) (margins : QMargins)
  (file : File) (l : Z) (chars : list LineLayout) (k : nat) (a : LineLayout) :
  0 <= l < lineCount file ->
  layoutChars (S (length (lineContent file l)))
    (LineLayout_new font margins file l) = Ok chars ->
  chars !! k = Some a ->
  locationToPoint font margins (Some file) (mkLoc l (charColumn a))
  = Ok (mkPoint (charLeft a) (lineTop font margins l)).
Proof.
  intros Hl Hwalk Ha.
  rewrite (locationToPoint_on_line font margins file (mkLoc l (charColumn a)) Hl).
  cbn [line column].
  rewrite (locationToPointLoop_find _ _ _ _ _ Hwalk). cbn [column].
  rewrite (find_first_at _ chars k a Ha); [reflexivity | apply Z.eqb_refl |].
  intros j b Hj Hb. apply Z.eqb_neq.
  pose proof (walk_columns_increasing _ _ _ _ _ _ _ _ _ _ Hwalk Hj Hb Ha).
  pose proof (charUnits_pos b). lia.
Qed.

(** X5.  On a line of the file [locationToPoint] maps the column of each
    character of the line to that character's left edge at the top of the
    line, and every column at which no character starts to the right end
    of the line: a negative column, a column at or behind the end of the
    line, and the column of the second code unit of a surrogate pair. *)
Theorem locationToPoint_columns (font : QFont) (margins : QMargins)
  (file : File) (l : Z) (chars : list LineLayout)
  (Hl : 0 <= l < lineCount file)
  (Hwalk : layoutChars (S (length (lineContent file l)))
             (LineLayout_new font margins file l) = Ok chars) :
  let lineEnd :=
    let e := default (LineLayout_new font margins file l) (last chars) in
    mkPoint (charLeft e + charWidth e) (lineTop font margins l) in
  (forall (k : nat) a, chars !! k = Some a ->
     locationToPoint font margins (Some file) (mkLoc l (charColumn a))
     = Ok (mkPoint (charLeft a) (lineTop font margins l)))
  /\ (forall c,
        (c < 0 \/ size (lineContent file l) <= c
         \/ exists (k : nat) a, chars !! k = Some a
              /\ m_charIsSurrogatePair a = true /\ c = charColumn a + 1) ->
        locationToPoint font margins (Some file) (mkLoc l c) = Ok lineEnd)
  /\ (chars = [] -> lineEnd = mkPoint (m_left margins) (lineTop font margins l)).
Proof.
  intros lineEnd. split; [|split].
  - intros k a Ha.
    rewrite (locationToPoint_on_line font margins file (mkLoc l (charColumn a)) Hl).
    cbn [line column].
    rewrite (locationToPointLoop_find _ _ _ _ _ Hwalk). cbn [column].
    rewrite (find_first_at _ chars k a Ha); [reflexivity | apply Z.eqb_refl |].
    intros j b Hj Hb. apply Z.eqb_neq.
    pose proof (walk_columns_increasing _ _ _ _ _ _ _ _ _ _ Hwalk Hj Hb Ha).
    pose proof (charUnits_pos b). lia.
  - intros c Hc.
    rewrite (locationToPoint_on_line font margins file (mkLoc l c) Hl).
    cbn [line column].
    rewrite (locationToPointLoop_find _ _ _ _ _ Hwalk). cbn [column].
    rewrite find_none_lookup; [reflexivity|].
    intros j b Hb. apply Z.eqb_neq.
    exact (walk_no_char_at _ _ _ _ _ _ _ Hwalk Hc j b Hb).
  - intros ->. subst lineEnd. cbn [last default].
    unfold charLeft, charWidth, LineLayout_new.
    cbn [m_lineLeftMargin m_charLeft m_charWidth].
    rewrite !Z.add_0_r. reflexivity.
Qed.

Lemma locationToPoint_columns_witness :
  locationToPoint monoFont viewMargins
    (Some (fileOfLines [[97; 0xD83D; 0xDE00]])) (mkLoc 0 2)
  = Ok (mkPoint 25 4).
Proof.
  assert (Hwalk : exists chars a,
            layoutChars 4 (LineLayout_new monoFont viewMargins
                             (fileOfLines [[97; 0xD83D; 0xDE00]]) 0) = Ok chars
            /\ chars !! 1%nat = Some a
            /\ m_charIsSurrogatePair a = true /\ 2 = charColumn a + 1
            /\ (let e := default (LineLayout_new monoFont viewMargins
                                    (fileOfLines [[97; 0xD83D; 0xDE00]]) 0)
                           (last chars) in
                mkPoint (charLeft e + charWidth e) (lineTop monoFont viewMargins 0))
               = mkPoint 25 4).
  { eexists _, _. repeat split; reflexivity. }
  destruct Hwalk as (chars & a & Hwalk & Ha & Hpair & Hcol & Hend).
  rewrite <- Hend.
  apply (locationToPoint_columns monoFont viewMargins
           (fileOfLines [[97; 0xD83D; 0xDE00]]) 0 chars); [|exact Hwalk|].
  - vm_compute. split; [discriminate | reflexivity].
  - right. right. exists 1%nat, a. auto.
Defined.

(** X6.  [hitTest] lands on a character boundary: on a line of the file the
    column it returns is the column of a character of that line or the
    length of the line, and never the column of the second code unit of a
    surrogate pair. *)
Theorem hitTest_on_char_boundary (font : QFont) (margins : QMargins)
  (file : File) (pixel : QPoint) (loc : FileLocation)
  (chars : list LineLayout)
  (Hwf : File_wf file)
  (Hrun : hitTest font margins (Some file) pixel = Ok loc)
  (Hline : line loc < lineCount file)
  (Hwalk : layoutChars (S (length (lineContent file (line loc))))
             (LineLayout_new font margins file (line loc)) = Ok chars) :
  (column loc = lineLength file (line loc)
   \/ exists (k : nat) a, chars !! k = Some a /\ charColumn a = column loc)
  /\ forall (k : nat) a, chars !! k = Some a ->
       m_charIsSurrogatePair a = true -> column loc <> charColumn a + 1.
Proof.
  destruct Hwf as [Hcount Hlen].
  assert (Hfirst :
    column loc = lineLength file (line loc)
    \/ exists (k : nat) a, chars !! k = Some a /\ charColumn a = column loc).
  { unfold hitTest in Hrun.
    destruct (lineSpacing font =? 0); [discriminate|].
    set (l := (py pixel - m_top margins) ÷ lineSpacing font) in *.
    destruct (Z.ltb_spec l 0) as [Hneg|Hpos].
    { injection Hrun as <-. cbn [line column] in *.
      destruct chars as [|a0 rest] eqn:Hchars.
      - left. rewrite (Hlen 0) by lia.
        pose proof (layoutChars_units _ _ _ Hwalk) as Hu.
        change (nextCharIndex (LineLayout_new font margins file 0)) with 0 in Hu.
        cbn [LineLayout_new m_lineContent unitsOf foldr] in Hu.
        specialize (Hu (size_nonneg _)). lia.
      - right. exists 0%nat, a0. split; [reflexivity|].
        destruct (walk_column _ _ _ _ _ _ 0%nat a0 Hwalk eq_refl) as (H0 & _).
        rewrite H0. reflexivity. }
    destruct (Z.geb_spec l (lineCount file)) as [Hge|Hlt].
    { injection Hrun as <-. cbn [line] in Hline. lia. }
    assert (Hl : line loc = l).
    { apply hitTestLoop_bounds in Hrun as [Hl _]; [exact Hl | cbn; lia]. }
    rewrite Hl in *. cbn [LineLayout_new m_lineContent] in Hrun.
    rewrite (hitTestLoop_find _ _ _ _ _ _ Hwalk) in Hrun.
    injection Hrun as <-. cbn [column].
    destruct (find (rightOf (px pixel)) chars) as [st|] eqn:Hfind.
    - right. apply find_some_lookup in Hfind as (k & Hk & _). eauto.
    - left. reflexivity. }
  split; [exact Hfirst|].
  intros k a Ha Hpair.
  destruct (walk_column _ _ _ _ _ _ _ _ Hwalk Ha) as (_ & _ & Hend).
  assert (Hua : charUnits a = 2) by (unfold charUnits; rewrite Hpair; reflexivity).
  destruct Hfirst as [Hcol|(j & b & Hb & Hcol)].
  - assert (0 <= line loc).
    { unfold hitTest in Hrun.
      destruct (lineSpacing font =? 0); [discriminate|].
      destruct (Z.ltb_spec ((py pixel - m_top margins) ÷ lineSpacing font) 0);
        [injection Hrun as <-; cbn; lia|].
      destruct (Z.geb_spec ((py pixel - m_top margins) ÷ lineSpacing font)
                  (lineCount file)); [injection Hrun as <-; cbn; lia|].
      apply hitTestLoop_bounds in Hrun as [Hl _]; [lia | cbn; lia]. }
    rewrite Hcol, (Hlen (line loc)) by lia. lia.
  - rewrite <- Hcol.
    apply (walk_no_char_at _ _ _ _ _ _ (charColumn a + 1) Hwalk) with (j := j);
      [|exact Hb].
    right. right. exists k, a. auto.
Qed.

Lemma hitTest_on_char_boundary_witness :
  exists chars,
    layoutChars 4 (LineLayout_new monoFont viewMargins
                     (fileOfLines [[97; 0xD83D; 0xDE00]]) 0) = Ok chars
    /\ (column (mkLoc 0 1) = lineLength (fileOfLines [[97; 0xD83D; 0xDE00]]) 0
        \/ exists (k : nat) a, chars !! k = Some a /\ charColumn a = 1).
Proof.
  eexists. split; [reflexivity|].
  assert (Hhit : hitTest monoFont viewMargins
                   (Some (fileOfLines [[97; 0xD83D; 0xDE00]])) (mkPoint 17 8)
                 = Ok (mkLoc 0 1)) by (vm_compute; reflexivity).
  apply (hitTest_on_char_boundary monoFont viewMargins
           (fileOfLines [[97; 0xD83D; 0xDE00]]) (mkPoint 17 8) (mkLoc 0 1)
           _ (fileOfLines_wf _) Hhit).
  - vm_compute. reflexivity.
  - reflexivity.
Defined.

(** ** Tab stops in columns and in pixels *)

Lemma tab_stop_scaled (w pos : Z) :
  0 < w -> 0 <= pos ->
  (w * pos + w * 8) ÷ (w * 8) * (w * 8) = w * ((pos + 8) ÷ 8 * 8).
Proof.
  intros Hw Hpos. rewrite !Z.quot_div_nonneg by nia.
  replace (w * pos + w * 8) with (w * (pos + 8)) by lia.
  rewrite Z.div_mul_cancel_l by lia. lia.
Qed.

(** On a line without high surrogates and with a font whose single code
    units are all [w] wide, the pixel walk and the column count of
    [measureLineLength] stay in step. *)
Lemma monospace_walk_measure (w top : Z) (loc : FileLocation) (n : nat) :
  0 < w ->
  forall lay pos (fuel : nat),
    existsb isHighSurrogate (m_lineContent lay) = false ->
    (forall ch, m_twc lay [ch] = w) -> m_tabStopPx lay = w * 8 ->
    0 <= nextCharIndex lay ->
    nextCharIndex lay + Z.of_nat n = size (m_lineContent lay) ->
    m_charLeft lay + m_charWidth lay = w * pos -> 0 <= pos ->
    (n < fuel)%nat -> column loc = size (m_lineContent lay) ->
    exists r,
      measureLoop n (m_lineContent lay) (nextCharIndex lay) 8 pos = Ok r
      /\ locationToPointLoop fuel top loc lay
         = Ok (mkPoint (m_lineLeftMargin lay + w * r) top).
Proof.
  intros Hw. induction n as [|n IH];
    intros lay pos fuel Hnone Htwc Htab Hidx Hn Hright Hpos Hfuel Hcol;
    (destruct fuel as [|fuel]; [lia|]); cbn [measureLoop locationToPointLoop].
  - assert (Hmore : hasMoreChars lay = false)
      by (unfold hasMoreChars; apply Z.ltb_ge; lia).
    rewrite Hmore. exists pos. split; [reflexivity|].
    unfold charLeft, charWidth. f_equal. f_equal. lia.
  - assert (Hmore : hasMoreChars lay = true)
      by (unfold hasMoreChars; apply Z.ltb_lt; lia).
    rewrite Hmore.
    destruct (QString_at_Ok (m_lineContent lay) (nextCharIndex lay))
      as [ch Hch]; [lia|].
    pose proof (no_high_surrogate_at _ _ _ Hnone Hch) as Hhs.
    unfold advanceChar. rewrite Hch. cbn [mbind result_bind].
    rewrite Hhs. cbn [negb].
    destruct (Z.eqb_spec ch 9) as [->|Hne].
    + destruct (Z.eqb_spec (m_tabStopPx lay) 0) as [?|_]; [lia|].
      change (8 =? 0) with false. cbv iota. cbn [mbind result_bind].
      match goal with |- context [setChar lay ?i ?p ?l0 ?w0 ?t] =>
        set (lay' := setChar lay i p l0 w0 t) end.
      assert (Hn' : nextCharIndex lay' = nextCharIndex lay + 1)
        by (subst lay'; unfold nextCharIndex at 1; cbn; lia).
      assert (Hc' : m_lineContent lay' = m_lineContent lay) by reflexivity.
      assert (Hcne : (charColumn lay' =? column loc) = false).
      { apply Z.eqb_neq. subst lay'. unfold charColumn. cbn. lia. }
      rewrite Hcne.
      assert (Hright' : m_charLeft lay' + m_charWidth lay'
                        = w * ((pos + 8) ÷ 8 * 8)).
      { subst lay'. cbn. rewrite Hright, Htab.
        rewrite <- tab_stop_scaled by assumption. lia. }
      destruct (tab_width_next_stop pos 8 Hpos ltac:(lia)) as [Hstep _].
      destruct (IH lay' ((pos + 8) ÷ 8 * 8) fuel) as (r & Hm & Hp);
        [rewrite Hc'; exact Hnone | exact Htwc | exact Htab | lia
        | rewrite Hc'; lia | exact Hright' | lia | lia | rewrite Hc'; exact Hcol |].
      exists r. rewrite Hn', Hc' in Hm. split; [exact Hm | exact Hp].
    + cbn [mbind result_bind].
      match goal with |- context [setChar lay ?i ?p ?l0 ?w0 ?t] =>
        set (lay' := setChar lay i p l0 w0 t) end.
      assert (Hn' : nextCharIndex lay' = nextCharIndex lay + 1)
        by (subst lay'; unfold nextCharIndex at 1; cbn; lia).
      assert (Hc' : m_lineContent lay' = m_lineContent lay) by reflexivity.
      assert (Hcne : (charColumn lay' =? column loc) = false).
      { apply Z.eqb_neq. subst lay'. unfold charColumn. cbn. lia. }
      rewrite Hcne.
      assert (Hright' : m_charLeft lay' + m_charWidth lay' = w * (pos + 1)).
      { subst lay'. cbn. rewrite Hright, Htwc. lia. }
      destruct (IH lay' (pos + 1) fuel) as (r & Hm & Hp);
        [rewrite Hc'; exact Hnone | exact Htwc | exact Htab | lia
        | rewrite Hc'; lia | exact Hright' | lia | lia | rewrite Hc'; exact Hcol |].
      exists r. rewrite Hn', Hc' in Hm. split; [exact Hm | exact Hp].
Qed.

Lemma monospace_line_end (font : QFont) (margins : QMargins)
  (file : File) (l : Z)
  (Hmono : QFont_monospace font) (Hw : 0 < spaceWidth font)
  (Hwf : File_wf file) (Hl : 0 <= l < lineCount file)
  (Hnone : existsb isHighSurrogate (lineContent file l) = false) :
  exists n,
    measureLineLength (lineContent file l) 0 (lineLength file l) kTabStopSize
    = Ok n
    /\ locationToPoint font margins (Some file) (mkLoc l (lineLength file l))
       = Ok (mkPoint (m_left margins + spaceWidth font * n)
                     (lineTop font margins l)).
Proof.
  destruct Hwf as [_ Hlen].
  rewrite (locationToPoint_on_line font margins file
             (mkLoc l (lineLength file l)) Hl). cbn [line].
  unfold measureLineLength. rewrite (Hlen l Hl). unfold size at 1.
  rewrite Nat2Z.id.
  destruct (monospace_walk_measure (spaceWidth font) (lineTop font margins l)
              (mkLoc l (size (lineContent file l)))
              (length (lineContent file l)) Hw
              (LineLayout_new font margins file l) 0
              (S (length (lineContent file l)))) as (n & Hm & Hp);
    [ exact Hnone | intros ch; apply Hmono
    | cbn; unfold kTabStopSize; lia | cbv; discriminate
    | change (nextCharIndex (LineLayout_new font margins file l)) with 0;
      cbn [LineLayout_new m_lineContent]; unfold size; lia
    | cbn; lia | lia | lia | reflexivity |].
  change (nextCharIndex (LineLayout_new font margins file l)) with 0 in Hm.
  exists n. split; [exact Hm | exact Hp].
Qed.

(** X7.  The two tab expansions agree: with a font whose single code units
    are all as wide as a space, on a line without high surrogates, the
    pixel just behind the last character of the line is the left margin
    plus the space width times the line length that [measureLineLength]
    counts in columns. *)
Theorem line_end_pixel_is_measured_length (font : QFont) (margins : QMargins)
  (file : File) (l : Z)
  (Hmono : QFont_monospace font) (Hw : 0 < spaceWidth font)
  (Hwf : File_wf file) (Hl : 0 <= l < lineCount file)
  (Hnone : existsb isHighSurrogate (lineContent file l) = false) :
  exists n,
    measureLineLength (lineContent file l) 0 (lineLength file l) kTabStopSize
    = Ok n
    /\ locationToPoint font margins (Some file) (mkLoc l (lineLength file l))
       = Ok (mkPoint (m_left margins + spaceWidth font * n)
                     (lineTop font margins l)).
Proof.
  exact (monospace_line_end font margins file l Hmono Hw Hwf Hl Hnone).
Qed.

Lemma line_end_pixel_is_measured_length_witness :
  exists n,
    measureLineLength (lineContent (fileOfLines [[9; 97; 9]]) 0) 0
      (lineLength (fileOfLines [[9; 97; 9]]) 0) kTabStopSize = Ok n
    /\ locationToPoint monoFont viewMargins (Some (fileOfLines [[9; 97; 9]]))
         (mkLoc 0 (lineLength (fileOfLines [[9; 97; 9]]) 0))
       = Ok (mkPoint (m_left viewMargins + spaceWidth monoFont * n)
                     (lineTop monoFont viewMargins 0)).
Proof.
  apply (line_end_pixel_is_measured_length monoFont viewMargins
           (fileOfLines [[9; 97; 9]]) 0).
  - intros ch. reflexivity.
  - cbn. lia.
  - apply fileOfLines_wf.
  - cbn. lia.
  - reflexivity.
Defined.

(** ** setFile: the longest line and the size hint *)

Lemma measureLines_max (file : File) (n : nat) :
  forall i m r, measureLines n file i m = Ok r ->
    m <= r
    /\ (forall j, i <= j < i + Z.of_nat n ->
          exists len,
            measureLineLength (content file) (lineStart file j)
              (lineLength file j) kTabStopSize = Ok len
            /\ len <= r)
    /\ (r = m
        \/ exists j, i <= j < i + Z.of_nat n
             /\ measureLineLength (content file) (lineStart file j)
                  (lineLength file j) kTabStopSize = Ok r).
Proof.
  induction n as [|n IH]; intros i m r Hrun.
  - cbn in Hrun. injection Hrun as <-.
    split; [lia|]. split; [intros j Hj; lia | auto].
  - cbn [measureLines] in Hrun.
    destruct (measureLineLength (content file) (lineStart file i)
                (lineLength file i) kTabStopSize) as [len|e] eqn:Hlen;
      cbn [mbind result_bind] in Hrun; [|discriminate].
    destruct (IH _ _ _ Hrun) as (Hle & Hall & Hsome).
    split; [lia|]. split.
    + intros j Hj. destruct (Z.eq_dec j i) as [->|Hne].
      * exists len. split; [exact Hlen | lia].
      * apply Hall. lia.
    + destruct Hsome as [->|(j & Hj & Hr)].
      * destruct (Z.max_spec m len) as [[_ ->]|[_ ->]].
        -- right. exists i. split; [lia | exact Hlen].
        -- left. reflexivity.
      * right. exists j. split; [lia | exact Hr].
Qed.

(** X8.  When [setFile] loads a file, the view shows that file with no
    selection, and [m_maxLineLength] is the greatest of the measured line
    lengths: no line of the file measures more, and it is 0 or the measure
    of one of the lines.  Loading no file leaves no selection and a longest
    line of 0. *)
Theorem setFile_longest_line (highlight : list Z -> list Kind)
  (v v' : SourceWidgetView) (f : File)
  (Hrun : setFile highlight v (Some f) = Ok v') :
  m_file v' = Some f
  /\ m_selection v' = FileRange_null
  /\ font v' = font v /\ m_margins v' = m_margins v
  /\ (forall l, 0 <= l < lineCount f ->
        exists len,
          measureLineLength (content f) (lineStart f l) (lineLength f l)
            kTabStopSize = Ok len
          /\ len <= m_maxLineLength v')
  /\ (m_maxLineLength v' = 0
      \/ exists l, 0 <= l < lineCount f
           /\ measureLineLength (content f) (lineStart f l) (lineLength f l)
                kTabStopSize = Ok (m_maxLineLength v'))
  /\ (exists v0, setFile highlight v None = Ok v0
        /\ m_file v0 = None /\ m_selection v0 = FileRange_null
        /\ m_maxLineLength v0 = 0).
Proof.
  unfold setFile in Hrun.
  destruct (colorLexed _ _ _) as [lexed|e]; cbn [mbind result_bind] in Hrun;
    [|discriminate].
  destruct (colorRefs _ _ _ _ _) as [colored|e];
    cbn [mbind result_bind] in Hrun; [|discriminate].
  destruct (measureLines (Z.to_nat (lineCount f)) f 0 0) as [maxLength|e]
    eqn:Hmax; cbn [mbind result_bind] in Hrun; [|discriminate].
  injection Hrun as <-. cbn.
  destruct (measureLines_max _ _ _ _ _ Hmax) as (_ & Hall & Hsome).
  split; [reflexivity|]. split; [reflexivity|]. split; [reflexivity|].
  split; [reflexivity|]. split.
  - intros l Hl. apply Hall. lia.
  - split.
    + destruct Hsome as [->|(j & Hj & Hr)]; [auto|].
      right. exists j. split; [lia | exact Hr].
    + eexists. split; [reflexivity|]. cbn. auto.
Qed.

Lemma setFile_longest_line_witness :
  let file := fileOfLines [qstr "ab"; [9; 97]; qstr "abc"] in
  let v' := viewOf (setFile sampleHighlight sampleView (Some file)) sampleView in
  m_file v' = Some file
  /\ m_selection v' = FileRange_null
  /\ (m_maxLineLength v' = 0
      \/ exists l, 0 <= l < lineCount file
           /\ measureLineLength (content file) (lineStart file l)
                (lineLength file l) kTabStopSize = Ok (m_maxLineLength v')).
Proof.
  intros file v'.
  assert (Hrun : setFile sampleHighlight sampleView (Some file) = Ok v')
    by (vm_compute; reflexivity).
  destruct (setFile_longest_line _ _ _ _ Hrun) as (H1 & H2 & _ & _ & _ & H3 & _).
  split; [exact H1|]. split; [exact H2 | exact H3].
Defined.

Lemma QString_at_slice (data : list Z) (s j : Z) (n : nat) :
  0 <= s -> 0 <= j < Z.of_nat n ->
  QString_at (take n (drop (Z.to_nat s) data)) j = QString_at data (s + j).
Proof.
  intros Hs Hj. unfold QString_at.
  destruct (Z.ltb_spec j 0); [lia|]. destruct (Z.ltb_spec (s + j) 0); [lia|].
  rewrite lookup_take_lt by lia. rewrite lookup_drop.
  replace (Z.to_nat s + Z.to_nat j)%nat with (Z.to_nat (s + j)) by lia.
  reflexivity.
Qed.

Lemma measureLoop_slice (data : list Z) (s T : Z) (m : nat) (n : nat) :
  0 <= s ->
  forall j pos, 0 <= j -> j + Z.of_nat n <= Z.of_nat m ->
    measureLoop n (take m (drop (Z.to_nat s) data)) j T pos
    = measureLoop n data (s + j) T pos.
Proof.
  intros Hs. induction n as [|n IH]; intros j pos Hj Hn; [reflexivity|].
  cbn [measureLoop]. rewrite QString_at_slice by lia.
  destruct (QString_at data (s + j)) as [ch|e]; cbn [mbind result_bind];
    [|reflexivity].
  replace (s + j + 1) with (s + (j + 1)) by lia.
  destruct (ch =? 9).
  - destruct (T =? 0); [reflexivity|]. apply IH; lia.
  - apply IH; lia.
Qed.

(** X9.  The size hint has room for the text: after [setFile], with a font
    whose single code units are all as wide as a space, the pixel behind
    the last character of any line without high surrogates, plus the right
    margin, is within the width of the size hint, and the top of the line
    behind the last one, plus the bottom margin, is its height. *)
Theorem sizeHint_contains_lines (highlight : list Z -> list Kind)
  (v v' : SourceWidgetView) (f : File) (l : Z)
  (Hrun : setFile highlight v (Some f) = Ok v')
  (Hmono : QFont_monospace (font v)) (Hw : 0 < spaceWidth (font v))
  (Hwf : File_wf f) (Hslice : File_lines_slice f)
  (Hin : File_lines_in_content f)
  (Hl : 0 <= l < lineCount f)
  (Hnone : existsb isHighSurrogate (lineContent f l) = false) :
  exists p,
    locationToPoint (font v') (m_margins v') (m_file v')
      (mkLoc l (lineLength f l)) = Ok p
    /\ px p + m_right (m_margins v') <= s_width (sizeHint v')
    /\ lineTop (font v') (m_margins v') (lineCount f) + m_bottom (m_margins v')
       = s_height (sizeHint v').
Proof.
  unfold setFile in Hrun.
  destruct (colorLexed _ _ _) as [lexed|e]; cbn [mbind result_bind] in Hrun;
    [|discriminate].
  destruct (colorRefs _ _ _ _ _) as [colored|e];
    cbn [mbind result_bind] in Hrun; [|discriminate].
  destruct (measureLines (Z.to_nat (lineCount f)) f 0 0) as [maxLength|e]
    eqn:Hmax; cbn [mbind result_bind] in Hrun; [|discriminate].
  injection Hrun as <-. unfold sizeHint, marginsToSize, QSize_add, lineTop.
  cbn.
  destruct (measureLines_max _ _ _ _ _ Hmax) as (_ & Hall & _).
  destruct (Hall l ltac:(lia)) as (len & Hlen & Hle).
  destruct (monospace_line_end (font v) (m_margins v) f l Hmono Hw Hwf Hl Hnone)
    as (n & Hn & Hp).
  assert (n = len) as ->.
  { destruct (Hin l Hl) as (Hs & Hlen0 & _).
    unfold measureLineLength in Hn, Hlen.
    rewrite (Hslice l Hl) in Hn.
    rewrite (measureLoop_slice (content f) (lineStart f l) kTabStopSize
               (Z.to_nat (lineLength f l)) (Z.to_nat (lineLength f l)) Hs 0 0)
      in Hn by lia.
    rewrite Z.add_0_r in Hn. congruence. }
  eexists. split; [exact Hp|]. cbn [px]. split; [nia | lia].
Qed.

Lemma sizeHint_contains_lines_witness :
  let file := fileOfLines [qstr "ab"; [9; 97]; qstr "abc"] in
  let v' := viewOf (setFile sampleHighlight sampleView (Some file)) sampleView in
  exists p,
    locationToPoint (font v') (m_margins v') (m_file v')
      (mkLoc 1 (lineLength file 1)) = Ok p
    /\ px p + m_right (m_margins v') <= s_width (sizeHint v')
    /\ lineTop (font v') (m_margins v') (lineCount file) + m_bottom (m_margins v')
       = s_height (sizeHint v').
Proof.
  intros file v'.
  assert (Hrun : setFile sampleHighlight sampleView (Some file) = Ok v')
    by (vm_compute; reflexivity).
  apply (sizeHint_contains_lines sampleHighlight sampleView v' file 1 Hrun).
  - intros ch. reflexivity.
  - vm_compute. reflexivity.
  - apply fileOfLines_wf.
  - intros l Hl. change (0 <= l < 3) in Hl.
    assert (l = 0 \/ l = 1 \/ l = 2) as [->|[->| ->]] by lia; reflexivity.
  - intros l Hl. change (0 <= l < 3) in Hl.
    assert (l = 0 \/ l = 1 \/ l = 2) as [->|[->| ->]] by lia;
      vm_compute; repeat split; discriminate.
  - vm_compute. split; [discriminate | reflexivity].
  - reflexivity.
Defined.

(** ** ColorForRef *)

Lemma find_snoc {A} (P : A -> bool) (xs : list A) (x : A) :
  find P (xs ++ [x])
  = match find P xs with
    | Some y => Some y
    | None => if P x then Some x else None
    end.
Proof.
  induction xs as [|y ys IH]; cbn [app find]; [reflexivity|].
  destruct (P y); [reflexivity | exact IH].
Qed.

Lemma addMapping_lookup_eq (project : Project) (entry : string * GlobalColor)
  (m : gmap N GlobalColor) (id : N) :
  addMapping project (fst entry) (snd entry) m !! id
  = if mapsType project id entry then Some (snd entry) else m !! id.
Proof.
  unfold addMapping, mapsType.
  destruct (decide (getSymbolTypeID project (fst entry) <> kInvalidID project))
    as [Hvalid|Hinvalid].
  - rewrite (bool_decide_eq_true_2 _ Hvalid), andb_true_r.
    rewrite lookup_insert.
    destruct (decide (getSymbolTypeID project (fst entry) = id)) as [Heq|Hne].
    + rewrite (bool_decide_eq_true_2 _ Heq). reflexivity.
    + rewrite (bool_decide_eq_false_2 _ Hne). reflexivity.
  - rewrite (bool_decide_eq_false_2 _ Hinvalid), andb_false_r. reflexivity.
Qed.

Lemma addMappings_lookup (project : Project) (id : N)
  (table : list (string * GlobalColor)) :
  forall m : gmap N GlobalColor,
    foldl (fun m entry => addMapping project (fst entry) (snd entry) m) m table
      !! id
    = match find (mapsType project id) (reverse table) with
      | Some entry => Some (snd entry)
      | None => m !! id
      end.
Proof.
  induction table as [|entry table IH]; intros m; [reflexivity|].
  cbn [foldl]. rewrite IH, reverse_cons, find_snoc.
  destruct (find (mapsType project id) (reverse table)); [reflexivity|].
  rewrite addMapping_lookup_eq.
  destruct (mapsType project id entry); reflexivity.
Qed.

(** X10.  The colour [ColorForRef] gives a reference is the colour of the
    last mapping of the constructor whose symbol type the index knows and
    whose type ID is the type ID of the reference's symbol, and
    [Qt::transparent] when there is none; in particular a symbol whose type
    ID is [kInvalidID] is never coloured. *)
Theorem ColorForRef_color_last_mapping (project : Project) (ref : Ref) :
  let id := querySymbolType project (ref_symbolID ref) in
  ColorForRef_color project (ColorForRef_new project) ref
  = match find (mapsType project id) (reverse colorForRefTable) with
    | Some entry => snd entry
    | None => transparent
    end
  /\ (ColorForRef_color project (ColorForRef_new project) ref = transparent
      <-> forall entry, entry ∈ colorForRefTable ->
            mapsType project id entry = false)
  /\ (id = kInvalidID project ->
      ColorForRef_color project (ColorForRef_new project) ref = transparent).
Proof.
  intros id.
  assert (Hcolor :
    ColorForRef_color project (ColorForRef_new project) ref
    = match find (mapsType project id) (reverse colorForRefTable) with
      | Some entry => snd entry
      | None => transparent
      end).
  { unfold ColorForRef_color. fold id.
    change (ColorForRef_new project)
      with (foldl (fun m entry => addMapping project (fst entry) (snd entry) m)
              ∅ colorForRefTable).
    rewrite addMappings_lookup, lookup_empty.
    destruct (find (mapsType project id) (reverse colorForRefTable));
      reflexivity. }
  assert (Hiff :
    ColorForRef_color project (ColorForRef_new project) ref = transparent
    <-> forall entry, entry ∈ colorForRefTable ->
          mapsType project id entry = false).
  { rewrite Hcolor. split.
    - intros Htr entry Hin.
      destruct (find (mapsType project id) (reverse colorForRefTable))
        as [e|] eqn:Hfind.
      + apply find_some in Hfind as [Hin' _].
        apply list_elem_of_In, elem_of_reverse in Hin'.
        unfold colorForRefTable in Hin'.
        repeat (apply elem_of_cons in Hin' as [->|Hin']; [discriminate|]).
        apply elem_of_nil in Hin'. contradiction.
      + apply (find_none _ _ Hfind).
        apply list_elem_of_In, elem_of_reverse. exact Hin.
    - intros Hnone.
      destruct (find (mapsType project id) (reverse colorForRefTable))
        as [e|] eqn:Hfind; [|reflexivity].
      apply find_some in Hfind as [Hin Hmaps].
      apply list_elem_of_In, elem_of_reverse in Hin.
      rewrite (Hnone e Hin) in Hmaps. discriminate. }
  split; [exact Hcolor|]. split; [exact Hiff|].
  intros Hinvalid. apply Hiff. intros entry _. unfold mapsType.
  destruct (decide (getSymbolTypeID project (fst entry) = id)) as [Heq|Hne].
  - rewrite (bool_decide_eq_false_2
               (getSymbolTypeID project (fst entry) <> kInvalidID project)).
    + apply andb_false_r.
    + intros Hvalid. apply Hvalid. congruence.
  - rewrite (bool_decide_eq_false_2 _ Hne). reflexivity.
Qed.

(** ** References without a colour *)

Lemma colorRefs_uncolored (project : Project) (table : gmap N GlobalColor)
  (file : File) (refs : list Ref) (coloring : list GlobalColor) :
  Forall (fun ref => refColored project table ref = false) refs ->
  colorRefs project table file refs coloring = Ok coloring.
Proof.
  induction 1 as [|ref refs Href _ IH]; [reflexivity|].
  cbn [colorRefs]. unfold colorRef.
  unfold refColored in Href. apply bool_decide_eq_false in Href.
  destruct (decide (ColorForRef_color project table ref <> transparent));
    [contradiction|].
  cbn [mbind result_bind]. exact IH.
Qed.

(** X11.  References whose symbol type has no colour are never applied:
    whatever their line and columns are, also outside the file, [setFile]
    on a file that has only such references is defined and the colour
    vector is exactly the lexical colours. *)
Theorem setFile_uncolored_refs (highlight : list Z -> list Kind)
  (v : SourceWidgetView) (f : File)
  (Hkinds : length (highlight (content f)) = length (content f))
  (Hrefs : Forall (fun ref =>
              refColored (m_project v) (ColorForRef_new (m_project v)) ref = false)
             (queryFileRefs (m_project v) f))
  (Hlines : File_lines_in_content f) :
  exists v', setFile highlight v (Some f) = Ok v'
    /\ m_syntaxColoring v' = map colorForSyntaxKind (highlight (content f)).
Proof.
  unfold setFile.
  set (resized := resize (length (content f)) color0 (m_syntaxColoring v)).
  assert (Hres : length resized = length (content f)) by apply length_resize.
  pose proof (colorLexed_app (highlight (content f)) [] resized ltac:(lia))
    as Hlex.
  cbn [length app] in Hlex. change (Z.of_nat 0) with 0 in Hlex.
  rewrite Hlex. cbn [mbind result_bind].
  rewrite (drop_ge resized) by lia. rewrite app_nil_r.
  rewrite (colorRefs_uncolored _ _ _ _ _ Hrefs). cbn [mbind result_bind].
  assert (exists maxLength,
            measureLines (Z.to_nat (lineCount f)) f 0 0 = Ok maxLength)
    as [maxLength Hmax].
  { destruct (Z.le_gt_cases 0 (lineCount f)) as [Hc|Hc].
    - apply measureLines_ok; [exact Hlines | lia | lia].
    - replace (Z.to_nat (lineCount f)) with 0%nat by lia. cbn. eauto. }
  rewrite Hmax. cbn [mbind result_bind].
  eexists. split; reflexivity.
Qed.

Lemma setFile_uncolored_refs_witness :
  let project :=
    mkProject 0xFFFFFFFF%N (fun _ => 0xFFFFFFFF%N) (fun _ => 7%N)
      (fun _ => [mkRef 1%N 40 100 200]) (fun _ _ _ => [])
      (fun _ => mkRef 1%N 1 1 1) in
  let v := mkView monoFont viewMargins project None FileRange_null [] 0 in
  exists v', setFile sampleHighlight v (Some sampleFile) = Ok v'
    /\ m_syntaxColoring v'
       = map colorForSyntaxKind (sampleHighlight (content sampleFile)).
Proof.
  intros project v.
  apply (setFile_uncolored_refs sampleHighlight v sampleFile).
  - reflexivity.
  - apply Forall_cons_2; [vm_compute; reflexivity | apply Forall_nil_2].
  - intros l Hl. assert (l = 0) as -> by (change (0 <= l < 1) in Hl; lia).
    vm_compute. repeat split; discriminate.
Defined.

(** ** The selection across events *)

Lemma loc_eqb_refl (a : FileLocation) : loc_eqb a a = true.
Proof. unfold loc_eqb. rewrite !Z.eqb_refl. reflexivity. Qed.

Lemma range_eqb_refl (r : FileRange) : range_eqb r r = true.
Proof. unfold range_eqb. rewrite !loc_eqb_refl. reflexivity. Qed.

Lemma findWordAtLocation_selection (mf : option File) (pt : FileLocation)
  (r : FileRange) :
  (forall f, mf = Some f -> File_wf f) ->
  findWordAtLocation mf pt = Ok r -> selectionOnOneLine r.
Proof.
  intros Hwf Hrun. destruct mf as [f|]; [|injection Hrun as <-; left; reflexivity].
  specialize (Hwf f eq_refl).
  destruct (doesPointAtChar pt f) eqn:Hpt.
  - destruct (findWordAtLocation_cases f pt Hwf Hpt)
      as [[_ Hr]|(_ & x1 & x2 & Hr & Hb1 & Hb2 & _)];
      rewrite Hr in Hrun; injection Hrun as <-; right; cbn [start end_ line column].
    + split; [|split; [reflexivity | lia]].
      unfold isEmpty, loc_eqb. cbn [start end_ line column].
      destruct (Z.eqb_spec (column pt) (column pt + 1)); [lia|].
      apply andb_false_r.
    + split; [|split; [reflexivity | lia]].
      unfold isEmpty, loc_eqb. cbn [start end_ line column].
      destruct (Z.eqb_spec x1 (x2 + 1)); [lia|]. apply andb_false_r.
  - unfold findWordAtLocation in Hrun. rewrite Hpt in Hrun.
    injection Hrun as <-. left. reflexivity.
Qed.

Lemma findWordAtPoint_selection (font : QFont) (margins : QMargins)
  (mf : option File) (pt : QPoint) (r : FileRange) :
  (forall f, mf = Some f -> File_wf f) ->
  findWordAtPoint font margins mf pt = Ok r -> selectionOnOneLine r.
Proof.
  intros Hwf Hrun. unfold findWordAtPoint in Hrun.
  destruct mf as [f|]; [|injection Hrun as <-; left; reflexivity].
  destruct (hitTest font margins (Some f) pt) as [loc|e];
    cbn [mbind result_bind] in Hrun; [|discriminate].
  destruct (doesPointAtChar loc f).
  - exact (findWordAtLocation_selection _ _ _ Hwf Hrun).
  - injection Hrun as <-. left. reflexivity.
Qed.

(** X12.  The selection stays paintable: after a mouse press and after
    [selectIdentifier] the selection is nothing or a non-empty range on one
    line, and a mouse move, a mouse release and a context-menu event keep
    such a selection or drop it.  No handler changes the file, the font or
    the margins of the view. *)
Theorem handlers_keep_selection_on_one_line (v : SourceWidgetView)
  (Hfile : forall f, m_file v = Some f -> File_wf f) :
  (forall pos v' acts, mousePressEvent v pos = Ok (v', acts) ->
     selectionOnOneLine (m_selection v')
     /\ m_file v' = m_file v /\ font v' = font v /\ m_margins v' = m_margins v)
  /\ (forall l c v' p, selectIdentifier v l c = Ok (v', p) ->
        selectionOnOneLine (m_selection v')
        /\ m_file v' = m_file v /\ font v' = font v /\ m_margins v' = m_margins v)
  /\ (forall pos v' acts,
        mouseMoveEvent v pos = Ok (v', acts)
        \/ mouseReleaseEvent v pos = Ok (v', acts)
        \/ (exists b f, contextMenuEvent v pos b f = Ok (v', acts)) ->
        (m_selection v' = m_selection v \/ m_selection v' = FileRange_null)
        /\ (selectionOnOneLine (m_selection v) ->
            selectionOnOneLine (m_selection v'))
        /\ m_file v' = m_file v /\ font v' = font v /\ m_margins v' = m_margins v).
Proof.
  split; [|split].
  - intros pos v' acts Hrun. unfold mousePressEvent in Hrun.
    destruct (findWordAtPoint (font v) (m_margins v) (m_file v) pos)
      as [word|e] eqn:Hword; cbn [mbind result_bind] in Hrun; [|discriminate].
    injection Hrun as <- _. cbn.
    split; [exact (findWordAtPoint_selection _ _ _ _ _ Hfile Hword) | auto].
  - intros l c v' p Hrun. unfold selectIdentifier in Hrun.
    destruct (findWordAtLocation (m_file v) (mkLoc (l - 1) (c - 1)))
      as [r|e] eqn:Hr; cbn [mbind result_bind] in Hrun; [|discriminate].
    destruct (locationToPoint _ _ _ _) as [q|e];
      cbn [mbind result_bind] in Hrun; [|discriminate].
    injection Hrun as <- _. cbn.
    split; [exact (findWordAtLocation_selection _ _ _ Hfile Hr) | auto].
  - intros pos v' acts Hrun.
    assert (Hsel : (m_selection v' = m_selection v
                    \/ m_selection v' = FileRange_null)
                   /\ m_file v' = m_file v /\ font v' = font v
                   /\ m_margins v' = m_margins v).
    { destruct Hrun as [Hrun|[Hrun|(b & f & Hrun)]].
      - unfold mouseMoveEvent in Hrun.
        destruct (findWordAtPoint _ _ _ _) as [word|e];
          cbn [mbind result_bind] in Hrun; [|discriminate].
        destruct (range_eqb (m_selection v) word); cbn [negb] in Hrun;
          injection Hrun as <- _; cbn; auto.
      - unfold mouseReleaseEvent in Hrun.
        destruct (isEmpty (m_selection v)); cbn [negb] in Hrun;
          [injection Hrun as <- _; auto|].
        destruct (findWordAtPoint _ _ _ _) as [word|e];
          cbn [mbind result_bind] in Hrun; [|discriminate].
        destruct (negb (isEmpty _));
          [destruct (querySymbolsAtLocation _ _ _ _) as [|s1 [|s2 rest]]|];
          injection Hrun as <- _; cbn; auto.
      - unfold contextMenuEvent in Hrun.
        destruct (isEmpty (m_selection v)) eqn:Hempty; cbn [negb] in Hrun.
        + cbn [mbind result_bind] in Hrun. rewrite Hempty in Hrun.
          injection Hrun as <- _. auto.
        + destruct (findWordAtPoint _ _ _ _) as [word|e];
            cbn [mbind result_bind] in Hrun; [|discriminate].
          destruct (range_eqb (m_selection v) word); cbn [negb] in Hrun;
            cbn [mbind result_bind] in Hrun.
          * rewrite Hempty in Hrun. injection Hrun as <- _. auto.
          * cbn in Hrun. injection Hrun as <- _. cbn. auto. }
    destruct Hsel as (Hsel & Hrest). split; [exact Hsel|]. split; [|exact Hrest].
    intros Hinv. destruct Hsel as [->| ->]; [exact Hinv | left; reflexivity].
Qed.

Lemma handlers_keep_selection_on_one_line_witness :
  let v' := eventView (mousePressEvent sampleLoaded (mkPoint 6 8))
              sampleLoaded in
  selectionOnOneLine (m_selection v')
  /\ m_file v' = m_file sampleLoaded /\ font v' = font sampleLoaded
  /\ m_margins v' = m_margins sampleLoaded.
Proof.
  intros v'.
  assert (Hfile : forall f, m_file sampleLoaded = Some f -> File_wf f).
  { intros f [= <-]. apply fileOfLines_wf. }
  destruct (handlers_keep_selection_on_one_line sampleLoaded Hfile)
    as (Hpress & _).
  apply (Hpress (mkPoint 6 8) v' [Update]).
  vm_compute. reflexivity.
Defined.

(** X14.  Press and release on the same point.  A press only repaints.
    When it selected a word, the release at the same point finds the same
    word, drops the selection, and navigates to the single definition when
    the index reports exactly one symbol at the start of the word; when the
    press selected nothing, the release does nothing. *)
Theorem press_then_release (v v1 : SourceWidgetView) (pos : QPoint)
  (acts1 : list UiAction)
  (Hpress : mousePressEvent v pos = Ok (v1, acts1)) :
  acts1 = [Update]
  /\ (isEmpty (m_selection v1) = false ->
      mouseReleaseEvent v1 pos
      = Ok (setSelection v1 FileRange_null,
            match symbolsAtSelection v1 with
            | [symbol] =>
                [Update;
                 NavigateToRef (findSingleDefinitionOfSymbol (m_project v1) symbol)]
            | _ => [Update]
            end))
  /\ (isEmpty (m_selection v1) = true ->
      mouseReleaseEvent v1 pos = Ok (v1, [])).
Proof.
  unfold mousePressEvent in Hpress.
  destruct (findWordAtPoint (font v) (m_margins v) (m_file v) pos)
    as [word|e] eqn:Hword; cbn [mbind result_bind] in Hpress; [|discriminate].
  injection Hpress as <- <-. split; [reflexivity|].
  unfold mouseReleaseEvent, symbolsAtSelection.
  cbn [setSelection m_selection font m_margins m_file m_project].
  split; intros Hempty; rewrite Hempty; cbn [negb]; [|reflexivity].
  rewrite Hword. cbn [mbind result_bind].
  rewrite range_eqb_refl, Hempty. cbn [negb].
  destruct (querySymbolsAtLocation _ _ _ _) as [|s1 [|s2 rest]]; reflexivity.
Qed.

Lemma press_then_release_witness :
  let v1 := eventView (mousePressEvent sampleLoaded (mkPoint 6 8)) sampleLoaded in
  eventActions (mousePressEvent sampleLoaded (mkPoint 6 8)) = [Update]
  /\ (isEmpty (m_selection v1) = false ->
      mouseReleaseEvent v1 (mkPoint 6 8)
      = Ok (setSelection v1 FileRange_null,
            match symbolsAtSelection v1 with
            | [symbol] =>
                [Update;
                 NavigateToRef (findSingleDefinitionOfSymbol (m_project v1) symbol)]
            | _ => [Update]
            end))
  /\ (isEmpty (m_selection v1) = true ->
      mouseReleaseEvent v1 (mkPoint 6 8) = Ok (v1, [])).
Proof.
  intros v1.
  assert (Hpress : mousePressEvent sampleLoaded (mkPoint 6 8) = Ok (v1, [Update]))
    by (vm_compute; reflexivity).
  rewrite Hpress. cbn [eventActions].
  exact (press_then_release sampleLoaded v1 (mkPoint 6 8) [Update] Hpress).
Defined.

(** ** Words *)

(** Every column inside a word gives the same word. *)
Lemma findWordAtLocation_inside (f : File) (pt pt' : FileLocation)
  (r : FileRange) :
  File_wf f -> doesPointAtChar pt f = true ->
  findWordAtLocation (Some f) pt = Ok r ->
  line pt' = line pt -> column (start r) <= column pt' < column (end_ r) ->
  findWordAtLocation (Some f) pt' = Ok r.
Proof.
  intros Hwf Hpt Hrun Hline Hcol.
  pose proof Hpt as Hpt0. apply doesPointAtChar_true in Hpt0 as [Hl Hc].
  destruct (findWordAtLocation_cases f pt Hwf Hpt)
    as [[_ Hr]|(_ & x1 & x2 & Hr & Hb1 & Hb2 & Hall & Hs1 & Hs2)];
    rewrite Hr in Hrun; injection Hrun as <-;
    cbn [start end_ line column] in Hcol.
  - assert (pt' = pt) as ->; [|exact Hr].
    destruct pt, pt'. cbn in *. f_equal; lia.
  - assert (Hpt' : doesPointAtChar pt' f = true).
    { apply doesPointAtChar_true. rewrite Hline.
      rewrite (proj2 Hwf _ Hl). lia. }
    destruct (findWordAtLocation_cases f pt' Hwf Hpt')
      as [[Hnw _]|(_ & y1 & y2 & Hr' & Hc1 & Hc2 & Hall' & Ht1 & Ht2)];
      rewrite Hline in *.
    + rewrite (Hall (column pt')) in Hnw by lia. discriminate.
    + rewrite Hr'.
      assert (y1 = x1).
      { destruct (Z.lt_trichotomy y1 x1) as [Hlt|[Heq|Hgt]]; [|exact Heq|].
        - rewrite (Hall' (x1 - 1)) in Hs1 by lia. discriminate.
        - rewrite (Hall (y1 - 1)) in Ht1 by lia. discriminate. }
      assert (y2 = x2).
      { destruct (Z.lt_trichotomy y2 x2) as [Hlt|[Heq|Hgt]]; [|exact Heq|].
        - rewrite (Hall (y2 + 1)) in Ht2 by lia. discriminate.
        - rewrite (Hall' (x2 + 1)) in Hs2 by lia. discriminate. }
      subst. reflexivity.
Qed.

(** X15.  The word does not depend on where it is hit: for a location that
    points at a character, every location of the same line whose column
    lies inside the range that [findWordAtLocation] returns gives the same
    range. *)
Theorem findWordAtLocation_same_word (f : File) (pt pt' : FileLocation)
  (r : FileRange)
  (Hwf : File_wf f) (Hpt : doesPointAtChar pt f = true)
  (Hrun : findWordAtLocation (Some f) pt = Ok r)
  (Hline : line pt' = line pt)
  (Hcol : column (start r) <= column pt' < column (end_ r)) :
  findWordAtLocation (Some f) pt' = Ok r.
Proof.
  exact (findWordAtLocation_inside f pt pt' r Hwf Hpt Hrun Hline Hcol).
Qed.

Lemma findWordAtLocation_same_word_witness :
  findWordAtLocation (Some (fileOfLines [qstr "int foo_bar;"])) (mkLoc 0 9)
  = Ok (mkRange (mkLoc 0 4) (mkLoc 0 11)).
Proof.
  apply (findWordAtLocation_same_word (fileOfLines [qstr "int foo_bar;"])
           (mkLoc 0 5) (mkLoc 0 9) _ (fileOfLines_wf _));
    [reflexivity | reflexivity | reflexivity | cbn; lia].
Defined.

(** ** selectIdentifier *)

Lemma QFont_positive_ok (font : QFont) : QFont_positive font -> QFont_ok font.
Proof.
  intros (Htw & _ & Hsp & Hs). split; [exact Htw | split; assumption].
Qed.

Lemma no_high_surrogate_ends_well (text : list Z) :
  existsb isHighSurrogate text = false -> endsWithHighSurrogate text = false.
Proof.
  intros Hnone. unfold endsWithHighSurrogate.
  destruct (last text) as [ch|] eqn:Hlast; [|reflexivity].
  rewrite last_lookup in Hlast.
  apply (no_high_surrogate_at text (Z.of_nat (pred (length text))) ch Hnone).
  unfold QString_at. destruct (Z.ltb_spec (Z.of_nat (pred (length text))) 0);
    [lia|]. rewrite Nat2Z.id, Hlast. reflexivity.
Qed.

Lemma no_surrogate_walk (font : QFont) (margins : QMargins) (file : File)
  (l : Z) (fuel : nat) (chars : list LineLayout) :
  existsb isHighSurrogate (lineContent file l) = false ->
  layoutChars fuel (LineLayout_new font margins file l) = Ok chars ->
  length chars = length (lineContent file l)
  /\ forall (k : nat) a, chars !! k = Some a -> charColumn a = Z.of_nat k.
Proof.
  intros Hnone Hrun.
  assert (Hsingle : Forall (fun st => m_charIsSurrogatePair st = false) chars).
  { apply Forall_forall. intros st Hst.
    apply list_elem_of_lookup in Hst as [i Hi].
    destruct (layoutChars_columns _ _ _ Hrun i st Hi) as (_ & _ & _ & c & Hc & Hp).
    cbn [LineLayout_new m_lineContent] in Hc.
    rewrite Hp. exact (no_high_surrogate_at _ _ _ Hnone Hc). }
  split.
  - pose proof (layoutChars_units _ _ _ Hrun) as Hu.
    change (nextCharIndex (LineLayout_new font margins file l)) with 0 in Hu.
    cbn [LineLayout_new m_lineContent] in Hu. specialize (Hu (size_nonneg _)).
    rewrite (unitsOf_single_units _ Hsingle) in Hu. unfold size in Hu. lia.
  - intros k a Ha.
    destruct (walk_column _ _ _ _ _ _ _ _ Hrun Ha) as (Hcol & _).
    rewrite Hcol, unitsOf_single_units.
    + rewrite length_take. apply lookup_lt_Some in Ha. lia.
    + apply Forall_take. exact Hsingle.
Qed.

Lemma walk_widths_positive (fuel : nat) :
  forall lay chars, layoutChars fuel lay = Ok chars -> metricInv lay ->
  (forall s, s <> [] -> 0 < m_twc lay s) ->
  forall (k : nat) a, chars !! k = Some a -> 0 < charWidth a.
Proof.
  induction fuel as [|fuel IH]; intros lay chars Hrun Hinv Hpos k a Ha;
    [discriminate|].
  apply layoutChars_cons in Hrun. destruct chars as [|lay' rest];
    [discriminate|].
  destruct Hrun as (fuel' & [= <-] & _ & Hadv & Hrest).
  pose proof (advanceChar_metric _ _ Hadv Hinv) as Hinv'.
  pose proof (advanceChar_frame _ _ Hadv) as (_ & _ & _ & Htwc & _).
  destruct k as [|k]; cbn in Ha.
  - injection Ha as <-. destruct Hinv as (HL & HW & _ & HT).
    apply advanceChar_inv in Hadv as (ch & w & t & _ & -> & Hcase).
    unfold charWidth. cbn.
    destruct Hcase as [(_ & _ & _ & _ & ->)|[(_ & _ & _ & ->)|(_ & c1 & _ & _ & ->)]];
      try (apply Hpos; discriminate).
    apply (tab_width_next_stop (m_charLeft lay + m_charWidth lay)
             (m_tabStopPx lay)); lia.
  - apply (IH _ _ Hrest Hinv') with (k := k); [|exact Ha].
    intros s Hs. rewrite Htwc. apply Hpos. exact Hs.
Qed.

(** X16.  [selectIdentifier] and a click agree.  When the 1-based line and
    column point at a character of a line without high surrogates and the
    font gives every text a positive width, [selectIdentifier] selects the
    word around that character and reports the pixel of the word's first
    character; hit-testing that pixel gives the start of the word, and a
    mouse press on it selects the same word again.  When they do not point
    at a character, the selection is dropped and the reported pixel is the
    corner of the margins. *)
Theorem selectIdentifier_then_click (v : SourceWidgetView) (f : File)
  (l c : Z)
  (Hfile : m_file v = Some f) (Hwf : File_wf f)
  (Hfont : QFont_positive (font v)) :
  (doesPointAtChar (mkLoc (l - 1) (c - 1)) f = false ->
   selectIdentifier v l c
   = Ok (setSelection v FileRange_null,
         mkPoint (m_left (m_margins v)) (m_top (m_margins v))))
  /\ (doesPointAtChar (mkLoc (l - 1) (c - 1)) f = true ->
      existsb isHighSurrogate (lineContent f (l - 1)) = false ->
      exists r p,
        selectIdentifier v l c = Ok (setSelection v r, p)
        /\ line (start r) = l - 1 /\ line (end_ r) = l - 1
        /\ column (start r) <= c - 1 < column (end_ r)
        /\ py p = lineTop (font v) (m_margins v) (l - 1)
        /\ hitTest (font v) (m_margins v) (m_file v) p = Ok (start r)
        /\ mousePressEvent (setSelection v r) p
           = Ok (setSelection v r, [Update])).
Proof.
  split.
  - intros Hpt. unfold selectIdentifier, findWordAtLocation.
    rewrite Hfile, Hpt. cbn [negb mbind result_bind].
    unfold locationToPoint. cbn. rewrite Hfile. reflexivity.
  - intros Hpt Hnone.
    pose proof (QFont_positive_ok _ Hfont) as Hok.
    pose proof Hpt as Hpt0. apply doesPointAtChar_true in Hpt0 as [Hl Hc].
    cbn [line column] in Hl, Hc. rewrite (proj2 Hwf _ Hl) in Hc.
    set (pt := mkLoc (l - 1) (c - 1)) in *.
    (* the word *)
    assert (Hword : exists r,
              findWordAtLocation (Some f) pt = Ok r
              /\ line (start r) = l - 1 /\ line (end_ r) = l - 1
              /\ 0 <= column (start r) <= c - 1
              /\ c - 1 < column (end_ r) <= size (lineContent f (l - 1))).
    { destruct (findWordAtLocation_cases f pt Hwf Hpt)
        as [[_ Hr]|(_ & x1 & x2 & Hr & Hb1 & Hb2 & _)];
        eexists; (split; [exact Hr|]); subst pt; cbn in *; lia. }
    destruct Hword as (r & Hr & Hl1 & Hl2 & Hs & He).
    (* the characters of the line *)
    destruct (layoutChars_ok (S (length (lineContent f (l - 1))))
                (LineLayout_new (font v) (m_margins v) f (l - 1)))
      as [chars Hwalk].
    { apply LineLayout_new_inv; [exact Hok|].
      apply no_high_surrogate_ends_well. exact Hnone. }
    { unfold nextCharIndex, size, LineLayout_new.
      cbn [m_charIndex m_charIsSurrogatePair m_lineContent]. lia. }
    destruct (no_surrogate_walk _ _ _ _ _ _ Hnone Hwalk) as [Hlen Hcols].
    destruct (lookup_lt_is_Some_2 chars (Z.to_nat (column (start r))))
      as [a Ha]; [unfold size in He; lia|].
    pose proof (Hcols _ _ Ha) as Hcol. rewrite Z2Nat.id in Hcol by lia.
    assert (Hstart : start r = mkLoc (l - 1) (charColumn a)).
    { destruct (start r) as [sl sc]. cbn in *. subst. reflexivity. }
    assert (Hwidth : 0 < charWidth a).
    { apply (walk_widths_positive _ _ _ Hwalk
               (LineLayout_new_metricInv _ _ _ _ Hok)) with (k := Z.to_nat (column (start r)));
        [|exact Ha].
      intros s Hne. apply Hfont. exact Hne. }
    set (p := mkPoint (charLeft a) (lineTop (font v) (m_margins v) (l - 1))).
    assert (Hto : locationToPoint (font v) (m_margins v) (Some f) (start r) = Ok p).
    { rewrite Hstart.
      exact (locationToPoint_char_start _ _ _ _ _ _ _ Hl Hwalk Ha). }
    assert (Hhit : hitTest (font v) (m_margins v) (Some f) p = Ok (start r)).
    { rewrite Hstart.
      apply (hitTest_char_box _ _ _ _ chars (Z.to_nat (column (start r))) a p
               Hok Hl Hwalk Ha); subst p; cbn [px py]; [lia|].
      destruct Hok as (_ & _ & Hsp). lia. }
    exists r, p. rewrite Hfile.
    split.
    { unfold selectIdentifier. rewrite Hfile. fold pt. rewrite Hr.
      cbn [mbind result_bind setSelection font m_margins m_file].
      rewrite Hfile, Hto. reflexivity. }
    split; [exact Hl1|]. split; [exact Hl2|]. split; [lia|].
    split; [reflexivity|]. split; [exact Hhit|].
    unfold mousePressEvent, findWordAtPoint.
    cbn [setSelection font m_margins m_file m_selection]. rewrite Hfile, Hhit.
    cbn [mbind result_bind].
    assert (Hpts : doesPointAtChar (start r) f = true).
    { apply doesPointAtChar_true. rewrite Hl1, (proj2 Hwf _ Hl). lia. }
    rewrite Hpts.
    rewrite (findWordAtLocation_inside f pt (start r) r Hwf Hpt Hr);
      [| rewrite Hl1; reflexivity | lia].
    cbn [mbind result_bind]. reflexivity.
Qed.

Lemma monoFont_positive : QFont_positive monoFont.
Proof.
  unfold QFont_positive, monoFont, size. cbn.
  split; [intros s; lia|]. split; [|split; lia].
  intros s Hs. destruct s as [|ch s]; [contradiction|]. cbn [length]. lia.
Qed.

Lemma selectIdentifier_then_click_witness :
  exists r p,
    selectIdentifier sampleLoaded 1 2 = Ok (setSelection sampleLoaded r, p)
    /\ line (start r) = 1 - 1 /\ line (end_ r) = 1 - 1
    /\ column (start r) <= 2 - 1 < column (end_ r)
    /\ py p = lineTop (font sampleLoaded) (m_margins sampleLoaded) (1 - 1)
    /\ hitTest (font sampleLoaded) (m_margins sampleLoaded)
         (m_file sampleLoaded) p = Ok (start r)
    /\ mousePressEvent (setSelection sampleLoaded r) p
       = Ok (setSelection sampleLoaded r, [Update]).
Proof.
  apply (selectIdentifier_then_click sampleLoaded sampleFile 1 2 eq_refl
           (fileOfLines_wf _) monoFont_positive); reflexivity.
Defined.

(** ** paintLine *)

Lemma vector_get_ok {A} (v : list A) (i : Z) (d : A) :
  0 <= i < Z.of_nat (length v) ->
  vector_get v i = Ok (default d (v !! Z.to_nat i)).
Proof.
  intros Hi. unfold vector_get. destruct (Z.ltb_spec i 0); [lia|].
  destruct (lookup_lt_is_Some_2 v (Z.to_nat i)) as [x Hx]; [lia|].
  rewrite Hx. reflexivity.
Qed.

Lemma filter_none_lookup {A} (P : A -> bool) (xs : list A) :
  (forall (k : nat) b, xs !! k = Some b -> P b = false) ->
  List.filter P xs = [].
Proof.
  induction xs as [|x xs IH]; intros Hall; [reflexivity|].
  cbn [List.filter]. rewrite (Hall 0%nat x eq_refl).
  apply IH. intros k b Hb. apply (Hall (S k) b Hb).
Qed.

Lemma layoutChars_baseline (fuel : nat) :
  forall lay chars, layoutChars fuel lay = Ok chars ->
  forall (k : nat) a, chars !! k = Some a ->
    m_lineBaselineY a = m_lineBaselineY lay.
Proof.
  induction fuel as [|fuel IH]; intros lay chars Hrun k a Ha; [discriminate|].
  apply layoutChars_cons in Hrun. destruct chars as [|lay' rest];
    [discriminate|].
  destruct Hrun as (fuel' & [= <-] & _ & Hadv & Hrest).
  assert (Hb : m_lineBaselineY lay' = m_lineBaselineY lay).
  { apply advanceChar_inv in Hadv as (ch & w & t & _ & -> & _). reflexivity. }
  destruct k as [|k]; cbn in Ha.
  - injection Ha as <-. exact Hb.
  - rewrite (IH _ _ Hrest k a Ha). exact Hb.
Qed.

(** The loop of [paintLine] draws the visible characters of the rest of the
    line, each with the pen of its colour. *)
Lemma paintLineLoop_drawn (colors : QtColors) (v : SourceWidgetView) (l : Z)
  (rect : QRect) (fuel : nat) :
  forall lay chars currentColor,
    layoutChars fuel lay = Ok chars -> metricInv lay ->
    (forall (k : nat) a, chars !! k = Some a ->
       0 <= charFileIndex a < Z.of_nat (length (m_syntaxColoring v))) ->
    exists ops,
      paintLineLoop fuel colors v l rect lay currentColor = Ok ops
      /\ drawn currentColor ops
         = map (fun a => (charColor colors v l a, charLeft a,
                          m_lineBaselineY a, charText a))
             (List.filter (charVisible rect) chars).
Proof.
  induction fuel as [|fuel IH]; intros lay chars cur Hrun Hinv Hidx;
    [discriminate|].
  apply layoutChars_cons in Hrun. cbn [paintLineLoop].
  destruct chars as [|lay' rest].
  - rewrite Hrun. exists []. split; reflexivity.
  - destruct Hrun as (fuel' & [= <-] & Hmore & Hadv & Hrest).
    rewrite Hmore, Hadv. cbn [mbind result_bind].
    pose proof (advanceChar_metric _ _ Hadv Hinv) as Hinv'.
    assert (Hidx' : forall (k : nat) a, rest !! k = Some a ->
              0 <= charFileIndex a < Z.of_nat (length (m_syntaxColoring v)))
      by (intros k a Ha; apply (Hidx (S k) a Ha)).
    cbn [List.filter]. unfold charVisible at 1.
    destruct (Z.gtb_spec (charLeft lay') (rect_right rect)) as [Hout|Hin].
    { (* break: nothing further right overlaps the rectangle *)
      exists []. split; [reflexivity|].
      destruct (Z.leb_spec (charLeft lay') (rect_right rect)); [lia|].
      cbn [andb]. rewrite filter_none_lookup; [reflexivity|].
      intros k b Hb. unfold charVisible.
      destruct (layoutChars_right_of _ _ _ Hrest Hinv' k b Hb) as (H1 & _ & H3).
      destruct Hinv' as (_ & HW' & _).
      destruct (Z.leb_spec (charLeft b) (rect_right rect)) as [Hle|_];
        [|reflexivity].
      unfold charLeft in *. lia. }
    destruct (Z.leb_spec (charLeft lay') (rect_right rect)) as [_|?]; [|lia].
    cbn [andb].
    destruct (Z.leb_spec (charLeft lay' + charWidth lay') (rect_left rect))
      as [Hleft|Hover].
    { (* continue: the character ends left of the rectangle *)
      destruct (Z.ltb_spec (rect_left rect) (charLeft lay' + charWidth lay'));
        [lia|]. cbn [andb].
      exact (IH _ _ cur Hrest Hinv' Hidx'). }
    destruct (Z.ltb_spec (rect_left rect) (charLeft lay' + charWidth lay'))
      as [_|?]; [|lia]. cbn [andb].
    destruct (charText lay') as [|c0 text] eqn:Htext.
    { exact (IH _ _ cur Hrest Hinv' Hidx'). }
    rewrite (vector_get_ok _ _ black (Hidx 0%nat lay' eq_refl)).
    cbn [mbind result_bind].
    match goal with |- context [paintLineLoop fuel colors v l rect lay' ?c] =>
      set (color := c) end.
    destruct (IH _ _ color Hrest Hinv' Hidx') as (ops & Hops & Hdrawn).
    rewrite Hops. cbn [mbind result_bind]. eexists. split; [reflexivity|].
    cbn [map].
    assert (Hcolor : charColor colors v l lay' = color) by reflexivity.
    rewrite Hcolor, <- Hdrawn, <- Htext.
    destruct (color =? cur) eqn:Hsame; cbn [negb app drawn].
    + apply Z.eqb_eq in Hsame. subst cur. reflexivity.
    + reflexivity.
Qed.

(** X17.  [paintLine] draws what is visible of a line and nothing else: on
    a line of a file whose colour vector has the size of the content, with
    a font of non-negative widths, the texts it draws are, in order, the
    texts of exactly those characters of the line that have a text and
    overlap the clip rectangle horizontally (no tab, and no character that
    lies behind the [break]), each at its left edge on the baseline of the
    line, and each drawn with the pen of its own colour: the highlighted
    text colour inside the selection, the colour of the colour vector
    outside. *)
Theorem paintLine_draws_visible_chars (colors : QtColors)
  (v : SourceWidgetView) (file : File) (l : Z) (rect : QRect)
  (chars : list LineLayout)
  (Hfont : QFont_ok (font v)) (Hwf : File_wf file)
  (Hlines : File_lines_in_content file)
  (Hsize : length (m_syntaxColoring v) = length (content file))
  (Hl : 0 <= l < lineCount file)
  (Hwalk : layoutChars (S (length (lineContent file l)))
             (LineLayout_new (font v) (m_margins v) file l) = Ok chars) :
  exists ops,
    paintLine colors v file l rect = Ok ops
    /\ forall pen,
         drawn pen ops
         = map (fun a => (charColor colors v l a, charLeft a,
                          m_top (m_margins v) + l * lineSpacing (font v)
                          + ascent (font v),
                          charText a))
             (List.filter (charVisible rect) chars).
Proof.
  unfold paintLine. cbn [LineLayout_new m_lineContent].
  destruct (paintLineLoop_drawn colors v l rect _ _ _ (fromGlobal colors black)
              Hwalk (LineLayout_new_metricInv _ _ _ _ Hfont))
    as (ops & Hops & Hdrawn).
  { intros k a Ha.
    destruct (layoutChars_columns _ _ _ Hwalk k a Ha) as (_ & Hstart & _).
    destruct (walk_column _ _ _ _ _ _ _ _ Hwalk Ha) as (Hcol & _ & Hend).
    pose proof (unitsOf_bounds (take k chars)) as Hnn.
    pose proof (charUnits_pos a) as Hu.
    destruct (Hlines l Hl) as (Hs0 & _ & Hfit).
    rewrite (proj2 Hwf l Hl) in Hfit.
    unfold charFileIndex. rewrite Hstart. cbn [LineLayout_new m_lineStartIndex].
    unfold charColumn in *. rewrite Hsize. unfold size in *. lia. }
  rewrite Hops. cbn [mbind result_bind]. eexists. split; [reflexivity|].
  intros pen. cbn [drawn]. rewrite Hdrawn.
  apply map_ext_in. intros a Hin.
  apply List.filter_In in Hin as [Hin _].
  apply list_elem_of_In, list_elem_of_lookup in Hin as [k Ha].
  rewrite (layoutChars_baseline _ _ _ Hwalk k a Ha). reflexivity.
Qed.

Lemma paintLine_draws_visible_chars_witness :
  exists ops,
    paintLine sampleColors samplePainted sampleFile 0 (mkRect 20 0 36 20) = Ok ops
    /\ forall pen,
         drawn pen ops
         = map (fun a => (charColor sampleColors samplePainted 0 a, charLeft a,
                          m_top (m_margins samplePainted)
                          + 0 * lineSpacing (font samplePainted)
                          + ascent (font samplePainted),
                          charText a))
             (List.filter (charVisible (mkRect 20 0 36 20))
                (lineChars monoFont viewMargins sampleFile 0)).
Proof.
  apply (paintLine_draws_visible_chars sampleColors samplePainted sampleFile 0
           (mkRect 20 0 36 20) (lineChars monoFont viewMargins sampleFile 0)
           monoFont_ok (fileOfLines_wf _)).
  - intros l Hl. assert (l = 0) as -> by (change (0 <= l < 1) in Hl; lia).
    vm_compute. repeat split; discriminate.
  - vm_compute. reflexivity.
  - vm_compute. split; [discriminate | reflexivity].
  - vm_compute. reflexivity.
Defined.

Example paintLine_sample :
  (paintLine sampleColors samplePainted sampleFile 0 (mkRect 20 0 36 20))
    ≫= (fun ops => Ok (drawn 0 ops))
  = Ok [(0x800080, 18, 14, [116]); (0x000000, 25, 14, [32]);
        (0xFFFFFF, 32, 14, [120])].
Proof. vm_compute. reflexivity. Qed.

(** ** paintEvent *)

Lemma quot_ge (a s q : Z) : 0 < s -> s * q <= a -> q <= a ÷ s.
Proof.
  intros Hs Hq. destruct (Z.le_gt_cases 0 a) as [Ha|Ha].
  - rewrite Z.quot_div_nonneg by lia. apply Z.div_le_lower_bound; lia.
  - replace a with (- (- a)) by lia. rewrite Z.quot_opp_l by lia.
    rewrite Z.quot_div_nonneg by lia.
    assert ((- a) / s <= - q); [|lia].
    apply Z.div_le_upper_bound; lia.
Qed.

Lemma quot_le (a s q : Z) : 0 < s -> 0 <= q -> a < s * (q + 1) -> a ÷ s <= q.
Proof.
  intros Hs Hq Ha. destruct (Z.le_gt_cases 0 a) as [Hpos|Hneg].
  - rewrite Z.quot_div_nonneg by lia.
    assert (a / s < q + 1); [|lia]. apply Z.div_lt_upper_bound; lia.
  - replace a with (- (- a)) by lia. rewrite Z.quot_opp_l by lia.
    rewrite Z.quot_div_nonneg by lia.
    pose proof (Z.div_pos (- a) s ltac:(lia) Hs). lia.
Qed.

Lemma paintLines_each (colors : QtColors) (v : SourceWidgetView) (f : File)
  (rect : QRect) (n : nat) :
  forall line ops, paintLines n colors v f line rect = Ok ops ->
  exists lineOps,
    ops = concat lineOps
    /\ Forall2 (fun l lops => paintLine colors v f l rect = Ok lops)
         (seqZ line (Z.of_nat n)) lineOps.
Proof.
  induction n as [|n IH]; intros line ops Hrun.
  - cbn in Hrun. injection Hrun as <-. exists []. split; [reflexivity|].
    constructor.
  - cbn [paintLines] in Hrun.
    destruct (paintLine colors v f line rect) as [lops|e] eqn:Hline;
      cbn [mbind result_bind] in Hrun; [|discriminate].
    destruct (paintLines n colors v f (line + 1) rect) as [rest|e] eqn:Hrest;
      cbn [mbind result_bind] in Hrun; [|discriminate].
    injection Hrun as <-.
    destruct (IH _ _ Hrest) as (lineOps & -> & Hall).
    exists (lops :: lineOps). split; [reflexivity|].
    rewrite seqZ_cons by lia.
    replace (Z.succ line) with (line + 1) by lia.
    replace (Z.pred (Z.of_nat (S n))) with (Z.of_nat n) by lia.
    constructor; assumption.
Qed.

(** X18.  [paintEvent] on a view with a paintable selection never fails its
    assertion.  It paints the selection rectangle first (when there is a
    selection) and then the lines from [line1] to [line2] of the clip
    rectangle, each with [paintLine], in order; these are lines of the file
    only, and when the top margin is at most two line heights (in either
    direction) every line of the file whose band of pixel rows meets the
    rows of the clip rectangle is among them. *)
Theorem paintEvent_paints_lines_of_clip (colors : QtColors)
  (v : SourceWidgetView) (f : File) (rect : QRect) (outcome : PaintOutcome)
  (Hfile : m_file v = Some f)
  (Hsel : selectionOnOneLine (m_selection v))
  (Hrun : paintEvent colors v rect = Ok outcome) :
  let line1 := fst (paintedLines (font v) f rect) in
  let line2 := snd (paintedLines (font v) f rect) in
  exists fillOps lineOps,
    outcome = Painted (fillOps ++ concat lineOps)
    /\ (isEmpty (m_selection v) = true -> fillOps = [])
    /\ (isEmpty (m_selection v) = false ->
        exists pt1 pt2,
          locationToPoint (font v) (m_margins v) (m_file v)
            (start (m_selection v)) = Ok pt1
          /\ locationToPoint (font v) (m_margins v) (m_file v)
               (end_ (m_selection v)) = Ok pt2
          /\ fillOps = [FillRect (px pt1) (py pt1) (px pt2 - px pt1)
                          (lineSpacing (font v)) (paletteHighlight colors)])
    /\ Forall2 (fun l lops => paintLine colors v f l rect = Ok lops)
         (seqZ line1 (line2 - line1 + 1)) lineOps
    /\ 0 <= line1 /\ line2 < lineCount f
    /\ (0 < lineSpacing (font v) ->
        - (2 * lineSpacing (font v)) <= m_top (m_margins v)
          <= 2 * lineSpacing (font v) ->
        forall l, 0 <= l < lineCount f ->
          lineTop (font v) (m_margins v) l <= rect_bottom rect ->
          rect_y rect < lineTop (font v) (m_margins v) l + lineSpacing (font v) ->
          line1 <= l <= line2).
Proof.
  intros line1 line2.
  assert (Hrange : 0 <= line1 /\ line2 < lineCount f).
  { subst line1 line2. unfold paintedLines. cbn [fst snd]. lia. }
  assert (Hcover : 0 < lineSpacing (font v) ->
            - (2 * lineSpacing (font v)) <= m_top (m_margins v)
              <= 2 * lineSpacing (font v) ->
            forall l, 0 <= l < lineCount f ->
              lineTop (font v) (m_margins v) l <= rect_bottom rect ->
              rect_y rect
                < lineTop (font v) (m_margins v) l + lineSpacing (font v) ->
              line1 <= l <= line2).
  { intros Hs Htop l Hl Hbot Hy. subst line1 line2.
    unfold paintedLines, lineTop in *. cbn [fst snd].
    pose proof (quot_le (rect_y rect) (lineSpacing (font v)) (l + 2) Hs
                  ltac:(lia) ltac:(nia)).
    pose proof (quot_ge (rect_bottom rect) (lineSpacing (font v)) (l - 2) Hs
                  ltac:(nia)).
    lia. }
  unfold paintEvent in Hrun. rewrite Hfile in Hrun.
  fold (paintedLines (font v) f rect) in Hrun.
  destruct (paintedLines (font v) f rect) as [l1 l2] eqn:Hpl.
  cbn [fst snd] in line1, line2. subst line1 line2.
  (* the selection rectangle *)
  assert (Hfill : exists fillOps,
    (if negb (isEmpty (m_selection v))
     then
       if line (start (m_selection v)) =? line (end_ (m_selection v))
       then
         locationToPoint (font v) (m_margins v) (Some f) (start (m_selection v))
         ≫= (fun pt1 =>
               locationToPoint (font v) (m_margins v) (Some f)
                 (end_ (m_selection v))
               ≫= (fun pt2 =>
                     Ok (Some [FillRect (px pt1) (py pt1) (px pt2 - px pt1)
                                 (lineSpacing (font v))
                                 (paletteHighlight colors)])))
       else Ok None
     else Ok (Some [])) = Ok (Some fillOps)
    /\ (isEmpty (m_selection v) = true -> fillOps = [])
    /\ (isEmpty (m_selection v) = false ->
        exists pt1 pt2,
          locationToPoint (font v) (m_margins v) (Some f)
            (start (m_selection v)) = Ok pt1
          /\ locationToPoint (font v) (m_margins v) (Some f)
               (end_ (m_selection v)) = Ok pt2
          /\ fillOps = [FillRect (px pt1) (py pt1) (px pt2 - px pt1)
                          (lineSpacing (font v)) (paletteHighlight colors)])).
  { destruct (isEmpty (m_selection v)) eqn:Hempty; cbn [negb].
    - exists []. split; [reflexivity|]. split; [reflexivity | discriminate].
    - destruct Hsel as [Hnull|(_ & Hline & _)];
        [rewrite Hnull in Hempty; discriminate|].
      rewrite Hline, Z.eqb_refl.
      try rewrite Hempty in Hrun. cbn [negb] in Hrun.
      rewrite Hline, Z.eqb_refl in Hrun.
      destruct (locationToPoint (font v) (m_margins v) (Some f)
                  (start (m_selection v))) as [pt1|e];
        cbn [mbind result_bind] in Hrun |- *; [|discriminate].
      destruct (locationToPoint (font v) (m_margins v) (Some f)
                  (end_ (m_selection v))) as [pt2|e];
        cbn [mbind result_bind] in Hrun |- *; [|discriminate].
      eexists. split; [reflexivity|]. split; [discriminate|].
      intros _. exists pt1, pt2. auto. }
  destruct Hfill as (fillOps & Hfill & Hnone & Hsome).
  rewrite Hfill in Hrun. cbn [mbind result_bind] in Hrun.
  destruct (lineSpacing (font v) =? 0); [discriminate|].
  rewrite Hfile.
  destruct (Z.gtb_spec l1 l2) as [Hgt|Hle].
  - injection Hrun as <-. exists fillOps, [].
    split; [cbn; rewrite app_nil_r; reflexivity|].
    split; [exact Hnone|]. split; [exact Hsome|].
    split; [|split; [lia | split; [lia | exact Hcover]]].
    unfold seqZ. replace (Z.to_nat (l2 - l1 + 1)) with 0%nat by lia. constructor.
  - destruct (paintLines (Z.to_nat (l2 - l1 + 1)) colors v f l1 rect)
      as [lines|e] eqn:Hlines; cbn [mbind result_bind] in Hrun; [|discriminate].
    injection Hrun as <-.
    destruct (paintLines_each _ _ _ _ _ _ _ Hlines) as (lineOps & -> & Hall).
    rewrite Z2Nat.id in Hall by lia.
    exists fillOps, lineOps.
    split; [reflexivity|]. split; [exact Hnone|]. split; [exact Hsome|].
    split; [exact Hall|]. split; [lia | split; [lia | exact Hcover]].
Qed.

Lemma samplePainted_selection : selectionOnOneLine (m_selection samplePainted).
Proof. right. cbn. split; [reflexivity|]. split; [reflexivity | lia]. Qed.

Lemma paintEvent_paints_lines_of_clip_witness :
  exists fillOps lineOps,
    outcomeOf (paintEvent sampleColors samplePainted (mkRect 20 0 36 20))
    = Painted (fillOps ++ concat lineOps)
    /\ Forall2 (fun l lops =>
                  paintLine sampleColors samplePainted sampleFile l
                    (mkRect 20 0 36 20) = Ok lops)
         (seqZ 0 1) lineOps.
Proof.
  assert (Hrun : paintEvent sampleColors samplePainted (mkRect 20 0 36 20)
                 = Ok (outcomeOf (paintEvent sampleColors samplePainted
                                    (mkRect 20 0 36 20))))
    by (vm_compute; reflexivity).
  destruct (paintEvent_paints_lines_of_clip sampleColors samplePainted
              sampleFile (mkRect 20 0 36 20) _ eq_refl samplePainted_selection
              Hrun) as (fillOps & lineOps & H1 & _ & _ & H4 & _).
  exists fillOps, lineOps. split; [exact H1 | exact H4].
Defined.

Example paintEvent_sample :
  outcomeOf (paintEvent sampleColors samplePainted (mkRect 20 0 36 20))
  = Painted [FillRect 32 4 7 13 0x3399FF; SetPen 0x000000;
             SetPen 0x800080; DrawText 18 14 [116];
             SetPen 0x000000; DrawText 25 14 [32];
             SetPen 0xFFFFFF; DrawText 32 14 [120]].
Proof. vm_compute. reflexivity. Qed.

(** ** The highlight of the selection *)

(** Each character of the walk starts where the one before it ends. *)
Lemma layoutChars_adjacent (fuel : nat) :
  forall lay chars, layoutChars fuel lay = Ok chars ->
  forall (k : nat) a b, chars !! k = Some a -> chars !! S k = Some b ->
    charLeft b = charLeft a + charWidth a.
Proof.
  induction fuel as [|fuel IH]; intros lay chars Hrun k a b Ha Hb;
    [discriminate|].
  apply layoutChars_cons in Hrun. destruct chars as [|lay' rest];
    [discriminate|].
  destruct Hrun as (fuel' & [= <-] & _ & _ & Hrest).
  destruct k as [|k]; cbn in Ha, Hb.
  - injection Ha as <-.
    apply layoutChars_cons in Hrest. destruct rest as [|b' rest'];
      [discriminate|].
    cbn in Hb. injection Hb as ->.
    destruct Hrest as (fuel'' & _ & _ & Hadv & _).
    apply advanceChar_inv in Hadv as (ch & w & t & _ & -> & _).
    unfold charLeft, charWidth. cbn. lia.
  - exact (IH _ _ Hrest k a b Ha Hb).
Qed.

(** On a line of a file whose colour vector has the size of the content,
    [paintLine] runs to its end. *)
Lemma paintLine_ok (colors : QtColors) (v : SourceWidgetView) (file : File)
  (l : Z) (rect : QRect) :
  QFont_ok (font v) -> File_wf file -> File_lines_in_content file ->
  length (m_syntaxColoring v) = length (content file) ->
  0 <= l < lineCount file ->
  endsWithHighSurrogate (lineContent file l) = false ->
  exists ops, paintLine colors v file l rect = Ok ops.
Proof.
  intros Hfont Hwf Hlines Hsize Hl Hend.
  destruct (layoutChars_ok (S (length (lineContent file l)))
              (LineLayout_new (font v) (m_margins v) file l)
              (LineLayout_new_inv _ _ _ _ Hfont Hend)) as [chars Hwalk].
  { change (nextCharIndex (LineLayout_new (font v) (m_margins v) file l))
      with 0.
    cbn [LineLayout_new m_lineContent]. unfold size. lia. }
  unfold paintLine. cbn [LineLayout_new m_lineContent].
  destruct (paintLineLoop_drawn colors v l rect _ _ _ (fromGlobal colors black)
              Hwalk (LineLayout_new_metricInv _ _ _ _ Hfont))
    as (ops & Hops & _).
  { intros k a Ha.
    destruct (layoutChars_columns _ _ _ Hwalk k a Ha) as (_ & Hstart & _).
    destruct (walk_column _ _ _ _ _ _ _ _ Hwalk Ha) as (Hcol & _ & Hfit').
    pose proof (unitsOf_bounds (take k chars)) as Hnn.
    pose proof (charUnits_pos a) as Hu.
    destruct (Hlines l Hl) as (Hs0 & _ & Hfit).
    rewrite (proj2 Hwf l Hl) in Hfit.
    unfold charFileIndex. rewrite Hstart. cbn [LineLayout_new m_lineStartIndex].
    unfold charColumn in *. rewrite Hsize. unfold size in *. lia. }
  rewrite Hops. cbn [mbind result_bind]. eauto.
Qed.

Lemma paintLines_ok (colors : QtColors) (v : SourceWidgetView) (file : File)
  (rect : QRect) :
  QFont_ok (font v) -> File_wf file -> File_lines_in_content file ->
  length (m_syntaxColoring v) = length (content file) ->
  (forall l, 0 <= l < lineCount file ->
     endsWithHighSurrogate (lineContent file l) = false) ->
  forall (n : nat) line,
    0 <= line -> line + Z.of_nat n <= lineCount file ->
    exists ops, paintLines n colors v file line rect = Ok ops.
Proof.
  intros Hfont Hwf Hlines Hsize Hends n.
  induction n as [|n IH]; intros line H0 Hn; [cbn; eauto|].
  cbn [paintLines].
  destruct (paintLine_ok colors v file line rect Hfont Hwf Hlines Hsize
              ltac:(lia) (Hends line ltac:(lia))) as [ops ->].
  destruct (IH (line + 1) ltac:(lia) ltac:(lia)) as [rest ->].
  cbn [mbind result_bind]. eauto.
Qed.

(** Two characters of a walk, in order: the earlier one ends at or left of
    the start of the later one. *)
Lemma walk_boxes_ordered (font : QFont) (margins : QMargins) (file : File)
  (l : Z) (fuel : nat) (chars : list LineLayout) (i j : nat)
  (a b : LineLayout) :
  QFont_ok font ->
  layoutChars fuel (LineLayout_new font margins file l) = Ok chars ->
  (i < j)%nat -> chars !! i = Some a -> chars !! j = Some b ->
  charLeft a + charWidth a <= charLeft b /\ 0 <= charWidth a.
Proof.
  intros Hfont Hwalk Hij Ha Hb.
  destruct (layoutChars_monotone _ _ _ Hwalk
              (LineLayout_new_metricInv _ _ _ _ Hfont) i j a b Hij Ha Hb)
    as (H1 & H2 & H3).
  unfold charLeft, charWidth. lia.
Qed.

(** X19.  The highlight of a selection spans the selected characters.  On a
    view that shows a file, with a selection from column [s] to column [e]
    of a line without surrogates, [paintEvent] runs to its end and first
    fills one rectangle, in the highlight colour: it starts at the left
    edge of the character at column [s], at the top of the line, is one
    line high, and ends at the right edge of the character at column
    [e - 1].  The characters [paintLine] draws in the highlighted text
    colour are those of the columns [s] to [e - 1], and these lie inside
    the rectangle; every other character of the line keeps the colour of
    the colour vector and lies left or right of the rectangle. *)
Theorem paintEvent_highlights_selection (colors : QtColors)
  (v : SourceWidgetView) (f : File) (rect : QRect) (l s e : Z)
  (Hfile : m_file v = Some f)
  (Hfont : QFont_ok (font v)) (Hwf : File_wf f)
  (Hlines : File_lines_in_content f)
  (Hsize : length (m_syntaxColoring v) = length (content f))
  (Hends : forall l', 0 <= l' < lineCount f ->
             endsWithHighSurrogate (lineContent f l') = false)
  (Hl : 0 <= l < lineCount f)
  (Hnone : existsb isHighSurrogate (lineContent f l) = false)
  (Hsel : m_selection v = mkRange (mkLoc l s) (mkLoc l e))
  (Hcols : 0 <= s < e /\ e <= lineLength f l) :
  exists chars a b rest,
    layoutChars (S (length (lineContent f l)))
      (LineLayout_new (font v) (m_margins v) f l) = Ok chars
    /\ chars !! Z.to_nat s = Some a
    /\ chars !! Z.to_nat (e - 1) = Some b
    /\ paintEvent colors v rect
       = Ok (Painted
               (FillRect (charLeft a) (lineTop (font v) (m_margins v) l)
                  (charLeft b + charWidth b - charLeft a)
                  (lineSpacing (font v)) (paletteHighlight colors)
                :: rest))
    /\ forall (k : nat) c, chars !! k = Some c ->
         if (s <=? Z.of_nat k) && (Z.of_nat k <? e) then
           charColor colors v l c = paletteHighlightedText colors
           /\ charLeft a <= charLeft c
           /\ charLeft c + charWidth c <= charLeft b + charWidth b
         else
           charColor colors v l c
           = fromGlobal colors
               (default black
                  (m_syntaxColoring v !! Z.to_nat (lineStart f l + Z.of_nat k)))
           /\ (charLeft c + charWidth c <= charLeft a
               \/ charLeft b + charWidth b <= charLeft c).
Proof.
  destruct Hcols as (Hs & He).
  rewrite (proj2 Hwf l Hl) in He.
  destruct (layoutChars_ok (S (length (lineContent f l)))
              (LineLayout_new (font v) (m_margins v) f l)
              (LineLayout_new_inv _ _ _ _ Hfont (Hends l Hl))) as [chars Hwalk].
  { change (nextCharIndex (LineLayout_new (font v) (m_margins v) f l)) with 0.
    cbn [LineLayout_new m_lineContent]. unfold size. lia. }
  destruct (no_surrogate_walk _ _ _ _ _ _ Hnone Hwalk) as (Hlen & Hcol).
  unfold size in He.
  destruct (lookup_lt_is_Some_2 chars (Z.to_nat s) ltac:(lia)) as [a Ha].
  destruct (lookup_lt_is_Some_2 chars (Z.to_nat (e - 1)) ltac:(lia)) as [b Hb].
  pose proof (Hcol _ _ Ha) as Hca. rewrite Z2Nat.id in Hca by lia.
  pose proof (Hcol _ _ Hb) as Hcb. rewrite Z2Nat.id in Hcb by lia.
  (* the two corners of the rectangle *)
  assert (Hpt1 : locationToPoint (font v) (m_margins v) (Some f) (mkLoc l s)
                 = Ok (mkPoint (charLeft a) (lineTop (font v) (m_margins v) l))).
  { rewrite <- Hca. exact (locationToPoint_char_start _ _ _ _ _ _ _ Hl Hwalk Ha). }
  assert (Hpt2 : locationToPoint (font v) (m_margins v) (Some f) (mkLoc l e)
                 = Ok (mkPoint (charLeft b + charWidth b)
                         (lineTop (font v) (m_margins v) l))).
  { destruct (Z.lt_ge_cases e (Z.of_nat (length (lineContent f l)))) as [Hin|Hout].
    - destruct (lookup_lt_is_Some_2 chars (Z.to_nat e) ltac:(lia)) as [c Hc].
      pose proof (Hcol _ _ Hc) as Hcc. rewrite Z2Nat.id in Hcc by lia.
      rewrite <- Hcc.
      rewrite (locationToPoint_char_start _ _ _ _ _ _ _ Hl Hwalk Hc).
      replace (Z.to_nat e) with (S (Z.to_nat (e - 1))) in Hc by lia.
      rewrite (layoutChars_adjacent _ _ _ Hwalk _ _ _ Hb Hc). reflexivity.
    - rewrite (locationToPoint_on_line (font v) (m_margins v) f (mkLoc l e) Hl).
      cbn [line column].
      rewrite (locationToPointLoop_find _ _ _ _ _ Hwalk). cbn [column].
      rewrite find_none_lookup.
      + rewrite last_lookup.
        replace (pred (length chars)) with (Z.to_nat (e - 1)) by lia.
        rewrite Hb. reflexivity.
      + intros j c Hc. apply Z.eqb_neq.
        apply (walk_no_char_at _ _ _ _ _ _ e Hwalk) with (j := j);
          [|exact Hc].
        right. left. unfold size. lia. }
  (* the paint event *)
  assert (Hempty : isEmpty (mkRange (mkLoc l s) (mkLoc l e)) = false).
  { unfold isEmpty, loc_eqb. cbn. rewrite Z.eqb_refl.
    destruct (Z.eqb_spec s e); [lia | reflexivity]. }
  assert (Hpaint : exists rest,
            paintEvent colors v rect
            = Ok (Painted
                    (FillRect (charLeft a) (lineTop (font v) (m_margins v) l)
                       (charLeft b + charWidth b - charLeft a)
                       (lineSpacing (font v)) (paletteHighlight colors)
                     :: rest))).
  { unfold paintEvent. rewrite Hfile, Hsel, Hempty.
    cbn [negb start end_ line]. rewrite Z.eqb_refl, Hpt1, Hpt2.
    cbn [mbind result_bind px py].
    destruct (Z.eqb_spec (lineSpacing (font v)) 0) as [H0|_];
      [destruct Hfont as (_ & _ & Hspacing); lia|].
    unfold paintedLines.
    destruct (Z.gtb_spec (Z.max (rect_y rect ÷ lineSpacing (font v) - 2) 0)
                (Z.min (rect_bottom rect ÷ lineSpacing (font v) + 2)
                   (lineCount f - 1))) as [Hgt|Hle].
    - exists []. reflexivity.
    - match goal with
      | |- context [paintLines ?n colors v f ?line1 rect] =>
          destruct (paintLines_ok colors v f rect Hfont Hwf Hlines Hsize Hends
                      n line1) as [ops Hops]; [lia | lia |]
      end.
      rewrite Hops. cbn [mbind result_bind]. exists ops. reflexivity. }
  destruct Hpaint as [rest Hpaint].
  exists chars, a, b, rest.
  split; [exact Hwalk|]. split; [exact Ha|]. split; [exact Hb|].
  split; [exact Hpaint|].
  (* the characters of the line *)
  intros k c Hc.
  pose proof (Hcol _ _ Hc) as Hck.
  destruct (layoutChars_columns _ _ _ Hwalk k c Hc) as (_ & Hstart & _).
  cbn [LineLayout_new m_lineStartIndex] in Hstart.
  assert (Hcolor : charColor colors v l c
                   = if negb (Z.of_nat k <? s) && (Z.of_nat k <? e)
                     then paletteHighlightedText colors
                     else fromGlobal colors
                            (default black
                               (m_syntaxColoring v
                                  !! Z.to_nat (lineStart f l + Z.of_nat k)))).
  { unfold charColor, charFileIndex. rewrite Hsel, Hstart.
    change (m_charIndex c) with (charColumn c). rewrite Hck.
    unfold loc_geb, loc_ltb. cbn [start end_ line column].
    rewrite Z.ltb_irrefl, Z.eqb_refl. reflexivity. }
  rewrite Hcolor.
  destruct (Z.leb_spec s (Z.of_nat k)) as [Hsk|Hks];
    destruct (Z.ltb_spec (Z.of_nat k) e) as [Hke|Hek];
    destruct (Z.ltb_spec (Z.of_nat k) s); try lia; cbn [negb andb].
  - split; [reflexivity|]. split.
    + destruct (decide (k = Z.to_nat s)) as [->|Hne].
      * rewrite Ha in Hc. injection Hc as ->. lia.
      * pose proof (walk_boxes_ordered _ _ _ _ _ _ (Z.to_nat s) k a c Hfont
                      Hwalk ltac:(lia) Ha Hc). lia.
    + destruct (decide (k = Z.to_nat (e - 1))) as [->|Hne].
      * rewrite Hb in Hc. injection Hc as ->. lia.
      * pose proof (walk_boxes_ordered _ _ _ _ _ _ k (Z.to_nat (e - 1)) c b
                      Hfont Hwalk ltac:(lia) Hc Hb) as Hcb'.
        pose proof (walk_boxes_ordered _ _ _ _ _ _ (Z.to_nat s)
                      (Z.to_nat (e - 1)) a b Hfont Hwalk ltac:(lia) Ha Hb).
        assert (0 <= charWidth b); [|lia].
        destruct (layoutChars_right_of _ _ _ Hwalk
                    (LineLayout_new_metricInv _ _ _ _ Hfont) _ b Hb)
          as (_ & Hwb & _). exact Hwb.
  - split; [reflexivity|]. right.
    pose proof (walk_boxes_ordered _ _ _ _ _ _ (Z.to_nat (e - 1)) k b c
                  Hfont Hwalk ltac:(lia) Hb Hc). lia.
  - split; [reflexivity|]. left.
    pose proof (walk_boxes_ordered _ _ _ _ _ _ k (Z.to_nat s) c a
                  Hfont Hwalk ltac:(lia) Hc Ha). lia.
Qed.

Lemma paintEvent_highlights_selection_witness :
  exists chars a b rest,
    layoutChars (S (length (lineContent sampleFile 0)))
      (LineLayout_new (font samplePainted) (m_margins samplePainted)
         sampleFile 0) = Ok chars
    /\ chars !! Z.to_nat 4 = Some a
    /\ chars !! Z.to_nat (5 - 1) = Some b
    /\ paintEvent sampleColors samplePainted (mkRect 20 0 36 20)
       = Ok (Painted
               (FillRect (charLeft a)
                  (lineTop (font samplePainted) (m_margins samplePainted) 0)
                  (charLeft b + charWidth b - charLeft a)
                  (lineSpacing (font samplePainted))
                  (paletteHighlight sampleColors)
                :: rest))
    /\ forall (k : nat) c, chars !! k = Some c ->
         if (4 <=? Z.of_nat k) && (Z.of_nat k <? 5) then
           charColor sampleColors samplePainted 0 c
           = paletteHighlightedText sampleColors
           /\ charLeft a <= charLeft c
           /\ charLeft c + charWidth c <= charLeft b + charWidth b
         else
           charColor sampleColors samplePainted 0 c
           = fromGlobal sampleColors
               (default black
                  (m_syntaxColoring samplePainted
                     !! Z.to_nat (lineStart sampleFile 0 + Z.of_nat k)))
           /\ (charLeft c + charWidth c <= charLeft a
               \/ charLeft b + charWidth b <= charLeft c).
Proof.
  apply (paintEvent_highlights_selection sampleColors samplePainted sampleFile
           (mkRect 20 0 36 20) 0 4 5 eq_refl monoFont_ok (fileOfLines_wf _)).
  - intros l Hl. assert (l = 0) as -> by (change (0 <= l < 1) in Hl; lia).
    vm_compute. repeat split; discriminate.
  - vm_compute. reflexivity.
  - intros l Hl. assert (l = 0) as -> by (change (0 <= l < 1) in Hl; lia).
    vm_compute. reflexivity.
  - vm_compute. split; [discriminate | reflexivity].
  - vm_compute. reflexivity.
  - vm_compute. reflexivity.
  - vm_compute. repeat split; discriminate.
Defined.

(** ** The line area *)

Lemma numberLoop_length_ge (fuel : nat) :
  forall n acc, (length acc <= length (numberLoop fuel n acc))%nat.
Proof.
  induction fuel as [|fuel IH]; intros n acc; cbn [numberLoop]; [lia|].
  destruct (n <? 10); [cbn; lia|].
  specialize (IH (n / 10) ((48 + n mod 10) :: acc)). cbn in IH. lia.
Qed.

(** A larger number has no fewer digits, on any fuel that suffices. *)
Lemma numberLoop_length_mono (f1 : nat) :
  forall (f2 : nat) a b acc1 acc2,
    0 <= a <= b -> (0 < f2)%nat -> b < 10 ^ Z.of_nat f2 ->
    (length acc1 <= length acc2)%nat ->
    (length (numberLoop f1 a acc1) <= length (numberLoop f2 b acc2))%nat.
Proof.
  induction f1 as [|f1 IH]; intros f2 a b acc1 acc2 Hab Hf2 Hb Hacc.
  - pose proof (numberLoop_length_ge f2 b acc2). cbn [numberLoop]. lia.
  - destruct f2 as [|f2]; [lia|].
    cbn [numberLoop].
    destruct (Z.ltb_spec a 10) as [Ha10|Ha10].
    + destruct (Z.ltb_spec b 10) as [Hb10|Hb10]; [cbn; lia|].
      pose proof (numberLoop_length_ge f2 (b / 10) ((48 + b mod 10) :: acc2))
        as Hge. cbn in Hge |- *. lia.
    + destruct (Z.ltb_spec b 10) as [Hb10|Hb10]; [lia|].
      rewrite Nat2Z.inj_succ, Z.pow_succ_r in Hb by lia.
      assert (Hb' : b / 10 < 10 ^ Z.of_nat f2)
        by (apply Z.div_lt_upper_bound; lia).
      assert (H1 : 1 <= b / 10) by (apply Z.div_le_lower_bound; lia).
      apply IH.
      * split; [apply Z.div_pos; lia | apply Z.div_le_mono; lia].
      * destruct f2 as [|f2]; [cbn in Hb'; lia | lia].
      * exact Hb'.
      * cbn. lia.
Qed.

Lemma number_fuel (n : Z) : 0 <= n -> n < 10 ^ Z.of_nat (S (Z.to_nat (Z.log2 n))).
Proof.
  intros Hn. destruct (Z.eq_dec n 0) as [->|Hne]; [reflexivity|].
  pose proof (Z.log2_nonneg n) as Hlog.
  pose proof (Z.log2_spec n ltac:(lia)) as (_ & Hlt).
  rewrite Nat2Z.inj_succ, Z2Nat.id by lia.
  apply (Z.lt_le_trans _ _ _ Hlt).
  apply Z.pow_le_mono_l. lia.
Qed.

Lemma QString_number_size_mono (a b : Z) :
  0 <= a <= b -> size (QString_number a) <= size (QString_number b).
Proof.
  intros Hab. unfold QString_number, size.
  destruct (Z.ltb_spec a 0); [lia|]. destruct (Z.ltb_spec b 0); [lia|].
  apply inj_le.
  apply numberLoop_length_mono;
    [lia | lia | apply number_fuel; lia | lia].
Qed.

Lemma LineArea_drawLines_elem (la : SourceWidgetLineArea) (n : nat) :
  forall line op,
    op ∈ LineArea_drawLines n la line
    <-> exists l, line <= l < line + Z.of_nat n /\ op = LineArea_drawLine la l.
Proof.
  induction n as [|n IH]; intros line op; cbn [LineArea_drawLines].
  - split; [intros H; inversion H | intros (l & Hl & _); lia].
  - rewrite elem_of_cons, IH. split.
    + intros [->|(l & Hl & ->)]; [exists line | exists l]; split; auto; lia.
    + intros (l & Hl & ->). destruct (Z.eq_dec l line) as [->|Hne]; [auto|].
      right. exists l. split; [lia | reflexivity].
Qed.

(** X20.  The line area draws the numbers of the lines of the clip region,
    right-aligned inside its margins.  With a positive line spacing and a
    digit of non-negative width, on a line area as wide as its size hint,
    [paintEvent] sets the pen to dark gray and then draws texts only: each
    is the decimal number [l + 1] of a line [l] of the file, on the
    baseline of that line, it starts at or right of the left margin and it
    ends, at the width of a digit per character, at the right margin.  When
    the top margin is at most two line heights (in either direction) the
    number of every line whose band of pixel rows meets the rows of the
    clip rectangle is drawn. *)
Theorem LineArea_paintEvent_line_numbers (colors : QtColors)
  (la : SourceWidgetLineArea) (rect : QRect)
  (Hch : 0 < lineSpacing (la_font la))
  (Hcw : 0 <= la_digitWidth la)
  (Hwidth : la_width la = s_width (LineArea_sizeHint la)) :
  exists ops,
    LineArea_paintEvent colors la rect
    = Ok (SetPen (fromGlobal colors darkGray) :: ops)
    /\ (forall op, op ∈ ops ->
          exists l x,
            0 <= l < la_lineCount la
            /\ op = DrawText x
                      (lineTop (la_font la) (la_margins la) l
                       + ascent (la_font la))
                      (QString_number (l + 1))
            /\ m_left (la_margins la) <= x
            /\ x + la_digitWidth la * size (QString_number (l + 1))
               = la_width la - m_right (la_margins la))
    /\ (- (2 * lineSpacing (la_font la)) <= m_top (la_margins la)
          <= 2 * lineSpacing (la_font la) ->
        forall l, 0 <= l < la_lineCount la ->
          lineTop (la_font la) (la_margins la) l <= rect_bottom rect ->
          rect_top rect
            < lineTop (la_font la) (la_margins la) l + lineSpacing (la_font la) ->
          LineArea_drawLine la l ∈ ops).
Proof.
  unfold LineArea_paintEvent.
  destruct (Z.eqb_spec (lineSpacing (la_font la)) 0) as [H0|_]; [lia|].
  eexists. split; [reflexivity|]. split.
  - intros op Hop. apply LineArea_drawLines_elem in Hop as (l & Hl & ->).
    assert (Hrange : 0 <= l < la_lineCount la) by lia.
    exists l. eexists. split; [exact Hrange|].
    split; [unfold LineArea_drawLine, lineTop; f_equal; lia|].
    pose proof (QString_number_size_mono (l + 1) (la_lineCount la)
                  ltac:(lia)) as Hmono.
    rewrite Hwidth. unfold LineArea_sizeHint, QSize_add, marginsToSize.
    cbn [s_width]. split; nia.
  - intros Htop l Hl Hbot Hy.
    apply LineArea_drawLines_elem. exists l. split; [|reflexivity].
    unfold lineTop in Hbot, Hy.
    pose proof (quot_ge (rect_bottom rect) (lineSpacing (la_font la)) (l - 2)
                  Hch ltac:(nia)) as Hq2.
    assert (Hq1 : rect_top rect ÷ lineSpacing (la_font la) - 2 <= l).
    { destruct (Z.le_gt_cases 0 (l + 2)) as [Hpos|Hneg]; [|lia].
      pose proof (quot_le (rect_top rect) (lineSpacing (la_font la)) (l + 2)
                    Hch Hpos ltac:(nia)). lia. }
    lia.
Qed.

Lemma LineArea_paintEvent_line_numbers_witness :
  exists ops,
    LineArea_paintEvent sampleColors sampleLineArea (mkRect 0 100 30 120)
    = Ok (SetPen (fromGlobal sampleColors darkGray) :: ops)
    /\ (forall op, op ∈ ops ->
          exists l x,
            0 <= l < la_lineCount sampleLineArea
            /\ op = DrawText x
                      (lineTop (la_font sampleLineArea)
                         (la_margins sampleLineArea) l
                       + ascent (la_font sampleLineArea))
                      (QString_number (l + 1))
            /\ m_left (la_margins sampleLineArea) <= x
            /\ x + la_digitWidth sampleLineArea * size (QString_number (l + 1))
               = la_width sampleLineArea - m_right (la_margins sampleLineArea))
    /\ (- (2 * lineSpacing (la_font sampleLineArea))
          <= m_top (la_margins sampleLineArea)
          <= 2 * lineSpacing (la_font sampleLineArea) ->
        forall l, 0 <= l < la_lineCount sampleLineArea ->
          lineTop (la_font sampleLineArea) (la_margins sampleLineArea) l
            <= rect_bottom (mkRect 0 100 30 120) ->
          rect_top (mkRect 0 100 30 120)
            < lineTop (la_font sampleLineArea) (la_margins sampleLineArea) l
              + lineSpacing (la_font sampleLineArea) ->
          LineArea_drawLine sampleLineArea l ∈ ops).
Proof.
  apply (LineArea_paintEvent_line_numbers sampleColors sampleLineArea
           (mkRect 0 100 30 120)).
  - vm_compute. reflexivity.
  - vm_compute. discriminate.
  - vm_compute. reflexivity.
Defined.

Example LineArea_paintEvent_sample :
  LineArea_paintEvent sampleColors sampleLineArea (mkRect 0 100 30 120)
  = Ok (SetPen 0x010101
        :: map (fun '(x, y, n) => DrawText x y (qstr n))
             [(11, 79, "6"); (11, 92, "7"); (11, 105, "8"); (11, 118, "9");
              (4, 131, "10"); (4, 144, "11"); (4, 157, "12")]).
Proof. vm_compute. reflexivity. Qed.
